(** * pole-sport-parser: the element catalogue extractor of [parse.py]

    A shallow embedding of [parse.py] and the properties of its page geometry,
    criteria parser, category derivation and catalogue assembly.

    Modelling conventions.
    - A Python [str] is a Rocq [string]; a character is a code point below 256
      (Latin-1), which is what [ascii] holds.  [str.strip], [str.lower] and
      [str.isspace] are given for that range.
    - A Python [dict] with string keys is a [gmap string _]; the alias table,
      whose iteration order is observable, is an association list.
    - A pandas [DataFrame] is the list of its rows, a row being the list of
      its (column name, value) cells in column order.
    - An exception that ends the script is the [Aborted] outcome of a run,
      and the written JSON file is the [Exported] one. *)

From Stdlib Require Import ZArith NArith Ascii String List Bool Lia.
From Stdlib Require Import Floats.SpecFloat.
From stdpp Require Import base gmap strings list fin_maps sorting.

Local Open Scope Z_scope.

(** ** Python string primitives used by [parse.py] *)

Module Py.

Definition LF : ascii := "010"%char.

Definition code_point (c : ascii) : N := N_of_ascii c.

Definition between (lo hi n : N) : bool := ((lo <=? n) && (n <=? hi))%N.

(** [str.isspace] on one character: TAB..CR, FS..US, SPACE, NEL, NBSP. *)
Definition isspace (c : ascii) : bool :=
  let n := code_point c in
  between 9 13 n || between 28 32 n || (n =? 133)%N || (n =? 160)%N.

(** [str.lower] on one character: A..Z and the Latin-1 capitals. *)
Definition lower_char (c : ascii) : ascii :=
  let n := code_point c in
  if between 65 90 n || (between 192 222 n && negb (n =? 215)%N)
  then ascii_of_N (n + 32) else c.

Fixpoint lower (s : string) : string :=
  match s with
  | EmptyString => EmptyString
  | String c s' => String (lower_char c) (lower s')
  end.

(** [s.replace(old, new)] for one-character [old] and [new]. *)
Fixpoint replace (old new : ascii) (s : string) : string :=
  match s with
  | EmptyString => EmptyString
  | String c s' =>
      String (if Ascii.eqb c old then new else c) (replace old new s')
  end.

(** The characters of a string, for membership statements. *)
Fixpoint chars (s : string) : list ascii :=
  match s with
  | EmptyString => []
  | String c s' => c :: chars s'
  end.

Definition char_in (c : ascii) (set : string) : bool :=
  existsb (Ascii.eqb c) (chars set).

(** [s.lstrip(set)]: drops the longest prefix made of characters of [set]. *)
Fixpoint lstrip_chars (set : string) (s : string) : string :=
  match s with
  | EmptyString => EmptyString
  | String c s' => if char_in c set then lstrip_chars set s' else s
  end.

(** [s.lstrip()], [s.rstrip()] and [s.strip()] on white space. *)
Fixpoint lstrip (s : string) : string :=
  match s with
  | EmptyString => EmptyString
  | String c s' => if isspace c then lstrip s' else s
  end.

Fixpoint rstrip (s : string) : string :=
  match s with
  | EmptyString => EmptyString
  | String c s' =>
      match rstrip s' with
      | EmptyString => if isspace c then EmptyString else String c EmptyString
      | r => String c r
      end
  end.

Definition strip (s : string) : string := rstrip (lstrip s).

(** [s.startswith(p)]. *)
Fixpoint startswith (s p : string) {struct p} : bool :=
  match p with
  | EmptyString => true
  | String a p' =>
      match s with
      | EmptyString => false
      | String b s' => Ascii.eqb b a && startswith s' p'
      end
  end.

(** [sub in s], the substring test. *)
Fixpoint contains (sub s : string) : bool :=
  startswith s sub ||
  match s with
  | EmptyString => false
  | String _ s' => contains sub s'
  end.

(** [s.split(sep)] for a non-empty separator: the fragments between the
    non-overlapping occurrences of [sep], found from the left.  [skip]
    counts the characters of a matched separator still to pass over and
    [cur] holds the current fragment, last character first. *)
Fixpoint rev_string (acc : list ascii) (out : string) : string :=
  match acc with
  | [] => out
  | c :: acc' => rev_string acc' (String c out)
  end.

Fixpoint split_go (sep : string) (skip : nat) (cur : list ascii)
    (s : string) : list string :=
  match s with
  | EmptyString => [rev_string cur EmptyString]
  | String c s' =>
      match skip with
      | S k => split_go sep k cur s'
      | O =>
          if startswith s sep
          then rev_string cur EmptyString
                 :: split_go sep (Nat.pred (String.length sep)) [] s'
          else split_go sep O (c :: cur) s'
      end
  end.

Definition split (sep s : string) : list string := split_go sep O [] s.

(** [s.split(sep, 1)] for a one-character [sep], when [sep] occurs in [s]:
    the text before the first [sep] and the text after it. *)
Fixpoint split1 (sep : ascii) (s : string) : option (string * string) :=
  match s with
  | EmptyString => None
  | String c s' =>
      if Ascii.eqb c sep then Some (EmptyString, s')
      else match split1 sep s' with
           | Some (k, v) => Some (String c k, v)
           | None => None
           end
  end.

End Py.

(** ** Page geometry *)

Definition FIRST_FLEXIBILITY_PAGE : Z := 26.
Definition FIRST_STRENGTH_PAGE : Z := 54.
Definition FIRST_SPIN_STATIC_PAGE : Z := 76.
Definition FIRST_SPIN_SPIN_PAGE : Z := 84.
Definition LAST_SPIN_SPIN_PAGE : Z := 100.

Definition FIRST_PAGE : Z := FIRST_FLEXIBILITY_PAGE.
Definition FIRST_PAGE_INDEX : Z := FIRST_FLEXIBILITY_PAGE - 1.
Definition LAST_PAGE_INDEX : Z := LAST_SPIN_SPIN_PAGE.

(** Module-level boundaries of the script; [get_vertical_lines] does not
    read them. *)
Definition VERTICAL_LINES : list Z := [35; 75; 175; 305; 350; 564].

Record Boundaries := mkBoundaries {
  left : Z;
  top : Z;
  right : Z;
  bottom : Z
}.

Definition set_top (b : Boundaries) (t : Z) : Boundaries :=
  {| left := left b; top := t; right := right b; bottom := bottom b |}.

Definition get_crop_boundaries (page_number : Z) : Boundaries :=
  let boundaries := mkBoundaries 35 45 565 775 in
  if page_number =? 26 then set_top boundaries 210
  else if (page_number =? 54) || (page_number =? 76) || (page_number =? 84)
       then set_top boundaries 75
       else boundaries.

Definition get_vertical_lines (page_number : Z) : list Z :=
  if (page_number =? 29) || (page_number =? 30) || (page_number =? 31)
     || (page_number =? 32) || (page_number =? 33)
  then [35; 75; 170; 305; 345; 564]
  else if (page_number =? 69) || (page_number =? 70) || (page_number =? 83)
       then [35; 75; 175; 305; 350; 560]
       else [35; 75; 175; 305; 350; 565].

(** ** Category of an element code *)

Definition get_category (code : string) : string :=
  if Py.startswith code "SP" then "spin"
  else if Py.startswith code "ST" then "static"
  else if Py.startswith code "S" then "strength"
  else if Py.startswith code "F" then "flexibility"
  else "unknown".

(** ** Criteria parsing *)

Definition bullet_delimiter : string := String Py.LF "- ".

(** Lines 60-61: the bullet fragments of a criteria text. *)
Definition bullets_of (text : string) : list string :=
  match Py.split bullet_delimiter (Py.strip text) with
  | [] => []
  | first :: rest => Py.lstrip_chars "- " first :: rest
  end.

Definition canonical_key (key : string) : string :=
  Py.replace " " "_" (Py.lower (Py.strip key)).

(** Lines 64-68: one turn of the loop over the bullets. *)
Definition add_bullet (data : gmap string string) (bullet : string)
  : gmap string string :=
  if Py.contains ":" bullet then
    match Py.split1 ":" bullet with
    | Some (key, value) => <[canonical_key key := Py.strip value]> data
    | None => data
    end
  else data.

Definition raw_criteria (text : string) : gmap string string :=
  foldl add_bullet ∅ (bullets_of text).

Definition bad_columns : list (string * string) :=
  [ ("grip/arm_position", "arm_position/grip");
    ("arm/position_grip", "arm_position/grip");
    ("arm_position_/_grip", "arm_position/grip");
    ("angle_of_the_split", "angle_of_split");
    ("-_angle_of_split", "angle_of_split");
    ("-_body_position", "body_position");
    ("grip_is", "grip") ].

(** [data.setdefault(key, value)], as a statement. *)
Definition setdefault (key value : string) (data : gmap string string)
  : gmap string string :=
  match data !! key with
  | Some _ => data
  | None => <[key := value]> data
  end.

(** Lines 81-83: one turn of the loop over the alias table. *)
Definition reconcile_one (data : gmap string string) (entry : string * string)
  : gmap string string :=
  let '(bad_key, good_key) := entry in
  match data !! bad_key with
  | Some criteria => delete bad_key (setdefault good_key criteria data)
  | None => data
  end.

Definition reconcile (table : list (string * string))
    (data : gmap string string) : gmap string string :=
  foldl reconcile_one data table.

Definition parse_criteria (text : string) : gmap string string :=
  reconcile bad_columns (raw_criteria text).

(** ** Exceptions *)

Inductive exception := ValueError | AttributeError | KeyError | TypeError.

Inductive result (A : Type) :=
| Ok (a : A)
| Raise (e : exception).
Arguments Ok {A} a.
Arguments Raise {A} e.

#[global] Instance result_ret : MRet result := fun A a => Ok a.
#[global] Instance result_bind : MBind result :=
  fun A B f m => match m with Ok a => f a | Raise e => Raise e end.

(** ** [float(s)] on a string, in binary64

    What [DataFrame.astype(float)] applies to each string of an object
    column.  A float is a [spec_float] of precision 53 and [emax] 1024. *)

Module PyFloat.

Definition prec : Z := 53.
Definition emax : Z := 1024.

(** White space that [float] strips at both ends: the C locale's, and the
    two code points above 127 that count as Unicode spaces. *)
Definition isspace (c : ascii) : bool :=
  let n := Py.code_point c in
  Py.between 9 13 n || (n =? 32)%N || (n =? 133)%N || (n =? 160)%N.

Fixpoint lstrip (s : string) : string :=
  match s with
  | EmptyString => EmptyString
  | String c s' => if isspace c then lstrip s' else s
  end.

Fixpoint rstrip (s : string) : string :=
  match s with
  | EmptyString => EmptyString
  | String c s' =>
      match rstrip s' with
      | EmptyString => if isspace c then EmptyString else String c EmptyString
      | r => String c r
      end
  end.

Definition digit_of (c : ascii) : option Z :=
  let n := Py.code_point c in
  if Py.between 48 57 n then Some (Z.of_N n - 48) else None.

Definition is_digit (c : ascii) : bool :=
  match digit_of c with Some _ => true | None => false end.

(** Underscores are dropped when they stand between two digits and refused
    anywhere else.  [prev] is the character before [s]. *)
Fixpoint drop_underscores (prev : ascii) (s : string) : option string :=
  match s with
  | EmptyString => if Ascii.eqb prev "_" then None else Some EmptyString
  | String c s' =>
      if Ascii.eqb c "_" then
        if is_digit prev then drop_underscores c s' else None
      else if Ascii.eqb prev "_" && negb (is_digit c) then None
      else String c <$> drop_underscores c s'
  end.

Definition sign (s : string) : bool * string :=
  match s with
  | String "-" s' => (true, s')
  | String "+" s' => (false, s')
  | _ => (false, s)
  end.

(** A run of digits: its value on top of [m], its length on top of [n],
    and the rest of the string. *)
Fixpoint digits (s : string) (m n : Z) : Z * Z * string :=
  match s with
  | EmptyString => (m, n, s)
  | String c s' =>
      match digit_of c with
      | Some d => digits s' (10 * m + d) (n + 1)
      | None => (m, n, s)
      end
  end.

(** [digits [. digits] [(e|E) [sign] digits]] with a digit in the mantissa:
    the mantissa as an integer and the power of ten that scales it. *)
Definition number (s : string) : option (Z * Z) :=
  let '(m1, n1, r1) := digits s 0 0 in
  let '(m2, n2, r2) :=
    match r1 with
    | String "." r => digits r m1 0
    | _ => (m1, 0, r1)
    end in
  if n1 + n2 =? 0 then None
  else match r2 with
       | EmptyString => Some (m2, - n2)
       | String c r3 =>
           if Ascii.eqb c "e" || Ascii.eqb c "E" then
             let '(neg, r4) := sign r3 in
             let '(e, ne, r5) := digits r4 0 0 in
             if ne =? 0 then None
             else match r5 with
                  | EmptyString => Some (m2, (if neg then - e else e) - n2)
                  | _ => None
                  end
           else None
       end.

(** The float nearest to [m * 10 ^ e10], ties to even, for [0 <= m]. *)
Definition of_decimal (neg : bool) (m e10 : Z) : spec_float :=
  if m =? 0 then S754_zero neg
  else
    let num := if 0 <=? e10 then m * 10 ^ e10 else m in
    let den := if 0 <=? e10 then 1 else 10 ^ (- e10) in
    let '(q, e, l) := SFdiv_core_binary prec emax num 0 den 0 in
    binary_round_aux prec emax neg q e l.

Definition inf_or_nan (neg : bool) (s : string) : option spec_float :=
  let l := Py.lower s in
  if String.eqb l "inf" || String.eqb l "infinity"
  then Some (S754_infinity neg)
  else if String.eqb l "nan" then Some S754_nan else None.

Definition float (s : string) : option spec_float :=
  match drop_underscores "000" (rstrip (lstrip s)) with
  | None => None
  | Some t =>
      let '(neg, body) := sign t in
      match number body with
      | Some (m, e10) => Some (of_decimal neg m e10)
      | None => inf_or_nan neg body
      end
  end.

End PyFloat.

(** ** Data frames *)

Inductive value :=
| VNone
| VStr (s : string)
| VInt (n : Z)
| VFloat (f : spec_float)
| VDict (d : gmap string string).

Definition Row := list (string * value).
Definition DataFrame := list Row.

Fixpoint get_cell (name : string) (r : Row) : option value :=
  match r with
  | [] => None
  | (k, v) :: r' => if String.eqb k name then Some v else get_cell name r'
  end.

(** [row[name] = v]: in place when the column exists, a new last column
    otherwise. *)
Fixpoint set_cell (name : string) (v : value) (r : Row) : Row :=
  match r with
  | [] => [(name, v)]
  | (k, w) :: r' =>
      if String.eqb k name then (k, v) :: r' else (k, w) :: set_cell name v r'
  end.

(** [df[target] = df[source].apply(f)], on one row and on the frame. *)
Definition assign_apply_row (target source : string)
    (f : value -> result value) (r : Row) : result Row :=
  match get_cell source r with
  | Some v => y ← f v; mret (set_cell target y r)
  | None => Raise KeyError
  end.

Definition assign_apply (target source : string) (f : value -> result value)
    (df : DataFrame) : result DataFrame :=
  mapM (assign_apply_row target source f) df.

(** [df[target] = v] for a scalar [v]. *)
Definition assign_scalar (target : string) (v : value) (df : DataFrame)
  : DataFrame :=
  map (set_cell target v) df.

(** [df.drop(names, axis=1, errors="ignore")], on one row and on the frame. *)
Definition drop_row (names : list string) (r : Row) : Row :=
  List.filter (fun kv => negb (existsb (String.eqb kv.1) names)) r.

Definition drop_columns (names : list string) (df : DataFrame) : DataFrame :=
  map (drop_row names) df.

(** [pd.concat(dfs)] of frames with the same columns; it refuses an empty
    list of frames. *)
Definition pd_concat (dfs : list DataFrame) : result DataFrame :=
  match dfs with
  | [] => Raise ValueError
  | _ => Ok (concat dfs)
  end.

(** The casts of [astype].  On an object column [float] is applied to each
    string, and [None] becomes NaN. *)
Definition to_float (v : value) : result value :=
  match v with
  | VNone => Ok (VFloat S754_nan)
  | VStr s =>
      match PyFloat.float s with
      | Some f => Ok (VFloat f)
      | None => Raise ValueError
      end
  | VInt n =>
      Ok (VFloat (binary_normalize PyFloat.prec PyFloat.emax n 0 false))
  | VFloat f => Ok (VFloat f)
  | VDict _ => Raise TypeError
  end.

(** The [page_number] column holds the integers of the page loop; no other
    kind of cell reaches the cast to [int]. *)
Definition to_int (v : value) : result value :=
  match v with
  | VInt n => Ok (VInt n)
  | _ => Raise TypeError
  end.

Definition astype (casts : list (string * (value -> result value)))
    (df : DataFrame) : result DataFrame :=
  foldl (fun acc cast => d ← acc; assign_apply cast.1 cast.1 cast.2 d)
        (Ok df) casts.

(** ** One page: from the extracted table to its frame (lines 144-164) *)

(** What [extract_table] returns: rows of cells, a cell being a string or
    [None]. *)
Definition Table := list (list (option string)).

Definition COLUMNS : list string :=
  ["code"; "name"; "element"; "technicalValue"; "criteria"].

Definition cell_value (c : option string) : value :=
  match c with
  | Some s => VStr s
  | None => VNone
  end.

Definition width (body : Table) : nat :=
  foldr (fun r w => Nat.max (length r) w) O body.

Definition pad (n : nat) (cells : list (option string))
  : list (option string) :=
  cells ++ replicate (n - length cells) None.

(** [pd.DataFrame(body, columns=header)]: the widest row must have as many
    cells as the header, shorter rows are filled with [None]; no row at all
    gives an empty frame with the header's columns. *)
Definition DataFrame_of (body : Table) (header : list (option string))
  : result Table :=
  match body with
  | [] => Ok []
  | _ =>
      if Nat.eqb (width body) (length header)
      then Ok (map (pad (length header)) body)
      else Raise ValueError
  end.

(** [df.columns = names] on a frame of [ncols] columns. *)
Definition set_columns (names : list string) (ncols : nat) (rows : Table)
  : result DataFrame :=
  if Nat.eqb (length names) ncols
  then Ok (map (fun cells => zip names (map cell_value cells)) rows)
  else Raise ValueError.

(** The three functions applied to cells.  A cell of the table is a string
    or [None]; [None] has no [strip] and no [startswith]. *)
Definition apply_parse_criteria (v : value) : result value :=
  match v with
  | VStr text => Ok (VDict (parse_criteria text))
  | _ => Raise AttributeError
  end.

Definition image_path (v : value) : result value :=
  match v with
  | VStr code => Ok (VStr ("/images/" +:+ code +:+ ".jpg"))
  | VNone => Ok (VStr "/images/None.jpg")
  | _ => Raise TypeError
  end.

Definition apply_get_category (v : value) : result value :=
  match v with
  | VStr code => Ok (VStr (get_category code))
  | _ => Raise AttributeError
  end.

Definition page_frame (page_number : Z) (header : list (option string))
    (body : Table) : result DataFrame :=
  rows ← DataFrame_of body header;
  df ← set_columns COLUMNS (length header) rows;
  df ← assign_apply "criteria" "criteria" apply_parse_criteria df;
  let df := assign_scalar "page_number" (VInt page_number) df in
  df ← assign_apply "image" "code" image_path df;
  df ← assign_apply "category" "code" apply_get_category df;
  mret (drop_columns ["please_refer_to_the_glossary"; "element"] df).

(** ** The run over the document (lines 111-208) *)

(** A page of the document, as the script uses it: cropped to a rectangle and
    asked for a table with explicit vertical lines, it answers with a table
    or with none. *)
Definition Page := Boundaries -> list Z -> option Table.

Inductive log_record :=
| INFO_parsing (page_number : Z)
| WARNING_no_table (page_number : Z).

Definition PAGES_TO_DEBUG : list Z := [].

(** [l[a:b]] for [0 <= a <= b]. *)
Definition slice {A} (a b : Z) (l : list A) : list A :=
  take (Z.to_nat (b - a)) (List.skipn (Z.to_nat a) l).

Fixpoint enumerate {A} (start : Z) (l : list A) : list (Z * A) :=
  match l with
  | [] => []
  | x :: l' => (start, x) :: enumerate (start + 1) l'
  end.

(** The page loop: [dfs] is the list of frames appended so far; the answer is
    the log written and either the final [dfs] or the exception that ended
    the loop. *)
Fixpoint page_loop (dfs : list DataFrame) (pages : list (Z * Page))
  : list log_record * result (list DataFrame) :=
  match pages with
  | [] => ([], Ok dfs)
  | (page_number, page) :: rest =>
      let crop_boundaries := get_crop_boundaries page_number in
      let explicit_vertical_lines := get_vertical_lines page_number in
      if bool_decide (page_number ∈ PAGES_TO_DEBUG) then
        let '(l, r) := page_loop dfs rest in (INFO_parsing page_number :: l, r)
      else
        match page crop_boundaries explicit_vertical_lines with
        | None | Some [] =>
            let '(l, r) := page_loop dfs rest in
            (INFO_parsing page_number :: WARNING_no_table page_number :: l, r)
        | Some (header :: body) =>
            match page_frame page_number header body with
            | Raise e => ([INFO_parsing page_number], Raise e)
            | Ok df =>
                let '(l, r) := page_loop (dfs ++ [df]) rest in
                (INFO_parsing page_number :: l, r)
            end
        end
  end.

Definition visited (pdf_pages : list Page) : list (Z * Page) :=
  enumerate FIRST_PAGE (slice FIRST_PAGE_INDEX LAST_PAGE_INDEX pdf_pages).

Definition CASTS : list (string * (value -> result value)) :=
  [("technicalValue", to_float); ("page_number", to_int)].

(** Lines 204-206: concatenation and casts. *)
Definition assemble (dfs : list DataFrame) : result DataFrame :=
  df ← pd_concat dfs; astype CASTS df.

(** How the script ends: [to_json], its last statement, has written the
    records, or an exception has ended it before, nothing being written. *)
Inductive outcome :=
| Exported (records : DataFrame)
| Aborted (e : exception).

(** The script: the page loop over [pdf.pages[25:100]] numbered from 26,
    then the concatenation, the casts and the export. *)
Definition run (pdf_pages : list Page) : list log_record * outcome :=
  let '(l, r) := page_loop [] (visited pdf_pages) in
  (l, match r ≫= assemble with
      | Ok df => Exported df
      | Raise e => Aborted e
      end).

(** * Definitions used by the statements

    The override tables and the record builder as the specification words
    them, the tactics of the proofs and the documents of the examples. *)

(** The override tables of the specification: for a page number, the top of
    the crop rectangle and the column boundaries that replace the defaults. *)
Definition DEFAULT_CROP : Boundaries := mkBoundaries 35 45 565 775.
Definition DEFAULT_COLUMNS : list Z := [35; 75; 175; 305; 350; 565].

Definition crop_top_overrides : gmap Z Z :=
  {[ 26 := 210; 54 := 75; 76 := 75; 84 := 75 ]}.

Definition column_overrides : gmap Z (list Z) :=
  list_to_map
    (((fun p => (p, [35; 75; 170; 305; 345; 564])) <$> [29; 30; 31; 32; 33])
     ++ ((fun p => (p, [35; 75; 175; 305; 350; 560])) <$> [69; 70; 83])).

Definition crop_for (page_number : Z) : Boundaries :=
  match crop_top_overrides !! page_number with
  | Some t => set_top DEFAULT_CROP t
  | None => DEFAULT_CROP
  end.

Definition columns_for (page_number : Z) : list Z :=
  default DEFAULT_COLUMNS (column_overrides !! page_number).

(** Settles every test [a =? b] of the goal that [lia] can settle. *)
Ltac decide_eqb :=
  repeat match goal with
         | |- context [?a =? ?b] =>
             first [ rewrite (proj2 (Z.eqb_neq a b)) by lia
                   | rewrite (proj2 (Z.eqb_eq a b)) by lia ]
         end.

Ltac elem_of_list_lia := rewrite ?elem_of_cons, ?elem_of_nil; lia.

(** Closes an equation between closed terms by evaluating both sides. *)
Ltac vm_refl :=
  lazymatch goal with
  | |- ?l = _ => vm_cast_no_check (@eq_refl _ l)
  end.

(** Fill-if-absent, as the specification words it: the value the first
    alias of [key] present in [data] holds, in the order of the table. *)
Fixpoint first_alias (table : list (string * string))
    (data : gmap string string) (key : string) : option string :=
  match table with
  | [] => None
  | (bad_key, good_key) :: table' =>
      if bool_decide (good_key = key) then
        match data !! bad_key with
        | Some v => Some v
        | None => first_alias table' data key
        end
      else first_alias table' data key
  end.

(** A table is well formed when no alias occurs twice and no alias is the
    canonical key of an entry. *)
Definition well_formed (table : list (string * string)) : Prop :=
  NoDup table.*1 ∧ ∀ k, k ∈ table.*1 → k ∉ table.*2.

(** [sep.join(l)]. *)
Fixpoint str_join (sep : string) (l : list string) : string :=
  match l with
  | [] => ""
  | [x] => x
  | x :: l' => x +:+ sep +:+ str_join sep l'
  end.

(** What trimming means: white space only, and none left at either end. *)
Definition all_space (s : string) : Prop :=
  Forall (fun c => Py.isspace c = true) (Py.chars s).

Definition no_space_first (s : string) : Prop :=
  ∀ c s', s = String c s' → Py.isspace c = false.

Definition no_space_last (s : string) : Prop :=
  ∀ s' c, s = s' +:+ String c "" → Py.isspace c = false.

(** The record of a table row, written out: what [page_frame] leaves of a
    row of five cells whose code and criteria cells are strings, before the
    casts ([page_frame_Ok], [page_frame_complete]). *)
Definition build (page_number : Z) (cells : list (option string))
  : option Row :=
  match cells with
  | [Some code; name; _; technicalValue; Some criteria] =>
      Some [ ("code", VStr code);
             ("name", cell_value name);
             ("technicalValue", cell_value technicalValue);
             ("criteria", VDict (parse_criteria criteria));
             ("page_number", VInt page_number);
             ("image", VStr ("/images/" +:+ code +:+ ".jpg"));
             ("category", VStr (get_category code)) ]
  | _ => None
  end.

(** The casts of [CASTS] on one row. *)
Definition coerce (r : Row) : result Row :=
  r' ← assign_apply_row "technicalValue" "technicalValue" to_float r;
  assign_apply_row "page_number" "page_number" to_int r'.

(** The exported record of a row of the table. *)
Definition ElementRecord (page_number : Z) (cells : list (option string))
  : option Row :=
  match build page_number cells with
  | Some r => match coerce r with Ok r' => Some r' | Raise _ => None end
  | None => None
  end.

(** The exported records of a page, in the order of its rows. *)
Definition page_records (page_number : Z) (page : Page) : option (list Row) :=
  match page (get_crop_boundaries page_number)
             (get_vertical_lines page_number) with
  | None | Some [] => Some []
  | Some (header :: body) => mapM (ElementRecord page_number) body
  end.

(** The page number a record carries. *)
Definition page_number_of (r : Row) : option Z :=
  match get_cell "page_number" r with
  | Some (VInt n) => Some n
  | _ => None
  end.

(** The steps of [page_frame] on one row. *)
Definition row_steps (n : Z) (cells : list (option string)) : result Row :=
  r1 ← assign_apply_row "criteria" "criteria" apply_parse_criteria
         (zip COLUMNS (map cell_value cells));
  r2 ← assign_apply_row "image" "code" image_path
         (set_cell "page_number" (VInt n) r1);
  r3 ← assign_apply_row "category" "code" apply_get_category r2;
  Ok (drop_row ["please_refer_to_the_glossary"; "element"] r3).

(** A page the script can turn into records: no table, or a table with a
    header of five cells whose rows all give a record. *)
Definition page_exports (entry : Z * Page) (batch : list Row) : Prop :=
  match entry.2 (get_crop_boundaries entry.1) (get_vertical_lines entry.1) with
  | None | Some [] => batch = []
  | Some (header :: body) =>
      length header = 5%nat ∧ mapM (ElementRecord entry.1) body = Some batch
  end.

(** The frames of the pages, as the loop leaves them. *)
Definition page_batch (entry : Z * Page) (batch : list Row) : Prop :=
  match entry.2 (get_crop_boundaries entry.1) (get_vertical_lines entry.1) with
  | None | Some [] => batch = []
  | Some (header :: body) =>
      Forall2 (fun cells r => build entry.1 cells = Some r) body batch
  end.

(** [if not table]: nothing came back, or an empty list of rows. *)
Definition not_table (table : option Table) : bool :=
  match table with
  | None | Some [] => true
  | Some (_ :: _) => false
  end.

(** The table of the end-to-end scenario, and a table with a technical
    value that is no number. *)
Definition ballerina_header : list (option string) :=
  [Some "code"; Some "name"; Some "element"; Some "technicalValue";
   Some "criteria"].

Definition ballerina_row : list (option string) :=
  [Some "F4"; Some "Ballerina"; Some ""; Some "0.1";
   Some ("- Hold: 5 seconds" +:+ String Py.LF "- Arm Position: upper")].

Definition ballerina_table : Table := [ballerina_header; ballerina_row].

(** The binary64 number nearest to 0.1, 0x1.999999999999ap-4. *)
Definition float_0_1 : spec_float :=
  S754_finite false 7205759403792794 (-56).

Definition ballerina_record : Row :=
  [ ("code", VStr "F4");
    ("name", VStr "Ballerina");
    ("technicalValue", VFloat float_0_1);
    ("criteria",
     VDict {[ "hold" := "5 seconds"; "arm_position" := "upper" ]});
    ("page_number", VInt 26);
    ("image", VStr "/images/F4.jpg");
    ("category", VStr "flexibility") ].

Definition no_table_page : Page := fun _ _ => None.

Definition unscored_table : Table :=
  [ ballerina_header;
    ballerina_row;
    [Some "F5"; Some "Bridge"; Some ""; Some "n/a"; Some "- Hold: 2 seconds"] ].

(** * Further definitions used by the statements *)

(** The five categories [get_category] can answer with. *)
Definition CATEGORIES : list string :=
  ["spin"; "static"; "strength"; "flexibility"; "unknown"].

(** What a bullet adds to the mapping: its canonical key and its trimmed
    value when it holds a colon, nothing otherwise. *)
Definition bullet_entry (bullet : string) : option (string * string) :=
  if Py.contains ":" bullet then
    match Py.split1 ":" bullet with
    | Some (key, value) => Some (canonical_key key, Py.strip value)
    | None => None
    end
  else None.

(** A key in canonical form and a trimmed value. *)
Definition well_keyed (key value : string) : Prop :=
  (" "%char ∉ Py.chars key) ∧ (":"%char ∉ Py.chars key)
  ∧ Py.lower key = key
  ∧ no_space_first value ∧ no_space_last value.

(** The number of data rows of the table a page gives. *)
Definition table_rows (entry : Z * Page) : nat :=
  match entry.2 (get_crop_boundaries entry.1) (get_vertical_lines entry.1) with
  | Some (_ :: body) => length body
  | _ => O
  end.

(** The log lines of a page the loop has gone through. *)
Definition page_log (entry : Z * Page) : list log_record :=
  if not_table (entry.2 (get_crop_boundaries entry.1)
                        (get_vertical_lines entry.1))
  then [INFO_parsing entry.1; WARNING_no_table entry.1]
  else [INFO_parsing entry.1].

(** The seven columns of an exported record, in the order of the frame. *)
Definition EXPORTED_COLUMNS : list string :=
  ["code"; "name"; "technicalValue"; "criteria"; "page_number"; "image";
   "category"].


(** * [combine-images.py]: merging the parts of split images

    Modelling conventions.
    - A file of the input directory is its name; the list of files is what
      [INPUT_DIR.glob] returned, in that order.
    - A compiled pattern is the syntax tree of its regular expression with
      its [IGNORECASE] flag; [Pattern.match] is a backtracking matcher that
      tries the longer repetition first and returns the captured groups.
      The leading [^] is left out: [match] starts at the first character.
    - A PIL image is the term that says how it was made: opened from a file,
      resized from another image, or a new canvas with the images pasted on
      it.  Pixels are not modelled, sizes and paste positions are.
    - [dict] iteration follows insertion order, so [grouped] is an
      association list.
    - A file name is a string of code points below 256, as everywhere in
      this development.
    - What the window answers is a function of the two images shown.  A run
      is followed as far as the script's own code goes: a file that cannot
      be read or written and a window that cannot be built are not
      modelled. *)

Module Combine.

(** ** The fragment of [re] used by the two patterns *)

Inductive regex : Type :=
| Empty
| Class (p : ascii -> bool)
| Rep (p : ascii -> bool) (lo : nat) (hi : option nat)
| Cat (r1 r2 : regex)
| Group (r : regex)
| Dollar.

Definition lit (c : ascii) : regex := Class (Ascii.eqb c).

Definition seq (rs : list regex) : regex := foldr Cat Empty rs.

(** [str.upper] on one character whose capital is a Latin-1 character. *)
Definition upper_char (c : ascii) : ascii :=
  let n := Py.code_point c in
  if Py.between 97 122 n || (Py.between 224 254 n && negb (n =? 247)%N)
  then ascii_of_N (n - 32) else c.

(** Membership in a class: with [IGNORECASE] a character is in the class
    when one of its cases is. *)
Definition hits (ignorecase : bool) (p : ascii -> bool) (c : ascii) : bool :=
  p c || (ignorecase && (p (Py.lower_char c) || p (upper_char c))).

(** [p{lo,hi}] followed by [k]: one more character first, fewer if the rest
    of the pattern then fails. *)
Fixpoint greedy (p : ascii -> bool) (lo : nat) (hi : option nat) (s : string)
    (k : string -> option (list string)) : option (list string) :=
  let stop := match lo with O => k s | S _ => None end in
  match s with
  | EmptyString => stop
  | String c s' =>
      if p c && negb (bool_decide (hi = Some O)) then
        match greedy p (Nat.pred lo) (Nat.pred <$> hi) s' k with
        | Some groups => Some groups
        | None => stop
        end
      else stop
  end.

(** The first [n] characters of [s]. *)
Fixpoint take_string (n : nat) (s : string) : string :=
  match n, s with
  | S n', String c s' => String c (take_string n' s')
  | _, _ => EmptyString
  end.

(** [r] at the start of [s], then [k] on what is left and on the groups
    captured so far.  [$] holds at the end of the string and before a line
    feed that ends it. *)
Fixpoint match_at (ignorecase : bool) (r : regex) (s : string)
    (groups : list string)
    (k : string -> list string -> option (list string))
  : option (list string) :=
  match r with
  | Empty => k s groups
  | Class p =>
      match s with
      | String c s' => if hits ignorecase p c then k s' groups else None
      | EmptyString => None
      end
  | Rep p lo hi =>
      greedy (hits ignorecase p) lo hi s (fun rest => k rest groups)
  | Cat r1 r2 =>
      match_at ignorecase r1 s groups
        (fun rest groups' => match_at ignorecase r2 rest groups' k)
  | Group r' =>
      match_at ignorecase r' s groups
        (fun rest groups' =>
           k rest
             (groups'
              ++ [take_string (String.length s - String.length rest) s]))
  | Dollar =>
      if String.eqb s "" || String.eqb s (String Py.LF "")
      then k s groups else None
  end.

Record Pattern := compile { pattern : regex; IGNORECASE : bool }.

(** [p.match(s)]: the groups of the match, [None] without a match. *)
Definition regex_match (p : Pattern) (s : string) : option (list string) :=
  match_at (IGNORECASE p) (pattern p) s [] (fun _ groups => Some groups).

(** [[A-Za-z]] and [\d]. *)
Definition letter (c : ascii) : bool :=
  let n := Py.code_point c in Py.between 65 90 n || Py.between 97 122 n.

Definition digit (c : ascii) : bool := Py.between 48 57 (Py.code_point c).

(** [([A-Za-z]{1,2}\d{1,3})] *)
Definition CODE : regex :=
  Group (seq [Rep letter 1 (Some 2%nat); Rep digit 1 (Some 3%nat)]).

(** [\.jpe?g$] *)
Definition JPEG : list regex :=
  [lit "."; lit "j"; lit "p"; Rep (Ascii.eqb "e") 0 (Some 1%nat); lit "g";
   Dollar].

Definition SPLIT_PATTERN : Pattern :=
  compile
    (seq ([CODE; lit "_"; Group (Rep digit 1 None); lit "_"; lit "o";
           lit "f"; lit "_"; Group (Rep digit 1 None)] ++ JPEG))
    true.

Definition NORMAL_PATTERN : Pattern := compile (seq (CODE :: JPEG)) true.

(** ** Exceptions *)

Inductive error := ValueError | ZeroDivisionError | OverflowError.

Inductive raising (A : Type) :=
| Returns (a : A)
| Raises (e : error).
Arguments Returns {A} a.
Arguments Raises {A} e.

#[global] Instance raising_ret : MRet raising := fun A a => Returns a.
#[global] Instance raising_bind : MBind raising :=
  fun A B f m => match m with Returns a => f a | Raises e => Raises e end.

Fixpoint mapM {A B} (f : A -> raising B) (l : list A) : raising (list B) :=
  match l with
  | [] => Returns []
  | x :: l' => y ← f x; ys ← mapM f l'; Returns (y :: ys)
  end.

(** ** Numbers *)

Definition is_finite (f : spec_float) : bool :=
  match f with S754_zero _ | S754_finite _ _ _ => true | _ => false end.

(** [a / b] on two [int]s: the float nearest to the quotient. *)
Definition truediv (a b : Z) : raising spec_float :=
  if b =? 0 then Raises ZeroDivisionError
  else
    let neg := xorb (a <? 0) (b <? 0) in
    if a =? 0 then Returns (S754_zero neg)
    else
      let '(q, e, l) :=
        SFdiv_core_binary PyFloat.prec PyFloat.emax (Z.abs a) 0 (Z.abs b) 0 in
      let f := binary_round_aux PyFloat.prec PyFloat.emax neg q e l in
      if is_finite f then Returns f else Raises OverflowError.

(** [float(n)] on an [int], as the product of an [int] and a [float]
    converts its first factor. *)
Definition float_of_int (n : Z) : raising spec_float :=
  let f := binary_normalize PyFloat.prec PyFloat.emax n 0 false in
  if is_finite f then Returns f else Raises OverflowError.

(** [int(f)]: towards zero. *)
Definition int_of_float (f : spec_float) : raising Z :=
  match f with
  | S754_zero _ => Returns 0
  | S754_finite neg m e =>
      let n := if 0 <=? e then Z.pos m * 2 ^ e else Z.pos m / 2 ^ (- e) in
      Returns (if neg then - n else n)
  | S754_infinity _ => Raises OverflowError
  | S754_nan => Raises ValueError
  end.

(** [int(n * ratio)] *)
Definition scale (n : Z) (ratio : spec_float) : raising Z :=
  f ← float_of_int n;
  int_of_float (SFmul PyFloat.prec PyFloat.emax f ratio).

(** [max] of a sequence of [int]s; an empty one is refused. *)
Definition py_max (l : list Z) : raising Z :=
  match l with
  | [] => Raises ValueError
  | x :: l' => Returns (foldl Z.max x l')
  end.

Definition sum (l : list Z) : Z := foldl Z.add 0 l.

(** [int(s)] on the decimal digits a [\d+] group holds; leading zeros
    count for nothing. *)
Definition int (s : string) : Z :=
  foldl (fun n c => 10 * n + (Z.of_N (Py.code_point c) - 48)) 0
        (Py.chars s).

(** ** Images *)

Inductive Image : Type :=
| Opened (file : string) (width height : Z)
| Resized (source : Image) (width height : Z)
| Canvas (width height : Z) (pasted : list Pasted)
with Pasted : Type :=
| At (img : Image) (box : Z * Z).

Definition width (img : Image) : Z :=
  match img with
  | Opened _ w _ | Resized _ w _ | Canvas w _ _ => w
  end.

Definition height (img : Image) : Z :=
  match img with
  | Opened _ _ h | Resized _ _ h | Canvas _ h _ => h
  end.

(** [img.resize(size, LANCZOS)] to a size other than the image's own: PIL
    refuses a size below one pixel. *)
Definition resize (img : Image) (size : Z * Z) : raising Image :=
  if (size.1 <? 1) || (size.2 <? 1) then Raises ValueError
  else Returns (Resized img size.1 size.2).

(** [Image.new("RGB", size)]: PIL refuses a negative size. *)
Definition new (size : Z * Z) : raising Image :=
  if (size.1 <? 0) || (size.2 <? 0) then Raises ValueError
  else Returns (Canvas size.1 size.2 []).

(** [canvas.paste(img, box)] *)
Definition paste (canvas img : Image) (box : Z * Z) : Image :=
  match canvas with
  | Canvas w h pasted => Canvas w h (pasted ++ [At img box])
  | _ => canvas
  end.

Definition resize_to_width (img : Image) (target_width : Z) : raising Image :=
  if width img =? target_width then Returns img
  else
    ratio ← truediv target_width (width img);
    new_height ← scale (height img) ratio;
    resize img (target_width, new_height).

Definition resize_to_height (img : Image) (target_height : Z)
  : raising Image :=
  if height img =? target_height then Returns img
  else
    ratio ← truediv target_height (height img);
    new_width ← scale (width img) ratio;
    resize img (new_width, target_height).

(** The paste loop of [combine_vertical]: [y] is the running offset. *)
Fixpoint paste_down (result : Image) (y : Z) (resized : list Image) : Image :=
  match resized with
  | [] => result
  | img :: rest => paste_down (paste result img (0, y)) (y + height img) rest
  end.

Definition combine_vertical (images : list Image) : raising Image :=
  max_width ← py_max (width <$> images);
  resized ← mapM (fun img => resize_to_width img max_width) images;
  let total_height := sum (height <$> resized) in
  result ← new (max_width, total_height);
  Returns (paste_down result 0 resized).

(** The paste loop of [combine_horizontal]: [x] is the running offset. *)
Fixpoint paste_right (result : Image) (x : Z) (resized : list Image) : Image :=
  match resized with
  | [] => result
  | img :: rest => paste_right (paste result img (x, 0)) (x + width img) rest
  end.

Definition combine_horizontal (images : list Image) : raising Image :=
  max_height ← py_max (height <$> images);
  resized ← mapM (fun img => resize_to_height img max_height) images;
  let total_width := sum (width <$> resized) in
  result ← new (total_width, max_height);
  Returns (paste_right result 0 resized).

(** ** [main] *)

(** [grouped.setdefault(base, []).append(part)] *)
Fixpoint setdefault_append (base : string) (part : Z * string)
    (grouped : list (string * list (Z * string)))
  : list (string * list (Z * string)) :=
  match grouped with
  | [] => [(base, [part])]
  | (b, parts) :: grouped' =>
      if String.eqb b base then (b, parts ++ [part]) :: grouped'
      else (b, parts) :: setdefault_append base part grouped'
  end.

(** One turn of the scan loop.  [SPLIT_PATTERN] has three groups. *)
Definition scan_file
    (state : list (string * list (Z * string)) * list string)
    (file : string) : list (string * list (Z * string)) * list string :=
  let '(grouped, singles) := state in
  match regex_match SPLIT_PATTERN file with
  | Some (base :: idx :: total :: _) =>
      (setdefault_append base (int idx, file) grouped, singles)
  | Some _ => state
  | None =>
      match regex_match NORMAL_PATTERN file with
      | Some _ => (grouped, singles ++ [file])
      | None => state
      end
  end.

Definition scan (files : list string)
  : list (string * list (Z * string)) * list string :=
  foldl scan_file ([], []) files.

(** [parts.sort(key=lambda x: x[0])]: ascending by index, parts of equal
    index in the order they had. *)
Fixpoint insert_part (part : Z * string) (sorted : list (Z * string))
  : list (Z * string) :=
  match sorted with
  | [] => [part]
  | q :: sorted' =>
      if part.1 <=? q.1 then part :: sorted
      else q :: insert_part part sorted'
  end.

Definition sort_parts (parts : list (Z * string)) : list (Z * string) :=
  foldr insert_part [] parts.

Inductive event :=
| Copied (name : string)
| Processing (base : string)
| Saved (name : string) (result : Image).

(** The loop over the groups.  [open] stands for
    [Image.open(p).convert("RGB")] and [choose] for the choice the window
    ends with: ["v"], ["h"], or [None] when it is closed. *)
Fixpoint process (open : string -> Image)
    (choose : Image -> Image -> option string)
    (grouped : list (string * list (Z * string)))
  : list event * raising unit :=
  match grouped with
  | [] => ([], Returns ())
  | (base, parts) :: rest =>
      let image_paths := snd <$> sort_parts parts in
      let images := open <$> image_paths in
      match combine_vertical images with
      | Raises e => ([Processing base], Raises e)
      | Returns vertical =>
          match combine_horizontal images with
          | Raises e => ([Processing base], Raises e)
          | Returns horizontal =>
              let result :=
                if bool_decide (choose vertical horizontal = Some "v")
                then vertical else horizontal in
              let '(l, r) := process open choose rest in
              (Processing base :: Saved (base ++ ".jpg") result :: l, r)
          end
      end
  end.

Definition main (open : string -> Image)
    (choose : Image -> Image -> option string) (files : list string)
  : list event * raising unit :=
  let '(grouped, singles) := scan files in
  let '(l, r) := process open choose grouped in
  ((Copied <$> singles) ++ l, r).

End Combine.

(** * Definitions used by the statements on [combine-images.py] *)

(** The longest prefix of [s] whose characters are in the class [p], and
    what follows it. *)
Fixpoint span (p : ascii -> bool) (s : string) : string * string :=
  match s with
  | String c s' =>
      if p c then let '(pre, rest) := span p s' in (String c pre, rest)
      else (EmptyString, s)
  | EmptyString => (EmptyString, EmptyString)
  end.

Definition in_range (lo : nat) (hi : option nat) (n : nat) : bool :=
  (lo <=? n)%nat && match hi with Some h => (n <=? h)%nat | None => true end.

Definition all_chars (p : ascii -> bool) (s : string) : Prop :=
  Forall (fun c => p c = true) (Py.chars s).

(** [s] does not start with a character of the class [p]. *)
Definition not_led_by (p : ascii -> bool) (s : string) : Prop :=
  match s with
  | String c _ => p c = false
  | EmptyString => True
  end.

(** A code: one or two letters followed by one to three digits. *)
Definition is_code (base : string) : Prop :=
  ∃ letters digits,
    base = letters +:+ digits
    ∧ all_chars Combine.letter letters
    ∧ (1 ≤ String.length letters ≤ 2)%nat
    ∧ all_chars Combine.digit digits
    ∧ (1 ≤ String.length digits ≤ 3)%nat.

(** A non-empty run of decimal digits. *)
Definition is_number (s : string) : Prop :=
  all_chars Combine.digit s ∧ s ≠ "".

(** The end of a JPEG file name: the extension in any case, and the line
    feed [$] lets through. *)
Definition is_jpeg_end (s : string) : Prop :=
  ∃ ext nl,
    s = ext +:+ nl
    ∧ Py.lower ext ∈ [".jpg"; ".jpeg"]
    ∧ nl ∈ [""; String Py.LF ""].

(** What a file adds to the group of [base]: its index and itself when it
    is a split name whose code is [base], letter case included. *)
Definition part_of (base file : string) : option (Z * string) :=
  match Combine.regex_match Combine.SPLIT_PATTERN file with
  | Some (b :: idx :: _ :: _) =>
      if String.eqb b base then Some (Combine.int idx, file) else None
  | _ => None
  end.

Definition parts_of (base : string) (files : list string)
  : list (Z * string) :=
  omap (part_of base) files.

Definition is_normal (file : string) : bool :=
  match Combine.regex_match Combine.NORMAL_PATTERN file with
  | Some _ => true
  | None => false
  end.

(** [grouped.get(base, [])] *)
Fixpoint get (base : string) (grouped : list (string * list (Z * string)))
  : list (Z * string) :=
  match grouped with
  | [] => []
  | (b, parts) :: grouped' =>
      if String.eqb b base then parts else get base grouped'
  end.

(** The image of a paste. *)
Definition image_of (p : Combine.Pasted) : Combine.Image :=
  match p with Combine.At img _ => img end.

(** [r] is [img] itself or [img] resized. *)
Definition resized_from (img r : Combine.Image) : Prop :=
  r = img ∨ ∃ w h, r = Combine.Resized img w h.

(** The pastes lie one under the other at the left edge, the first at
    height [y], each where the one before ends, the last ending at
    [bottom]. *)
Fixpoint stacked_down (y : Z) (pasted : list Combine.Pasted) (bottom : Z)
  : Prop :=
  match pasted with
  | [] => y = bottom
  | Combine.At img box :: rest =>
      box = (0, y) ∧ stacked_down (y + Combine.height img) rest bottom
  end.

(** The pastes lie side by side at the top edge, the first at abscissa
    [x], each where the one before ends, the last ending at [right]. *)
Fixpoint stacked_right (x : Z) (pasted : list Combine.Pasted) (right : Z)
  : Prop :=
  match pasted with
  | [] => x = right
  | Combine.At img box :: rest =>
      box = (x, 0) ∧ stacked_right (x + Combine.width img) rest right
  end.

(** The image saved for a group: both layouts are built before the window
    asks, and every answer but ["v"] takes the horizontal one. *)
Definition merge (open : string -> Combine.Image)
    (choose : Combine.Image -> Combine.Image -> option string)
    (parts : list (Z * string)) : Combine.raising Combine.Image :=
  let images := open <$> (snd <$> Combine.sort_parts parts) in
  vertical ← Combine.combine_vertical images;
  horizontal ← Combine.combine_horizontal images;
  Combine.Returns
    (if bool_decide (choose vertical horizontal = Some "v")
     then vertical else horizontal).

(** What a file of the output directory holds. *)
Inductive content :=
| CopyOf (file : string)
| Merged (img : Combine.Image).

Definition write (out : gmap string content) (e : Combine.event)
  : gmap string content :=
  match e with
  | Combine.Copied name => <[name := CopyOf name]> out
  | Combine.Processing _ => out
  | Combine.Saved name img => <[name := Merged img]> out
  end.

(** The output directory after the events of a run, from an empty one. *)
Definition outputs (events : list Combine.event) : gmap string content :=
  foldl write ∅ events.

Definition group_events (open : string -> Combine.Image)
    (choose : Combine.Image -> Combine.Image -> option string)
    (entry : string * list (Z * string)) : list Combine.event :=
  match merge open choose entry.2 with
  | Combine.Returns img =>
      [Combine.Processing entry.1; Combine.Saved (entry.1 +:+ ".jpg") img]
  | Combine.Raises _ => [Combine.Processing entry.1]
  end.

Ltac each_char c := destruct c as [[] [] [] [] [] [] [] []].

Ltac lit_char :=
  vm_compute; repeat first [apply list_elem_of_here|apply list_elem_of_further].

(** * Properties *)

(** ** Page geometry: overrides over defaults *)

Lemma get_crop_boundaries_cases (page_number : Z) :
  get_crop_boundaries page_number =
    if bool_decide (page_number = 26) then mkBoundaries 35 210 565 775
    else if bool_decide (page_number ∈ [54; 76; 84])
         then mkBoundaries 35 75 565 775
         else mkBoundaries 35 45 565 775.
Proof.
  unfold get_crop_boundaries.
  destruct (decide (page_number ∈ [26; 54; 76; 84])) as [Hin|Hout].
  - rewrite !elem_of_cons, elem_of_nil in Hin.
    by destruct Hin as [->|[->|[->|[->|[]]]]].
  - rewrite !elem_of_cons, elem_of_nil in Hout. decide_eqb.
    by rewrite !bool_decide_eq_false_2 by elem_of_list_lia.
Qed.

Lemma get_vertical_lines_cases (page_number : Z) :
  get_vertical_lines page_number =
    if bool_decide (29 ≤ page_number ≤ 33) then [35; 75; 170; 305; 345; 564]
    else if bool_decide (page_number ∈ [69; 70; 83])
         then [35; 75; 175; 305; 350; 560]
         else [35; 75; 175; 305; 350; 565].
Proof.
  unfold get_vertical_lines.
  destruct (decide
    (page_number ∈ [29; 30; 31; 32; 33; 69; 70; 83])) as [Hin|Hout].
  - rewrite !elem_of_cons, elem_of_nil in Hin.
    by destruct Hin as [->|[->|[->|[->|[->|[->|[->|[->|[]]]]]]]]].
  - rewrite !elem_of_cons, elem_of_nil in Hout. decide_eqb.
    by rewrite !bool_decide_eq_false_2 by elem_of_list_lia.
Qed.

Lemma crop_for_cases (page_number : Z) :
  crop_for page_number =
    if bool_decide (page_number = 26) then mkBoundaries 35 210 565 775
    else if bool_decide (page_number ∈ [54; 76; 84])
         then mkBoundaries 35 75 565 775
         else mkBoundaries 35 45 565 775.
Proof.
  unfold crop_for, crop_top_overrides.
  destruct (decide (page_number ∈ [26; 54; 76; 84])) as [Hin|Hout].
  - rewrite !elem_of_cons, elem_of_nil in Hin.
    by destruct Hin as [->|[->|[->|[->|[]]]]].
  - rewrite !elem_of_cons, elem_of_nil in Hout.
    rewrite !lookup_insert_ne, lookup_singleton_ne by lia.
    by rewrite !bool_decide_eq_false_2 by elem_of_list_lia.
Qed.

Lemma columns_for_cases (page_number : Z) :
  columns_for page_number =
    if bool_decide (29 ≤ page_number ≤ 33) then [35; 75; 170; 305; 345; 564]
    else if bool_decide (page_number ∈ [69; 70; 83])
         then [35; 75; 175; 305; 350; 560]
         else [35; 75; 175; 305; 350; 565].
Proof.
  unfold columns_for, column_overrides.
  destruct (decide
    (page_number ∈ [29; 30; 31; 32; 33; 69; 70; 83])) as [Hin|Hout].
  - rewrite !elem_of_cons, elem_of_nil in Hin.
    by destruct Hin as [->|[->|[->|[->|[->|[->|[->|[->|[]]]]]]]]].
  - rewrite !elem_of_cons, elem_of_nil in Hout. simpl.
    rewrite !lookup_insert_ne, lookup_empty by lia.
    by rewrite !bool_decide_eq_false_2 by elem_of_list_lia.
Qed.

(** C5. Both resolvers are total and table driven.  A page number outside
    the override sets gets the default crop rectangle (35, 45, 565, 775) and
    the default boundaries [35, 75, 175, 305, 350, 565]; page 26 gets top
    210, pages 54, 76, 84 get top 75, pages 29-33 get
    [35, 75, 170, 305, 345, 564] and pages 69, 70, 83 get
    [35, 75, 175, 305, 350, 560], the other three sides of the rectangle
    staying at their defaults.  The resolvers agree with the lookups
    [crop_for] and [columns_for] in the override tables. *)
Theorem geometry_overrides_take_precedence (page_number : Z) :
  get_crop_boundaries page_number =
    (if bool_decide (page_number = 26) then mkBoundaries 35 210 565 775
     else if bool_decide (page_number ∈ [54; 76; 84])
          then mkBoundaries 35 75 565 775
          else mkBoundaries 35 45 565 775)
  ∧ get_vertical_lines page_number =
    (if bool_decide (29 ≤ page_number ≤ 33) then [35; 75; 170; 305; 345; 564]
     else if bool_decide (page_number ∈ [69; 70; 83])
          then [35; 75; 175; 305; 350; 560]
          else [35; 75; 175; 305; 350; 565])
  ∧ get_crop_boundaries page_number = crop_for page_number
  ∧ get_vertical_lines page_number = columns_for page_number.
Proof.
  split_and!.
  - apply get_crop_boundaries_cases.
  - apply get_vertical_lines_cases.
  - by rewrite get_crop_boundaries_cases, crop_for_cases.
  - by rewrite get_vertical_lines_cases, columns_for_cases.
Qed.

(** ** Category derivation *)

(** C3. The category follows ordered prefix rules: SP, then ST, then S,
    then F, anything else being unknown. *)
Theorem get_category_ordered_prefixes :
  (∀ rest, get_category ("SP" +:+ rest) = "spin")
  ∧ (∀ rest, get_category ("ST" +:+ rest) = "static")
  ∧ (∀ rest, get_category ("S" +:+ rest) =
             if Py.startswith rest "P" then "spin"
             else if Py.startswith rest "T" then "static"
             else "strength")
  ∧ (∀ rest, get_category ("F" +:+ rest) = "flexibility")
  ∧ (∀ code, get_category code = "unknown"
             ↔ Py.startswith code "S" = false ∧ Py.startswith code "F" = false)
  ∧ get_category "SP3" = "spin"
  ∧ get_category "ST2" = "static"
  ∧ get_category "S5" = "strength"
  ∧ get_category "F4" = "flexibility"
  ∧ get_category "X9" = "unknown".
Proof.
  split_and!; try done.
  intros code. unfold get_category.
  destruct code as [|c [|d rest]]; simpl; [done| |].
  all: destruct (Ascii.eqb_spec c "S") as [->|?]; simpl.
  all: try destruct (Ascii.eqb_spec d "P") as [->|?]; simpl.
  all: try destruct (Ascii.eqb_spec d "T") as [->|?]; simpl.
  all: try destruct (Ascii.eqb_spec c "F") as [->|?]; simpl.
  all: split; (done || (intros [??]; done)).
Qed.
(** ** Alias reconciliation *)

Section Reconcile.

Implicit Types (data : gmap string string) (table : list (string * string)).

Lemma well_formed_cons bad good table :
  well_formed ((bad, good) :: table) →
  bad ≠ good ∧ (bad ∉ table.*1) ∧ (bad ∉ table.*2) ∧ (good ∉ table.*1)
  ∧ well_formed table.
Proof.
  intros [Hnd Hdisj]. simpl in *. apply NoDup_cons in Hnd as [Hb Hnd].
  split_and!; [| done | | |].
  - intros ->. apply (Hdisj good); apply list_elem_of_here.
  - intros ?.
    apply (Hdisj bad); [apply list_elem_of_here|by apply list_elem_of_further].
  - intros ?.
    apply (Hdisj good); [by apply list_elem_of_further|apply list_elem_of_here].
  - split; [done|].
    intros k ? ?. apply (Hdisj k); by apply list_elem_of_further.
Qed.

Lemma reconcile_one_lookup data bad good key :
  bad ≠ good →
  reconcile_one data (bad, good) !! key =
    if bool_decide (key = bad) then None
    else if bool_decide (key = good) then
           match data !! good with
           | Some w => Some w
           | None => data !! bad
           end
         else data !! key.
Proof.
  intros Hne. unfold reconcile_one, setdefault.
  destruct (data !! bad) as [v|] eqn:Hbad.
  - repeat case_bool_decide; subst.
    + by rewrite lookup_delete_eq.
    + rewrite lookup_delete_ne by done.
      destruct (data !! good) eqn:Hg; [done|]. by rewrite lookup_insert_eq.
    + rewrite lookup_delete_ne by done.
      destruct (data !! good) eqn:Hg; [done|]. by rewrite lookup_insert_ne.
  - repeat case_bool_decide; subst; try done.
    by destruct (data !! good).
Qed.

Lemma first_alias_not_canonical table data key :
  key ∉ table.*2 → first_alias table data key = None.
Proof.
  induction table as [|[bad good] table IH]; simpl; [done|].
  intros [Hne Hk]%not_elem_of_cons.
  rewrite bool_decide_eq_false_2 by done. by apply IH.
Qed.

Lemma first_alias_ext table data data' key :
  (∀ k, k ∈ table.*1 → data !! k = data' !! k) →
  first_alias table data key = first_alias table data' key.
Proof.
  induction table as [|[bad good] table IH]; simpl; [done|].
  intros Hext. rewrite <- (Hext bad) by apply list_elem_of_here.
  by rewrite IH by (intros; by apply Hext, list_elem_of_further).
Qed.

(** What the reconciliation loop leaves under every key. *)
Lemma reconcile_lookup table data key :
  well_formed table →
  reconcile table data !! key =
    if bool_decide (key ∈ table.*1) then None
    else match data !! key with
         | Some v => Some v
         | None => first_alias table data key
         end.
Proof.
  revert data.
  induction table as [|[bad good] table IH]; intros data Hwf.
  - rewrite bool_decide_eq_false_2 by (simpl; apply not_elem_of_nil).
    simpl. by destruct (data !! key).
  - apply well_formed_cons in Hwf as (Hne & Hb1 & Hb2 & Hg1 & Hwf).
    change (reconcile ((bad, good) :: table) data)
      with (reconcile table (reconcile_one data (bad, good))).
    rewrite IH by done.
    rewrite (first_alias_ext table (reconcile_one data (bad, good)) data).
    2:{ intros k Hk. rewrite reconcile_one_lookup by done.
        rewrite !bool_decide_eq_false_2; [done|by intros ->..]. }
    rewrite reconcile_one_lookup by done.
    rewrite fmap_cons. cbn [first_alias fst].
    pose proof (first_alias_not_canonical table data bad Hb2) as Hfa.
    destruct (data !! good) as [w|] eqn:Hgood;
      destruct (data !! bad) as [v|] eqn:Hbad.
    all: repeat case_bool_decide; simplify_eq; try done.
    all: try rewrite elem_of_cons in *.
    all: try (exfalso; tauto).
    all: try by rewrite ?Hgood, ?Hbad.
Qed.

End Reconcile.

Lemma bad_columns_well_formed : well_formed bad_columns.
Proof.
  split; [compute_done|].
  apply Forall_forall. compute_done.
Qed.

Lemma first_alias_Some table data key v :
  first_alias table data key = Some v →
  ∃ bad, (bad, key) ∈ table ∧ data !! bad = Some v.
Proof.
  induction table as [|[bad good] table IH]; simpl; [done|].
  case_bool_decide as Hg; [subst good; destruct (data !! bad) eqn:Hbad|].
  - intros [= ->]. exists bad. split; [apply list_elem_of_here|done].
  - intros (b & ? & ?)%IH. exists b. split; [by apply list_elem_of_further|done].
  - intros (b & ? & ?)%IH. exists b. split; [by apply list_elem_of_further|done].
Qed.

Lemma first_alias_is_Some table data bad good v :
  (bad, good) ∈ table → data !! bad = Some v →
  is_Some (first_alias table data good).
Proof.
  induction table as [|[b g] table IH]; simpl; [by intros ?%elem_of_nil|].
  intros [[= <- <-]|Hin]%elem_of_cons Hbad.
  - rewrite bool_decide_eq_true_2 by done. rewrite Hbad. by eexists.
  - case_bool_decide; [destruct (data !! b); [by eexists|]|]; by apply IH.
Qed.

(** C1. Alias reconciliation is fill-if-absent.  After the raw key/value
    parsing, every alias key of the table is gone from the mapping; a
    canonical key keeps the value a correctly keyed bullet gave it, and when
    it had none it receives the value of the first alias, in table order,
    that the raw mapping holds for it; every other key is left as parsed.
    So parse("- Grip Is: open\n- Grip: closed") = {"grip": "closed"} and
    parse("- Grip Is: open") = {"grip": "open"}. *)
Theorem parse_criteria_alias_fill_if_absent :
  (∀ text key,
     parse_criteria text !! key =
       if bool_decide (key ∈ bad_columns.*1) then None
       else match raw_criteria text !! key with
            | Some v => Some v
            | None => first_alias bad_columns (raw_criteria text) key
            end)
  ∧ (∀ text bad good v,
       (bad, good) ∈ bad_columns → raw_criteria text !! bad = Some v →
       parse_criteria text !! bad = None
       ∧ (∀ w, raw_criteria text !! good = Some w →
               parse_criteria text !! good = Some w)
       ∧ (raw_criteria text !! good = None →
          ∃ bad' v', (bad', good) ∈ bad_columns
                     ∧ raw_criteria text !! bad' = Some v'
                     ∧ parse_criteria text !! good = Some v'))
  ∧ (∀ text key,
       key ∉ bad_columns.*1 → key ∉ bad_columns.*2 →
       parse_criteria text !! key = raw_criteria text !! key)
  ∧ parse_criteria ("- Grip Is: open" +:+ String Py.LF "- Grip: closed")
    = {[ "grip" := "closed" ]}
  ∧ parse_criteria "- Grip Is: open" = {[ "grip" := "open" ]}.
Proof.
  assert (Hchar : ∀ text key,
     parse_criteria text !! key =
       if bool_decide (key ∈ bad_columns.*1) then None
       else match raw_criteria text !! key with
            | Some v => Some v
            | None => first_alias bad_columns (raw_criteria text) key
            end).
  { intros. apply reconcile_lookup, bad_columns_well_formed. }
  split_and!; [done| | |vm_refl..].
  - intros text bad good v Hin Hbad.
    assert (Hb : bad ∈ bad_columns.*1).
    { apply list_elem_of_fmap. by exists (bad, good). }
    assert (Hg : good ∉ bad_columns.*1).
    { intros Hg. apply (proj2 bad_columns_well_formed good Hg).
      apply list_elem_of_fmap. by exists (bad, good). }
    rewrite !Hchar.
    rewrite (bool_decide_eq_true_2 _ Hb), (bool_decide_eq_false_2 _ Hg).
    split_and!; [done|by intros w ->|].
    intros ->.
    destruct (first_alias_is_Some _ _ _ _ _ Hin Hbad) as [v' Hv'].
    apply first_alias_Some in Hv' as Hex. destruct Hex as (bad' & ? & ?).
    by exists bad', v'.
  - intros text key Hk1 Hk2. rewrite Hchar.
    rewrite (bool_decide_eq_false_2 _ Hk1).
    rewrite first_alias_not_canonical by done.
    by destruct (raw_criteria text !! key).
Qed.

(** C10. No alias key of the table survives in the mapping
    [parse_criteria] returns, whatever the text. *)
Theorem parse_criteria_drops_alias_keys (text : string) :
  Forall (fun key => parse_criteria text !! key = None)
    [ "grip/arm_position"; "arm/position_grip"; "arm_position_/_grip";
      "angle_of_the_split"; "-_angle_of_split"; "-_body_position";
      "grip_is" ].
Proof.
  change (Forall (fun key => parse_criteria text !! key = None)
                 bad_columns.*1).
  apply Forall_forall. intros key Hkey. unfold parse_criteria.
  rewrite reconcile_lookup by apply bad_columns_well_formed.
  by rewrite bool_decide_eq_true_2.
Qed.

(** ** Raw key/value parsing *)

Lemma append_nil (t : string) : "" +:+ t = t.
Proof. done. Qed.

Lemma append_cons (c : ascii) (s t : string) :
  String c s +:+ t = String c (s +:+ t).
Proof. done. Qed.

Lemma chars_app (s t : string) : Py.chars (s +:+ t) = Py.chars s ++ Py.chars t.
Proof.
  induction s as [|c s IH]; [done|].
  rewrite append_cons. simpl. by rewrite IH.
Qed.

Lemma contains_char (c : ascii) (s : string) :
  Py.contains (String c "") s = true ↔ c ∈ Py.chars s.
Proof.
  induction s as [|d s IH]; simpl.
  - split; [done|by intros ?%elem_of_nil].
  - rewrite andb_true_r, orb_true_iff, IH, elem_of_cons.
    destruct (Ascii.eqb_spec d c) as [->|Hne].
    + split; intros _; by left.
    + split; (intros [?|?]; [by subst|by right]).
Qed.

Lemma split1_first (c : ascii) (pre post : string) :
  c ∉ Py.chars pre →
  Py.split1 c (pre +:+ String c post) = Some (pre, post).
Proof.
  induction pre as [|d pre IH]; intros Hpre.
  - rewrite append_nil. simpl. by rewrite Ascii.eqb_refl.
  - rewrite append_cons. simpl in *.
    apply not_elem_of_cons in Hpre as [Hne Hpre].
    destruct (Ascii.eqb_spec d c) as [->|_]; [done|].
    by rewrite IH.
Qed.

Lemma add_bullet_keyed data (pre post : string) :
  ":"%char ∉ Py.chars pre →
  add_bullet data (pre +:+ ":" +:+ post)
  = <[canonical_key pre := Py.strip post]> data.
Proof.
  intros Hpre. unfold add_bullet.
  change (":" +:+ post) with (String ":" post).
  rewrite split1_first by done.
  destruct (Py.contains ":" (pre +:+ String ":" post)) eqn:Hc; [done|].
  assert (Py.contains ":" (pre +:+ String ":" post) = true) as Hc'.
  { apply contains_char. rewrite chars_app. simpl.
    apply elem_of_app. right. apply list_elem_of_here. }
  congruence.
Qed.

Lemma add_bullet_unkeyed data (bullet : string) :
  ":"%char ∉ Py.chars bullet → add_bullet data bullet = data.
Proof.
  intros Hb. unfold add_bullet.
  destruct (Py.contains ":" bullet) eqn:Hc; [|done].
  by apply contains_char in Hc.
Qed.

(** *** What [strip] removes *)

Lemma lstrip_spec (s : string) :
  ∃ l, s = l +:+ Py.lstrip s ∧ all_space l ∧ no_space_first (Py.lstrip s).
Proof.
  induction s as [|c s (l & Hs & Hl & Hf)]; simpl.
  - exists "". split_and!; [done|constructor|done].
  - destruct (Py.isspace c) eqn:Hc.
    + exists (String c l). split_and!; [by rewrite append_cons, <- Hs| |done].
      by constructor.
    + exists "". split_and!; [done|constructor|]. by intros ? ? [= <- <-].
Qed.

Lemma no_space_last_nil : no_space_last "".
Proof. by intros [|d s'] c; rewrite ?append_nil, ?append_cons. Qed.

Lemma no_space_last_single (c : ascii) :
  Py.isspace c = false → no_space_last (String c "").
Proof.
  intros Hc [|d [|e s']] x; rewrite ?append_nil, ?append_cons; try done.
  by intros [= <-].
Qed.

Lemma no_space_last_cons (c : ascii) (s : string) :
  s ≠ "" → no_space_last s → no_space_last (String c s).
Proof.
  intros Hne Hs [|d s'] x; rewrite ?append_nil, ?append_cons.
  - by intros [= _ ->].
  - intros [= _ ->]. by apply (Hs s' x).
Qed.

Lemma rstrip_spec (s : string) :
  ∃ r, s = Py.rstrip s +:+ r ∧ all_space r ∧ no_space_last (Py.rstrip s).
Proof.
  induction s as [|c s (r & Hs & Hr & Hl)]; simpl.
  - exists "". split_and!; [done|constructor|apply no_space_last_nil].
  - destruct (Py.rstrip s) as [|d t] eqn:Ht.
    + rewrite append_nil in Hs. subst s.
      destruct (Py.isspace c) eqn:Hc.
      * exists (String c r).
        split_and!; [done|by constructor|apply no_space_last_nil].
      * exists r. split_and!; [done..|by apply no_space_last_single].
    + exists r. split_and!; [by rewrite append_cons, <- Hs|done|].
      by apply no_space_last_cons.
Qed.

Lemma rstrip_no_space_first (s : string) :
  no_space_first s → no_space_first (Py.rstrip s).
Proof.
  intros Hs c t Ht. destruct s as [|d s]; [done|]. simpl in Ht.
  destruct (Py.rstrip s); [destruct (Py.isspace d) eqn:Hd; [done|]|];
    injection Ht as <- <-; by eapply Hs.
Qed.

Lemma strip_spec (s : string) :
  ∃ l r, s = l +:+ Py.strip s +:+ r ∧ all_space l ∧ all_space r
         ∧ no_space_first (Py.strip s) ∧ no_space_last (Py.strip s).
Proof.
  unfold Py.strip.
  destruct (lstrip_spec s) as (l & Hs & Hl & Hf).
  destruct (rstrip_spec (Py.lstrip s)) as (r & Ht & Hr & Hlast).
  exists l, r. split_and!; [by rewrite <- Ht|done|done| |done].
  by apply rstrip_no_space_first.
Qed.

Lemma first_occurrence (c : ascii) (s : string) :
  c ∈ Py.chars s → ∃ pre post, s = pre +:+ String c post ∧ c ∉ Py.chars pre.
Proof.
  induction s as [|d s IH]; simpl; [by intros ?%elem_of_nil|].
  destruct (decide (d = c)) as [->|Hne].
  - intros _. exists "", s. split; [done|apply not_elem_of_nil].
  - intros [?|Hin]%elem_of_cons; [by subst|].
    destruct (IH Hin) as (pre & post & -> & Hpre).
    exists (String d pre), post. split; [done|].
    simpl. apply not_elem_of_cons. by split; [intros ->|].
Qed.

(** *** The canonical form of a key *)

Lemma lower_char_idemp (c : ascii) :
  Py.lower_char (Py.lower_char c) = Py.lower_char c.
Proof. by destruct c as [[] [] [] [] [] [] [] []]. Qed.

Lemma chars_replace (old new : ascii) (s : string) :
  Py.chars (Py.replace old new s)
  = (fun c => if Ascii.eqb c old then new else c) <$> Py.chars s.
Proof. induction s as [|c s IH]; simpl; [done|]. by rewrite IH. Qed.

Lemma canonical_key_no_space (key : string) :
  " "%char ∉ Py.chars (canonical_key key).
Proof.
  unfold canonical_key. rewrite chars_replace.
  intros (c & Hc & _)%list_elem_of_fmap.
  destruct (Ascii.eqb_spec c " ") as [Heq|Hne]; [done|by subst].
Qed.

Lemma canonical_key_lower (key : string) :
  Py.lower (canonical_key key) = canonical_key key.
Proof.
  unfold canonical_key. induction (Py.strip key) as [|c s IH]; simpl; [done|].
  rewrite IH. f_equal.
  destruct (Ascii.eqb _ " "); [done|apply lower_char_idemp].
Qed.

(** C4. In the raw parsing phase a bullet that holds a colon is split at
    its first colon; the text before it, trimmed, lower-cased and with its
    spaces turned into underscores, is the key, and the trimmed text after it
    is the value; a bullet without a colon leaves the mapping as it is.
    [strip] removes exactly the white space at both ends, and a key holds no
    space and no capital.  So parse("- Hold: 5 seconds\n- Arm Position:
    upper") = {"hold": "5 seconds", "arm_position": "upper"}. *)
Theorem parse_criteria_raw_bullets :
  (∀ text,
     parse_criteria text
     = reconcile bad_columns (foldl add_bullet ∅ (bullets_of text)))
  ∧ (∀ data pre post,
       ":"%char ∉ Py.chars pre →
       add_bullet data (pre +:+ ":" +:+ post)
       = <[Py.replace " " "_" (Py.lower (Py.strip pre)) := Py.strip post]>
           data)
  ∧ (∀ bullet,
       ":"%char ∈ Py.chars bullet →
       ∃ pre post, bullet = pre +:+ ":" +:+ post ∧ ":"%char ∉ Py.chars pre)
  ∧ (∀ data bullet, ":"%char ∉ Py.chars bullet → add_bullet data bullet = data)
  ∧ (∀ s, ∃ l r, s = l +:+ Py.strip s +:+ r ∧ all_space l ∧ all_space r
                 ∧ no_space_first (Py.strip s) ∧ no_space_last (Py.strip s))
  ∧ (∀ key, (" "%char ∉ Py.chars (canonical_key key))
            ∧ Py.lower (canonical_key key) = canonical_key key)
  ∧ parse_criteria ("- Hold: 5 seconds" +:+ String Py.LF "- Arm Position: upper")
    = {[ "hold" := "5 seconds"; "arm_position" := "upper" ]}.
Proof.
  split_and!.
  - done.
  - apply add_bullet_keyed.
  - apply first_occurrence.
  - apply add_bullet_unkeyed.
  - apply strip_spec.
  - intros key. split; [apply canonical_key_no_space|apply canonical_key_lower].
  - vm_refl.
Qed.

(** ** [split] is a split *)

Lemma append_nil_r (s : string) : s +:+ "" = s.
Proof. induction s as [|c s IH]; [done|]. by rewrite append_cons, IH. Qed.

Lemma append_assoc (s t u : string) : (s +:+ t) +:+ u = s +:+ (t +:+ u).
Proof. induction s as [|c s IH]; [done|]. by rewrite !append_cons, IH. Qed.

Lemma rev_string_app (acc : list ascii) (out : string) :
  Py.rev_string acc out = Py.rev_string acc "" +:+ out.
Proof.
  revert out. induction acc as [|c acc IH]; intros out; [done|].
  simpl. rewrite (IH (String c out)), (IH (String c "")).
  by rewrite append_assoc.
Qed.

Lemma startswith_app (s sep : string) :
  Py.startswith s sep = true → ∃ s', s = sep +:+ s'.
Proof.
  revert s. induction sep as [|a sep IH]; intros s; simpl.
  - intros _. by exists s.
  - destruct s as [|b s]; [done|].
    destruct (Ascii.eqb_spec b a) as [->|]; [|done]. simpl.
    intros (s' & ->)%IH. by exists s'.
Qed.

Lemma split_go_skip (sep t : string) (cur : list ascii) (s : string) :
  Py.split_go sep (String.length t) cur (t +:+ s) = Py.split_go sep 0 cur s.
Proof. induction t as [|c t IH]; [done|]. by rewrite append_cons. Qed.

Lemma split_go_cons (sep : string) (skip : nat) (cur : list ascii)
    (s : string) :
  ∃ x l, Py.split_go sep skip cur s = x :: l.
Proof.
  revert skip cur. induction s as [|c s IH]; intros skip cur; simpl.
  - by eexists _, _.
  - destruct skip as [|k]; [|apply IH].
    destruct (Py.startswith _ _); [by eexists _, _|apply IH].
Qed.

Lemma str_join_cons (sep x : string) (l : list string) :
  l ≠ [] → str_join sep (x :: l) = x +:+ sep +:+ str_join sep l.
Proof. by destruct l. Qed.

Lemma length_app_string (s t : string) :
  String.length (s +:+ t) = (String.length s + String.length t)%nat.
Proof. induction s as [|c s IH]; [done|]. rewrite append_cons. simpl. lia. Qed.

Lemma split_go_join (sep : string) (n : nat) (s : string) (cur : list ascii) :
  sep ≠ "" → (String.length s ≤ n)%nat →
  str_join sep (Py.split_go sep 0 cur s) = Py.rev_string cur "" +:+ s.
Proof.
  intros Hsep. revert s cur.
  induction n as [|n IH]; intros s cur Hlen.
  - destruct s; [|simpl in Hlen; lia]. simpl. by rewrite append_nil_r.
  - destruct s as [|c s]; [simpl; by rewrite append_nil_r|].
    simpl in Hlen. cbn [Py.split_go].
    destruct (Py.startswith (String c s) sep) eqn:Hsw.
    + apply startswith_app in Hsw as (s' & Hs').
      destruct sep as [|a sep']; [done|].
      rewrite append_cons in Hs'. injection Hs' as <- ->.
      cbn [String.length Nat.pred]. rewrite split_go_skip.
      destruct (split_go_cons (String c sep') 0 [] s') as (x & l & Hxl).
      rewrite str_join_cons by by rewrite Hxl.
      rewrite IH by (rewrite length_app_string in Hlen; lia).
      by rewrite append_nil, append_cons.
    + rewrite IH by lia. simpl.
      rewrite rev_string_app, append_assoc. by rewrite append_cons, append_nil.
Qed.

Lemma split_join (sep s : string) :
  sep ≠ "" → str_join sep (Py.split sep s) = s.
Proof.
  intros Hsep. unfold Py.split.
  by rewrite (split_go_join sep (String.length s)) by done.
Qed.

(** ** The first fragment *)

Lemma lstrip_chars_first (set s : string) (c : ascii) (s' : string) :
  Py.lstrip_chars set s = String c s' → Py.char_in c set = false.
Proof.
  induction s as [|d s IH]; simpl; [done|].
  destruct (Py.char_in d set) eqn:Hd; [done|]. by intros [= -> _].
Qed.

Lemma bullets_of_first (text : string) :
  ∃ first rest,
    bullets_of text = first :: rest
    ∧ Py.startswith first "-" = false ∧ Py.startswith first " " = false.
Proof.
  unfold bullets_of, Py.split.
  destruct (split_go_cons bullet_delimiter 0 [] (Py.strip text))
    as (x & l & ->).
  eexists _, _. split; [done|].
  destruct (Py.lstrip_chars "- " x) as [|c s'] eqn:Hx; [done|].
  apply lstrip_chars_first in Hx. simpl.
  unfold Py.char_in in Hx. simpl in Hx.
  apply orb_false_elim in Hx as [H1 [H2 _]%orb_false_elim].
  by rewrite H1, H2.
Qed.

(** C9. The marker is not stripped once: [lstrip("- ")] removes every
    leading dash and space of the first fragment, which therefore never
    begins with either.  The bullet "- - Grip: open" gives the key "grip"
    when it comes first, and the key "-_grip" when it comes second, where
    the delimiter takes exactly one marker away. *)
Theorem first_fragment_loses_all_dashes_and_spaces :
  (∀ text, ∃ first rest,
     bullets_of text = first :: rest
     ∧ Py.startswith first "-" = false ∧ Py.startswith first " " = false)
  ∧ bullets_of "- - Grip: open" = ["Grip: open"]
  ∧ parse_criteria "- - Grip: open" = {[ "grip" := "open" ]}
  ∧ bullets_of "--Grip: open" = ["Grip: open"]
  ∧ bullets_of ("- Hold: 2 seconds" +:+ String Py.LF "- - Grip: open")
    = ["Hold: 2 seconds"; "- Grip: open"]
  ∧ parse_criteria ("- Hold: 2 seconds" +:+ String Py.LF "- - Grip: open")
    = {[ "hold" := "2 seconds"; "-_grip" := "open" ]}.
Proof. split_and!; [apply bullets_of_first|vm_refl..]. Qed.

(** ** Lists in the exception monad *)

Section MapM.
Context {A B : Type} (f : A -> result B).

Lemma mapM_cons (x : A) (l : list A) :
  mapM f (x :: l) = y ← f x; k ← mapM f l; mret (y :: k).
Proof. done. Qed.

Lemma mapM_Ok (l : list A) (k : list B) :
  mapM f l = Ok k ↔ Forall2 (fun x y => f x = Ok y) l k.
Proof.
  revert k. induction l as [|x l IH]; intros k.
  - split; [by intros [= <-]; constructor|by inversion 1].
  - rewrite mapM_cons. split.
    + destruct (f x) as [y|e] eqn:Hx; [|done].
      destruct (mapM f l) as [k'|e] eqn:Hl; [|done].
      intros [= <-]. constructor; [done|]. by apply IH.
    + inversion 1 as [|? y ? k' Hx Hl]; subst.
      rewrite Hx. apply IH in Hl. by rewrite Hl.
Qed.

Lemma mapM_Raise (l : list A) (e : exception) :
  mapM f l = Raise e → ∃ x, x ∈ l ∧ f x = Raise e.
Proof.
  induction l as [|x l IH]; [done|]. rewrite mapM_cons.
  destruct (f x) as [y|e'] eqn:Hx.
  - destruct (mapM f l) as [k'|e'] eqn:Hl; [done|].
    intros [= ->]. destruct IH as (x' & ? & ?); [done|].
    exists x'. split; [by apply list_elem_of_further|done].
  - intros [= ->]. exists x. split; [apply list_elem_of_here|done].
Qed.

End MapM.

Lemma Forall2_compose {A B C} (R : A -> B -> Prop) (S : B -> C -> Prop)
    (l1 : list A) (l2 : list B) (l3 : list C) :
  Forall2 R l1 l2 → Forall2 S l2 l3 →
  Forall2 (fun x z => ∃ y, R x y ∧ S y z) l1 l3.
Proof.
  intros H12. revert l3.
  induction H12 as [|x y l1 l2 Hxy _ IH]; intros l3; inversion 1; subst.
  - constructor.
  - constructor; [by exists y|by apply IH].
Qed.

Lemma Forall2_map_graph {A B} (g : A -> B) (l : list A) :
  Forall2 (fun x y => y = g x) l (map g l).
Proof. induction l; by constructor. Qed.

Lemma Forall2_concat_inv {A B} (R : A -> B -> Prop) (ls : list (list A))
    (k : list B) :
  Forall2 R (concat ls) k →
  ∃ ks, k = concat ks ∧ Forall2 (Forall2 R) ls ks.
Proof.
  revert k. induction ls as [|l ls IH]; intros k; simpl.
  - inversion 1. exists []. by split; [|constructor].
  - intros (k1 & k2 & H1 & H2 & ->)%Forall2_app_inv_l.
    destruct (IH _ H2) as (ks & -> & Hks).
    exists (k1 :: ks). by split; [|constructor].
Qed.

(** ** From the table of a page to its records *)

#[local] Arguments parse_criteria : simpl never.
#[local] Arguments get_category : simpl never.
#[local] Arguments to_float : simpl never.

Lemma width_ge (body : Table) (cells : list (option string)) :
  cells ∈ body → (length cells ≤ width body)%nat.
Proof.
  induction body as [|r body IH]; simpl; [by intros ?%elem_of_nil|].
  intros [->|Hin]%elem_of_cons; [lia|]. specialize (IH Hin). lia.
Qed.

Lemma DataFrame_of_Ok (body : Table) (header : list (option string))
    (rows : Table) :
  DataFrame_of body header = Ok rows →
  rows = pad (length header) <$> body
  ∧ Forall (fun cells => (length cells ≤ length header)%nat) body.
Proof.
  unfold DataFrame_of. destruct body as [|r body]; [by intros [= <-]|].
  destruct (Nat.eqb_spec (width (r :: body)) (length header)) as [Hw|]; [|done].
  intros [= <-]. split; [done|].
  apply Forall_forall. intros cells Hin. rewrite <- Hw. by apply width_ge.
Qed.

Lemma row_steps_build (n : Z) (cells : list (option string)) (r1 r2 r3 : Row) :
  (length cells ≤ 5)%nat →
  assign_apply_row "criteria" "criteria" apply_parse_criteria
    (zip COLUMNS (cell_value <$> pad 5 cells)) = Ok r1 →
  assign_apply_row "image" "code" image_path
    (set_cell "page_number" (VInt n) r1) = Ok r2 →
  assign_apply_row "category" "code" apply_get_category r2 = Ok r3 →
  build n cells
  = Some (drop_row ["please_refer_to_the_glossary"; "element"] r3).
Proof.
  intros Hlen H1 H2 H3.
  destruct cells as [|c0 [|c1 [|c2 [|c3 [|c4 [|c5 cells]]]]]];
    simpl in Hlen; try lia.
  all: unfold assign_apply_row in *; simpl in *.
  all: repeat match goal with
              | c : option string |- _ => destruct c; simpl in *
              end.
  all: cbv [mret result_ret mbind result_bind] in *; try done.
  all: injection H1 as <-; simpl in H2; injection H2 as <-; simpl in H3.
  all: try done.
  all: by injection H3 as <-.
Qed.

Lemma Forall2_with_Forall_l {A B} (P : A -> Prop) (R : A -> B -> Prop)
    (l : list A) (k : list B) :
  Forall P l → Forall2 R l k → Forall2 (fun x y => P x ∧ R x y) l k.
Proof.
  intros HP HR. induction HR; inversion HP; subst; constructor; auto.
Qed.

Lemma page_frame_Ok (n : Z) (header : list (option string)) (body : Table)
    (df : DataFrame) :
  page_frame n header body = Ok df →
  Forall2 (fun cells r => build n cells = Some r) body df.
Proof.
  unfold page_frame. intros H.
  destruct (DataFrame_of body header) as [rows|] eqn:Hrows; [|done].
  apply DataFrame_of_Ok in Hrows as [-> Hlen]. simpl in H.
  unfold set_columns in H.
  destruct (Nat.eqb_spec (length COLUMNS) (length header)) as [Hh|]; [|done].
  rewrite <- Hh in *. simpl in H, Hlen.
  unfold assign_apply, assign_scalar, drop_columns in H.
  destruct (mapM _ _) as [l1|] eqn:H1 in H; [|done]. simpl in H.
  destruct (mapM _ _) as [l2|] eqn:H2 in H; [|done]. simpl in H.
  destruct (mapM _ _) as [l3|] eqn:H3 in H; [|done]. simpl in H.
  injection H as <-.
  apply mapM_Ok in H1, H2, H3.
  rewrite !Forall2_fmap_l in H1. rewrite Forall2_fmap_l in H2.
  rewrite Forall2_fmap_r.
  pose proof (Forall2_compose _ _ _ _ _ (Forall2_compose _ _ _ _ _ H1 H2) H3)
    as Hall.
  eapply Forall2_impl; [exact (Forall2_with_Forall_l _ _ _ _ Hlen Hall)|].
  intros cells r3 (Hc & r2 & (r1 & Hr1 & Hr2) & Hr3).
  by eapply row_steps_build.
Qed.

Lemma astype_CASTS_Ok (df cat : DataFrame) :
  astype CASTS df = Ok cat → Forall2 (fun r r' => coerce r = Ok r') df cat.
Proof.
  unfold astype, CASTS, assign_apply. simpl.
  destruct (mapM _ df) as [mid|] eqn:H1; simpl; [|done].
  intros H2. apply mapM_Ok in H1, H2.
  eapply Forall2_impl; [exact (Forall2_compose _ _ _ _ _ H1 H2)|].
  intros r r' (m & Hm & Hr'). unfold coerce. by rewrite Hm.
Qed.

Lemma build_ElementRecord (n : Z) (cells : list (option string)) (r r' : Row) :
  build n cells = Some r → coerce r = Ok r' → ElementRecord n cells = Some r'.
Proof. intros Hb Hc. unfold ElementRecord. by rewrite Hb, Hc. Qed.

(** What the cast leaves of a built record: the same cells, the technical
    value turned into a float. *)
Lemma ElementRecord_Some (n : Z) (cells : list (option string)) (r : Row) :
  ElementRecord n cells = Some r ↔
  ∃ code name element technicalValue criteria tv,
    cells = [Some code; name; element; technicalValue; Some criteria]
    ∧ to_float (cell_value technicalValue) = Ok tv
    ∧ r = [ ("code", VStr code);
            ("name", cell_value name);
            ("technicalValue", tv);
            ("criteria", VDict (parse_criteria criteria));
            ("page_number", VInt n);
            ("image", VStr ("/images/" +:+ code +:+ ".jpg"));
            ("category", VStr (get_category code)) ].
Proof.
  unfold ElementRecord, build, coerce, assign_apply_row. split.
  - destruct cells as [|[code|] [|name [|element [|tv [|[crit|] [|??]]]]]];
      try done.
    simpl. destruct (to_float (cell_value tv)) as [f|] eqn:Hf; [|done].
    simpl. intros [= <-]. by exists code, name, element, tv, crit, f.
  - intros (code & name & element & tv & crit & f & -> & Hf & ->).
    simpl. by rewrite Hf.
Qed.

Lemma page_loop_Ok (pages : list (Z * Page)) (dfs dfs' : list DataFrame)
    (l : list log_record) :
  page_loop dfs pages = (l, Ok dfs') →
  ∃ batches, concat dfs' = concat dfs ++ concat batches
             ∧ Forall2 page_batch pages batches.
Proof.
  revert dfs l. induction pages as [|[n page] pages IH]; intros dfs l; simpl.
  - intros [= <- <-]. exists []. by rewrite app_nil_r.
  - destruct (page _ _) as [[|header body]|] eqn:Hpage.
    + destruct (page_loop dfs pages) as [l' r] eqn:Hloop.
      intros [= <- ->]. destruct (IH _ _ Hloop) as (bs & Hc & Hbs).
      exists ([] :: bs). split; [done|].
      constructor; [|done]. unfold page_batch. simpl. by rewrite Hpage.
    + destruct (page_frame n header body) as [df|] eqn:Hdf; [|done].
      destruct (page_loop (dfs ++ [df]) pages) as [l' r] eqn:Hloop.
      intros [= <- ->]. destruct (IH _ _ Hloop) as (bs & Hc & Hbs).
      exists (df :: bs). split.
      * rewrite Hc, concat_app. simpl. by rewrite app_nil_r, <- app_assoc.
      * constructor; [|done]. unfold page_batch. simpl. rewrite Hpage.
        by eapply page_frame_Ok.
    + destruct (page_loop dfs pages) as [l' r] eqn:Hloop.
      intros [= <- ->]. destruct (IH _ _ Hloop) as (bs & Hc & Hbs).
      exists ([] :: bs). split; [done|].
      constructor; [|done]. unfold page_batch. simpl. by rewrite Hpage.
Qed.

Lemma run_Exported (pdf_pages : list Page) (l : list log_record)
    (cat : DataFrame) :
  run pdf_pages = (l, Exported cat) →
  ∃ dfs, page_loop [] (visited pdf_pages) = (l, Ok dfs)
         ∧ pd_concat dfs = Ok (concat dfs)
         ∧ astype CASTS (concat dfs) = Ok cat.
Proof.
  unfold run. destruct (page_loop [] _) as [l' [dfs|e]]; [|done].
  simpl. unfold assemble, pd_concat.
  destruct dfs as [|df dfs]; [done|]. simpl.
  destruct (astype CASTS _) as [cat'|] eqn:Hcat; [|done].
  intros [= <- <-]. by exists (df :: dfs).
Qed.

Lemma page_batch_records (entry : Z * Page) (batch records : list Row) :
  page_batch entry batch →
  Forall2 (fun r r' => coerce r = Ok r') batch records →
  page_records entry.1 entry.2 = Some records.
Proof.
  unfold page_batch, page_records. destruct entry as [n page]. simpl.
  destruct (page _ _) as [[|header body]|].
  - intros ->. by inversion 1.
  - intros Hb Hc. apply mapM_Some.
    eapply Forall2_impl; [exact (Forall2_compose _ _ _ _ _ Hb Hc)|].
    intros cells r' (r & ? & ?). by eapply build_ElementRecord.
  - intros ->. by inversion 1.
Qed.

(** An exporting run exports the records of the visited pages, page after
    page. *)
Lemma run_Exported_records (pdf_pages : list Page) (l : list log_record)
    (cat : DataFrame) :
  run pdf_pages = (l, Exported cat) →
  ∃ batches,
    cat = concat batches
    ∧ Forall2 (fun entry batch => page_records entry.1 entry.2 = Some batch)
        (visited pdf_pages) batches.
Proof.
  intros (dfs & Hloop & _ & Hcat)%run_Exported.
  apply page_loop_Ok in Hloop as (bs & Hc & Hbs). simpl in Hc.
  apply astype_CASTS_Ok in Hcat. rewrite Hc in Hcat.
  apply Forall2_concat_inv in Hcat as (cs & -> & Hcs).
  exists cs. split; [done|].
  eapply Forall2_impl; [exact (Forall2_compose _ _ _ _ _ Hbs Hcs)|].
  intros entry c (b & ? & ?). by eapply page_batch_records.
Qed.

(** ** The page loop *)

Lemma page_loop_cons (dfs : list DataFrame) (n : Z) (page : Page)
    (rest : list (Z * Page)) :
  page_loop dfs ((n, page) :: rest) =
    match page (get_crop_boundaries n) (get_vertical_lines n) with
    | None | Some [] =>
        let '(l, r) := page_loop dfs rest in
        (INFO_parsing n :: WARNING_no_table n :: l, r)
    | Some (header :: body) =>
        match page_frame n header body with
        | Raise e => ([INFO_parsing n], Raise e)
        | Ok df =>
            let '(l, r) := page_loop (dfs ++ [df]) rest in
            (INFO_parsing n :: l, r)
        end
    end.
Proof. done. Qed.

Lemma page_loop_skip (dfs : list DataFrame) (n : Z) (page : Page)
    (rest : list (Z * Page)) :
  not_table (page (get_crop_boundaries n) (get_vertical_lines n)) = true →
  page_loop dfs ((n, page) :: rest)
  = (INFO_parsing n :: WARNING_no_table n :: (page_loop dfs rest).1,
     (page_loop dfs rest).2).
Proof.
  intros Hno. rewrite page_loop_cons.
  destruct (page _ _) as [[|??]|]; try done; by destruct (page_loop dfs rest).
Qed.

Lemma page_loop_skip_within (before rest : list (Z * Page)) (n : Z)
    (page : Page) (dfs : list DataFrame) :
  not_table (page (get_crop_boundaries n) (get_vertical_lines n)) = true →
  (page_loop dfs (before ++ (n, page) :: rest)).2
  = (page_loop dfs (before ++ rest)).2.
Proof.
  intros Hno. revert dfs.
  induction before as [|[m p] before IH]; intros dfs.
  - simpl app. by rewrite page_loop_skip.
  - rewrite <- !app_comm_cons, !page_loop_cons.
    destruct (p _ _) as [[|header body]|].
    + specialize (IH dfs). by do 2 destruct (page_loop dfs _).
    + destruct (page_frame m header body) as [df|]; [|done].
      specialize (IH (dfs ++ [df])). by do 2 destruct (page_loop _ _).
    + specialize (IH dfs). by do 2 destruct (page_loop dfs _).
Qed.

Lemma page_loop_no_tables (dfs : list DataFrame) (start : Z)
    (pages : list Page) :
  Forall (fun page : Page => ∀ crop lines, page crop lines = None) pages →
  (page_loop dfs (enumerate start pages)).2 = Ok dfs.
Proof.
  intros Hall. revert start.
  induction Hall as [|page pages Hpage _ IH]; intros start; [done|].
  simpl enumerate. rewrite page_loop_skip by by rewrite Hpage.
  apply IH.
Qed.

(** ** The visited pages *)

Lemma visited_slice (pdf_pages : list Page) :
  visited pdf_pages = enumerate 26 (take 75 (drop 25 pdf_pages)).
Proof. done. Qed.

Lemma enumerate_fst {A} (start : Z) (l : list A) :
  (enumerate start l).*1 = seqZ start (Z.of_nat (length l)).
Proof.
  revert start. induction l as [|x l IH]; intros start; [done|].
  simpl. rewrite IH. rewrite (seqZ_cons start) by lia.
  do 2 f_equal; lia.
Qed.

Lemma enumerate_snd {A} (start : Z) (l : list A) : (enumerate start l).*2 = l.
Proof.
  revert start. induction l as [|x l IH]; intros start; [done|].
  simpl. by rewrite IH.
Qed.

Lemma visited_page_numbers (pdf_pages : list Page) :
  (visited pdf_pages).*1 = seqZ 26 (Z.of_nat (length (visited pdf_pages)))
  ∧ (length (visited pdf_pages) ≤ 75)%nat
  ∧ (visited pdf_pages).*2 = slice 25 100 pdf_pages.
Proof.
  rewrite visited_slice.
  assert (Hlen : ∀ (l : list Page) s, length (enumerate s l) = length l).
  { induction l; intros; simpl; auto. }
  rewrite Hlen, enumerate_fst, enumerate_snd, length_take.
  split_and!; [done|lia|done].
Qed.

(** ** Page numbers along the catalogue *)

Lemma page_records_page_number (n : Z) (page : Page) (batch : list Row)
    (r : Row) :
  page_records n page = Some batch → r ∈ batch → page_number_of r = Some n.
Proof.
  unfold page_records.
  destruct (page _ _) as [[|header body]|].
  - intros [= <-]. by intros ?%elem_of_nil.
  - intros Hm%mapM_Some (i & Hi)%list_elem_of_lookup.
    destruct (Forall2_lookup_r _ _ _ _ _ Hm Hi) as (cells & _ & Hr).
    apply ElementRecord_Some in Hr
      as (code & name & element & tv & crit & f & _ & _ & ->).
    done.
  - intros [= <-]. by intros ?%elem_of_nil.
Qed.

Lemma StronglySorted_replicate (k : nat) (n : Z) :
  StronglySorted Z.le (replicate k n).
Proof.
  induction k as [|k IH]; simpl; constructor; [done|].
  apply Forall_replicate. lia.
Qed.

Lemma records_page_numbers (start : Z) (pages : list Page)
    (batches : list (list Row)) :
  Forall2 (fun entry batch => page_records entry.1 entry.2 = Some batch)
    (enumerate start pages) batches →
  ∃ pns,
    Forall2 (fun r n => page_number_of r = Some n) (concat batches) pns
    ∧ StronglySorted Z.le pns
    ∧ Forall (fun n => start ≤ n < start + Z.of_nat (length pages)) pns.
Proof.
  revert start batches.
  induction pages as [|page pages IH]; intros start batches; simpl.
  - inversion 1. exists []. split_and!; constructor.
  - inversion 1 as [|? b ? bs Hb Hbs]; subst. simpl in Hb.
    destruct (IH _ _ Hbs) as (pns & Hpns & Hsorted & Hbound).
    exists (replicate (length b) start ++ pns). split_and!.
    + simpl. apply Forall2_app; [|done].
      apply Forall2_replicate_r; [done|].
      apply Forall_forall. intros r Hr.
      by eapply page_records_page_number.
    + apply StronglySorted_app_2; [|apply StronglySorted_replicate|done].
      intros x1 x2 [-> _]%elem_of_replicate Hx2.
      rewrite Forall_forall in Hbound. specialize (Hbound _ Hx2). lia.
    + apply Forall_app. split.
      * apply Forall_replicate. lia.
      * eapply Forall_impl; [done|]. intros; simpl in *; lia.
Qed.

(** ** Completeness: well-formed pages are exported *)

Lemma mapM_fmap {A B C} (f : B -> result C) (g : A -> B) (l : list A) :
  mapM f (map g l) = mapM (f ∘ g) l.
Proof.
  induction l as [|x l IH]; [done|].
  cbn [map]. rewrite !mapM_cons, IH. done.
Qed.

Lemma mapM_pure {A B} (g : A -> B) (l : list A) :
  mapM (fun x => Ok (g x)) l = Ok (map g l).
Proof.
  induction l as [|x l IH]; [done|]. rewrite mapM_cons, IH. done.
Qed.

Lemma mapM_unfuse {A B C} (f : A -> result B) (g : B -> result C)
    (l : list A) (k : list C) :
  mapM (fun x => f x ≫= g) l = Ok k →
  ∃ m, mapM f l = Ok m ∧ mapM g m = Ok k.
Proof.
  revert k. induction l as [|x l IH]; intros k.
  - intros [= <-]. by exists [].
  - rewrite mapM_cons.
    destruct (f x) as [y|] eqn:Hx; [|done]. simpl.
    destruct (g y) as [z|] eqn:Hy; [|done]. simpl.
    destruct (mapM _ l) as [k'|] eqn:Hl; [|done]. simpl.
    intros [= <-]. destruct (IH _ eq_refl) as (m & Hm & Hk').
    exists (y :: m). rewrite !mapM_cons, Hx, Hm, Hy, Hk'. done.
Qed.

Lemma build_length (n : Z) (cells : list (option string)) (r : Row) :
  build n cells = Some r → length cells = 5%nat.
Proof.
  unfold build.
  by destruct cells as [|[?|] [|? [|? [|? [|[?|] [|??]]]]]].
Qed.

Lemma width_same (k : nat) (body : Table) :
  body ≠ [] → Forall (fun cells => length cells = k) body → width body = k.
Proof.
  intros Hne Hall. induction Hall as [|cells body Hc Hall IH]; [done|].
  simpl. destruct body as [|c' body]; [simpl; lia|].
  rewrite IH by done. lia.
Qed.

Lemma pad_same (k : nat) (cells : list (option string)) :
  length cells = k → pad k cells = cells.
Proof.
  intros <-. unfold pad. by rewrite Nat.sub_diag, app_nil_r.
Qed.

Lemma DataFrame_of_complete (body : Table) (header : list (option string)) :
  Forall (fun cells => length cells = length header) body →
  DataFrame_of body header = Ok body.
Proof.
  intros Hall. unfold DataFrame_of. destruct body as [|c body]; [done|].
  rewrite (width_same (length header)) by done.
  rewrite Nat.eqb_refl. f_equal.
  rewrite <- (list_fmap_id (c :: body)) at 2.
  apply Forall_fmap_ext_1. eapply Forall_impl; [done|].
  intros cells Hc. by apply pad_same.
Qed.

Lemma build_row_steps (n : Z) (cells : list (option string)) (r : Row) :
  build n cells = Some r → row_steps n cells = Ok r.
Proof.
  unfold build, row_steps.
  destruct cells as [|[code|] [|name [|el [|tv [|[crit|] [|??]]]]]]; try done.
  by intros [= <-].
Qed.

Lemma page_frame_complete (n : Z) (header : list (option string))
    (body : Table) (df : DataFrame) :
  length header = 5%nat →
  Forall2 (fun cells r => build n cells = Some r) body df →
  page_frame n header body = Ok df.
Proof.
  intros Hh Hb. unfold page_frame.
  rewrite DataFrame_of_complete.
  2:{ rewrite Hh. apply Forall_forall. intros cells (i & Hi)%list_elem_of_lookup.
      destruct (Forall2_lookup_l _ _ _ _ _ Hb Hi) as (r & _ & Hr).
      by eapply build_length. }
  unfold set_columns. rewrite Hh.
  change (Nat.eqb (length COLUMNS) 5) with true.
  cbn [mbind result_bind].
  assert (Hsteps : mapM (row_steps n) body = Ok df).
  { apply mapM_Ok. eapply Forall2_impl; [done|].
    intros cells r. apply build_row_steps. }
  unfold row_steps in Hsteps.
  apply (mapM_unfuse
           (fun cells => assign_apply_row "criteria" "criteria"
                           apply_parse_criteria
                           (zip COLUMNS (map cell_value cells)))) in Hsteps
    as (l1 & H1 & Hsteps).
  apply (mapM_unfuse
           (fun r1 => assign_apply_row "image" "code" image_path
                        (set_cell "page_number" (VInt n) r1))) in Hsteps
    as (l2 & H2 & Hsteps).
  apply (mapM_unfuse
           (assign_apply_row "category" "code" apply_get_category)) in Hsteps
    as (l3 & H3 & Hsteps).
  rewrite mapM_pure in Hsteps. injection Hsteps as <-.
  unfold assign_apply, assign_scalar, drop_columns.
  rewrite mapM_fmap. unfold compose. rewrite H1. cbn [mbind result_bind].
  rewrite mapM_fmap. unfold compose. rewrite H2. cbn [mbind result_bind].
  by rewrite H3.
Qed.

Lemma astype_CASTS_complete (df cat : DataFrame) :
  Forall2 (fun r r' => coerce r = Ok r') df cat → astype CASTS df = Ok cat.
Proof.
  intros Hc%mapM_Ok. unfold coerce in Hc.
  apply (mapM_unfuse
           (assign_apply_row "technicalValue" "technicalValue" to_float))
    in Hc as (mid & H1 & H2).
  unfold astype, CASTS, assign_apply. cbn [foldl fst snd mbind result_bind].
  by rewrite H1.
Qed.

Lemma ElementRecord_build (n : Z) (cells : list (option string)) (r' : Row) :
  ElementRecord n cells = Some r' →
  ∃ r, build n cells = Some r ∧ coerce r = Ok r'.
Proof.
  unfold ElementRecord. destruct (build n cells) as [r|]; [|done].
  destruct (coerce r) as [r''|] eqn:Hr; [|done].
  intros [= <-]. by exists r.
Qed.

Lemma Forall2_concat_same {A B} (R : A -> B -> Prop) (ls : list (list A))
    (ks : list (list B)) :
  Forall2 (Forall2 R) ls ks → Forall2 R (concat ls) (concat ks).
Proof. induction 1; simpl; [constructor|by apply Forall2_app]. Qed.

Lemma records_frame (n : Z) (header : list (option string)) (body : Table)
    (records : list Row) :
  length header = 5%nat →
  mapM (ElementRecord n) body = Some records →
  ∃ batch, page_frame n header body = Ok batch
           ∧ Forall2 (fun r r' => coerce r = Ok r') batch records.
Proof.
  intros Hh Hm%mapM_Some.
  assert (∃ batch, Forall2 (fun cells r => build n cells = Some r) body batch
                   ∧ Forall2 (fun r r' => coerce r = Ok r') batch records)
    as (batch & Hb & Hc).
  { clear Hh. induction Hm as [|cells r' body records Hr _ (b & ? & ?)].
    - exists []. split; constructor.
    - apply ElementRecord_build in Hr as (r & ? & ?).
      exists (r :: b). split; by constructor. }
  exists batch. split; [by apply page_frame_complete|done].
Qed.

Lemma page_loop_complete (pages : list (Z * Page))
    (records : list (list Row)) (dfs : list DataFrame) :
  Forall2 page_exports pages records →
  ∃ l frames,
    page_loop dfs pages = (l, Ok (dfs ++ frames))
    ∧ Forall2 (fun r r' => coerce r = Ok r') (concat frames) (concat records)
    ∧ (Exists (fun entry : Z * Page =>
                 not_table (entry.2 (get_crop_boundaries entry.1)
                                    (get_vertical_lines entry.1)) = false)
         pages → frames ≠ []).
Proof.
  intros Hall. revert dfs.
  induction Hall as [|[n page] recs pages records Hp _ IH]; intros dfs.
  - exists [], []. rewrite app_nil_r.
    split_and!; [done|constructor|by inversion 1].
  - rewrite page_loop_cons. unfold page_exports in Hp. simpl in Hp.
    destruct (page _ _) as [[|header body]|] eqn:Hpage.
    + subst recs. destruct (IH dfs) as (l & frames & -> & Hc & Hex).
      exists (INFO_parsing n :: WARNING_no_table n :: l), frames.
      split_and!; [done..|].
      inversion 1 as [?? Hn|]; subst; [|by apply Hex].
      simpl in Hn. by rewrite Hpage in Hn.
    + destruct Hp as [Hh Hm].
      destruct (records_frame _ _ _ _ Hh Hm) as (batch & -> & Hb).
      destruct (IH (dfs ++ [batch])) as (l & frames & -> & Hc & _).
      exists (INFO_parsing n :: l), (batch :: frames).
      split_and!; [by rewrite <- app_assoc| |done].
      simpl. by apply Forall2_app.
    + subst recs. destruct (IH dfs) as (l & frames & -> & Hc & Hex).
      exists (INFO_parsing n :: WARNING_no_table n :: l), frames.
      split_and!; [done..|].
      inversion 1 as [?? Hn|]; subst; [|by apply Hex].
      simpl in Hn. by rewrite Hpage in Hn.
Qed.

(** A document whose visited pages can all be turned into records, one of
    them at least holding a table, is exported: the catalogue is the
    concatenation of the records of its pages. *)
Lemma run_exports (pdf_pages : list Page) (records : list (list Row)) :
  Forall2 page_exports (visited pdf_pages) records →
  Exists (fun entry : Z * Page =>
            not_table (entry.2 (get_crop_boundaries entry.1)
                               (get_vertical_lines entry.1)) = false)
    (visited pdf_pages) →
  ∃ l, run pdf_pages = (l, Exported (concat records)).
Proof.
  intros Hall Hex.
  destruct (page_loop_complete _ _ [] Hall) as (l & frames & Hl & Hc & Hne).
  exists l. unfold run. rewrite Hl. cbn [app mbind result_bind].
  unfold assemble, pd_concat. specialize (Hne Hex).
  destruct frames as [|df frames]; [done|]. cbn [mbind result_bind].
  by rewrite (astype_CASTS_complete _ _ Hc).
Qed.

(** ** The scenario of the specification *)

(** C2. A document whose page 26 gives the Ballerina table, and whose
    later pages give no table, exports exactly one record: code F4, name
    Ballerina, technical value the float nearest to 0.1, page number 26,
    image /images/F4.jpg, category flexibility, criteria hold and
    arm_position; the record has no element cell. *)
Theorem ballerina_page_gives_one_record (front rest : list Page)
    (page : Page) :
  length front = 25%nat →
  page (get_crop_boundaries 26) (get_vertical_lines 26)
    = Some ballerina_table →
  Forall (fun p : Page => ∀ crop lines, p crop lines = None) rest →
  (run (front ++ page :: rest)).2 = Exported [ballerina_record]
  ∧ page_records 26 page = Some [ballerina_record]
  ∧ get_cell "element" ballerina_record = None
  ∧ ballerina_record.*1
    = ["code"; "name"; "technicalValue"; "criteria"; "page_number"; "image";
       "category"]
  ∧ PyFloat.float "0.1" = Some float_0_1
  ∧ Z.abs (10 * 7205759403792794 - 2 ^ 56) ≤ 5.
Proof.
  intros Hfront Hpage Hrest.
  split_and!; [| |done|done|vm_refl|by vm_compute].
  - unfold run. rewrite visited_slice.
    rewrite drop_app_length' by done.
    change (take 75 (page :: rest)) with (page :: take 74 rest).
    change (enumerate 26 (page :: take 74 rest))
      with ((26, page) :: enumerate 27 (take 74 rest)).
    rewrite page_loop_cons, Hpage.
    cbv beta iota delta [ballerina_table].
    assert (Hframe : ∃ df, page_frame 26 ballerina_header [ballerina_row]
                           = Ok [df]
                           ∧ assemble [[df]] = Ok [ballerina_record])
      by (exists (<[2%nat := ("technicalValue", VStr "0.1")]> ballerina_record);
          split; vm_refl).
    destruct Hframe as (df & -> & Hdf).
    pose proof (page_loop_no_tables ([] ++ [[df]]) 27 (take 74 rest)
                  (Forall_take _ _ _ Hrest)) as Hloop.
    destruct (page_loop _ _) as [l r]. simpl in Hloop. subst r.
    simpl. by rewrite Hdf.
  - unfold page_records. rewrite Hpage. vm_refl.
Qed.

Lemma ballerina_page_gives_one_record_witness :
  (run (replicate 25 no_table_page
        ++ (fun _ _ => Some ballerina_table) :: [no_table_page])).2
  = Exported [ballerina_record].
Proof.
  refine (proj1 (ballerina_page_gives_one_record
                   (replicate 25 no_table_page) [no_table_page]
                   (fun _ _ => Some ballerina_table) _ _ _)).
  - reflexivity.
  - reflexivity.
  - repeat constructor.
Defined.

(** ** Pages without a table *)

(** C7. A page on which no table is found adds no frame, so no record, to
    the catalogue; the loop logs a warning for it and goes on with the next
    page: what the run ends with is what the other pages give. *)
Theorem no_table_page_is_skipped (dfs : list DataFrame) (page_number : Z)
    (page : Page) (before rest : list (Z * Page)) :
  not_table (page (get_crop_boundaries page_number)
                  (get_vertical_lines page_number)) = true →
  page_loop dfs ((page_number, page) :: rest)
  = (INFO_parsing page_number :: WARNING_no_table page_number
       :: (page_loop dfs rest).1,
     (page_loop dfs rest).2)
  ∧ (page_loop dfs (before ++ (page_number, page) :: rest)).2
    = (page_loop dfs (before ++ rest)).2
  ∧ page_records page_number page = Some [].
Proof.
  intros Hno. split_and!.
  - by apply page_loop_skip.
  - by apply page_loop_skip_within.
  - unfold page_records. by destruct (page _ _) as [[|??]|].
Qed.

Lemma no_table_page_is_skipped_witness :
  page_loop [] [(26, no_table_page);
                (27, fun _ _ => Some ballerina_table)]
  = (INFO_parsing 26 :: WARNING_no_table 26
       :: (page_loop [] [(27, fun _ _ => Some ballerina_table)]).1,
     (page_loop [] [(27, fun _ _ => Some ballerina_table)]).2).
Proof.
  refine (proj1 (no_table_page_is_skipped [] 26 no_table_page []
                   [(27, fun _ _ => Some ballerina_table)] _)).
  reflexivity.
Defined.

(** ** Order of the catalogue *)

(** C8. The exported catalogue is the concatenation of the record batches
    of the visited pages; the visited pages are those numbered 26, 27, ...,
    at most up to 100, in that order, and the batch of a page holds the
    records of its rows in the order of the rows.  The page numbers of the
    exported records therefore never decrease. *)
Theorem catalogue_in_page_then_row_order (pdf_pages : list Page)
    (l : list log_record) (cat : DataFrame) :
  run pdf_pages = (l, Exported cat) →
  ∃ (batches : list (list Row)) (pns : list Z),
    cat = concat batches
    ∧ Forall2 (fun entry batch => page_records entry.1 entry.2 = Some batch)
        (visited pdf_pages) batches
    ∧ (visited pdf_pages).*1
      = seqZ 26 (Z.of_nat (length (visited pdf_pages)))
    ∧ (visited pdf_pages).*2 = slice 25 100 pdf_pages
    ∧ (length (visited pdf_pages) ≤ 75)%nat
    ∧ Forall2 (fun r n => page_number_of r = Some n) cat pns
    ∧ StronglySorted Z.le pns
    ∧ Forall (fun n => 26 ≤ n ≤ 100) pns.
Proof.
  intros (batches & -> & Hb)%run_Exported_records.
  destruct (visited_page_numbers pdf_pages) as (Hfst & Hlen & Hsnd).
  pose proof Hb as Hb'. rewrite visited_slice in Hb'.
  apply records_page_numbers in Hb' as (pns & Hpns & Hsorted & Hbound).
  exists batches, pns. split_and!; try done.
  eapply Forall_impl; [exact Hbound|]. intros n. simpl.
  rewrite length_take. lia.
Qed.

Lemma catalogue_in_page_then_row_order_witness :
  ∃ (batches : list (list Row)) (pns : list Z),
    [ballerina_record; <[4%nat := ("page_number", VInt 28)]> ballerina_record]
    = concat batches
    ∧ Forall2 (fun r n => page_number_of r = Some n)
        [ballerina_record;
         <[4%nat := ("page_number", VInt 28)]> ballerina_record] pns
    ∧ StronglySorted Z.le pns.
Proof.
  destruct (catalogue_in_page_then_row_order
              (replicate 25 no_table_page
               ++ [(fun _ _ => Some ballerina_table); no_table_page;
                   (fun _ _ => Some ballerina_table)])
              [INFO_parsing 26; INFO_parsing 27; WARNING_no_table 27;
               INFO_parsing 28]
              [ballerina_record;
               <[4%nat := ("page_number", VInt 28)]> ballerina_record])
    as (batches & pns & H1 & _ & _ & _ & _ & H2 & H3 & _).
  - vm_compute. reflexivity.
  - exists batches, pns. exact (conj H1 (conj H2 H3)).
Defined.

(** ** Casts before export *)

(** C6. A technical value that is no float makes the run end with an
    exception and without an export, wherever the value stands: if a row
    of the table of a visited page has a string in its fourth cell that
    [float] refuses, the outcome of the run is [Aborted]. *)
Theorem bad_technical_value_aborts_before_export (pdf_pages : list Page)
    (page_number : Z) (page : Page) (header : list (option string))
    (body : Table) (cells : list (option string)) (s : string) :
  (page_number, page) ∈ visited pdf_pages →
  page (get_crop_boundaries page_number) (get_vertical_lines page_number)
    = Some (header :: body) →
  cells ∈ body →
  cells !! 3%nat = Some (Some s) →
  PyFloat.float s = None →
  ∃ e, (run pdf_pages).2 = Aborted e.
Proof.
  intros Hvisited Hpage Hcells Hs Hfloat.
  destruct (run pdf_pages) as [l [cat|e]] eqn:Hrun; [|by exists e].
  exfalso.
  apply run_Exported_records in Hrun as (batches & _ & Hb).
  apply list_elem_of_lookup in Hvisited as (i & Hi).
  destruct (Forall2_lookup_l _ _ _ _ _ Hb Hi) as (batch & _ & Hbatch).
  simpl in Hbatch. unfold page_records in Hbatch. rewrite Hpage in Hbatch.
  apply mapM_Some in Hbatch.
  apply list_elem_of_lookup in Hcells as (j & Hj).
  destruct (Forall2_lookup_l _ _ _ _ _ Hbatch Hj) as (r & _ & Hr).
  apply ElementRecord_Some in Hr
    as (code & name & element & tv & crit & f & -> & Hf & _).
  simpl in Hs. injection Hs as ->.
  unfold to_float in Hf. simpl in Hf. by rewrite Hfloat in Hf.
Qed.

Lemma bad_technical_value_aborts_before_export_witness :
  ∃ e, (run (replicate 25 no_table_page
             ++ [(fun _ _ => Some ballerina_table);
                 (fun _ _ => Some unscored_table)])).2 = Aborted e.
Proof.
  refine (bad_technical_value_aborts_before_export
            (replicate 25 no_table_page
             ++ [(fun _ _ => Some ballerina_table);
                 (fun _ _ => Some unscored_table)])
            27 (fun _ _ => Some unscored_table) ballerina_header
            [ballerina_row;
             [Some "F5"; Some "Bridge"; Some ""; Some "n/a";
              Some "- Hold: 2 seconds"]]
            [Some "F5"; Some "Bridge"; Some ""; Some "n/a";
             Some "- Hold: 2 seconds"] "n/a" _ _ _ _ _).
  - vm_compute. apply list_elem_of_further, list_elem_of_here.
  - reflexivity.
  - apply list_elem_of_further, list_elem_of_here.
  - reflexivity.
  - vm_compute. reflexivity.
Defined.

(** A document in which no visited page gives a table leaves [dfs] empty,
    and [pd.concat] refuses an empty list: the run ends with [ValueError],
    as it does when there is no page to visit at all. *)
Lemma run_without_any_table (pdf_pages : list Page) :
  Forall (fun page : Page => ∀ crop lines, page crop lines = None) pdf_pages →
  (run pdf_pages).2 = Aborted ValueError.
Proof.
  intros Hall. unfold run. rewrite visited_slice.
  pose proof (page_loop_no_tables [] 26 (take 75 (drop 25 pdf_pages))) as Hl.
  destruct (page_loop _ _) as [l r]. simpl in *.
  by rewrite Hl by by apply Forall_take, Forall_drop.
Qed.

(** * Further properties of [parse.py] *)

(** ** Geometry *)

(** X1. For every page number the crop rectangle is a proper rectangle that
    differs from the default by its top only, and the explicit vertical lines
    are six strictly increasing abscissas, the first on the left side of the
    rectangle and none outside its sides: five columns inside the crop. *)
Theorem vertical_lines_within_crop (page_number : Z) :
  let crop := get_crop_boundaries page_number in
  let lines := get_vertical_lines page_number in
  left crop = 35 ∧ right crop = 565 ∧ bottom crop = 775
  ∧ top crop ∈ [45; 75; 210]
  ∧ left crop < right crop ∧ top crop < bottom crop
  ∧ length lines = 6%nat
  ∧ StronglySorted Z.lt lines
  ∧ head lines = Some (left crop)
  ∧ Forall (fun x => left crop ≤ x ≤ right crop) lines.
Proof.
  cbv zeta.
  rewrite get_crop_boundaries_cases, get_vertical_lines_cases.
  repeat case_bool_decide; cbn [left right top bottom length head].
  all: split_and!; try done; try lia; try elem_of_list_lia.
  all: try (repeat constructor; lia).
  all: compute_done.
Qed.

(** ** Categories *)

(** X2. Whatever the code, the category is one of spin, static, strength,
    flexibility and unknown, and it depends on the first two characters of
    the code only. *)
Theorem get_category_range (code : string) :
  get_category code ∈ CATEGORIES
  ∧ get_category code = get_category (String.substring 0 2 code).
Proof.
  unfold get_category, CATEGORIES. split.
  - repeat destruct (Py.startswith code _); compute_done.
  - destruct code as [|c [|d rest]]; [done|done|].
    change (String.substring 0 2 (String c (String d rest)))
      with (String c (String d (String.substring 0 0 rest))).
    replace (String.substring 0 0 rest) with "" by by destruct rest.
    simpl. by rewrite !andb_true_r.
Qed.

(** ** Characters of the fragments *)

Lemma chars_rev_string (acc : list ascii) (out : string) :
  Py.chars (Py.rev_string acc out) = reverse acc ++ Py.chars out.
Proof.
  revert out. induction acc as [|c acc IH]; intros out; [done|].
  simpl. rewrite IH, reverse_cons, <- app_assoc. done.
Qed.

Lemma split_go_chars (sep : string) (skip : nat) (cur : list ascii)
    (s x : string) (c : ascii) :
  x ∈ Py.split_go sep skip cur s → c ∈ Py.chars x →
  c ∈ cur ∨ c ∈ Py.chars s.
Proof.
  revert skip cur. induction s as [|d s IH]; intros skip cur; simpl.
  - intros ->%list_elem_of_singleton. rewrite chars_rev_string, app_nil_r.
    rewrite elem_of_reverse. by left.
  - destruct skip as [|k].
    + destruct (Py.startswith _ _).
      * intros [->|Hx]%elem_of_cons Hc.
        -- rewrite chars_rev_string, app_nil_r, elem_of_reverse in Hc.
           by left.
        -- destruct (IH _ _ Hx Hc) as [?%elem_of_nil|?]; [done|].
           right. by apply list_elem_of_further.
      * intros Hx Hc.
        destruct (IH _ _ Hx Hc) as [[->|?]%elem_of_cons|?].
        -- right. apply list_elem_of_here.
        -- by left.
        -- right. by apply list_elem_of_further.
    + intros Hx Hc. destruct (IH _ _ Hx Hc) as [?|?]; [by left|].
      right. by apply list_elem_of_further.
Qed.

Lemma lstrip_chars_chars (set s : string) (c : ascii) :
  c ∈ Py.chars (Py.lstrip_chars set s) → c ∈ Py.chars s.
Proof.
  induction s as [|d s IH]; simpl; [done|].
  destruct (Py.char_in d set); [|done].
  intros ?%IH. by apply list_elem_of_further.
Qed.

Lemma strip_chars (s : string) (c : ascii) :
  c ∈ Py.chars (Py.strip s) → c ∈ Py.chars s.
Proof.
  intros Hc. destruct (strip_spec s) as (l & r & Hs & _).
  rewrite Hs, !chars_app, !elem_of_app. auto.
Qed.

Lemma bullets_of_chars (text bullet : string) (c : ascii) :
  bullet ∈ bullets_of text → c ∈ Py.chars bullet → c ∈ Py.chars text.
Proof.
  unfold bullets_of, Py.split.
  destruct (Py.split_go _ _ _ _) as [|first rest] eqn:Hsplit;
    [by intros ?%elem_of_nil|].
  intros Hb Hc. apply strip_chars.
  assert (∃ x, x ∈ Py.split_go bullet_delimiter 0 [] (Py.strip text)
               ∧ c ∈ Py.chars x) as (x & Hx & Hcx).
  { rewrite Hsplit. apply elem_of_cons in Hb as [->|Hb].
    - exists first. split; [apply list_elem_of_here|].
      by eapply lstrip_chars_chars.
    - exists bullet. split; [by apply list_elem_of_further|done]. }
  destruct (split_go_chars _ _ _ _ _ _ Hx Hcx) as [?%elem_of_nil|?]; done.
Qed.

Lemma reconcile_empty (table : list (string * string)) : reconcile table ∅ = ∅.
Proof.
  unfold reconcile. induction table as [|[bad good] table IH]; [done|].
  simpl. by rewrite lookup_empty.
Qed.

(** X3. A criteria text without any colon, the empty text among them, gives
    the empty mapping: no bullet of it is a key/value pair. *)
Theorem parse_criteria_without_colon (text : string) :
  ":"%char ∉ Py.chars text → parse_criteria text = ∅.
Proof.
  intros Hno. unfold parse_criteria, raw_criteria.
  assert (Hall : Forall (fun b => ":"%char ∉ Py.chars b) (bullets_of text)).
  { apply Forall_forall. intros b Hb Hc. apply Hno.
    by eapply bullets_of_chars. }
  assert (foldl add_bullet ∅ (bullets_of text) = ∅) as ->;
    [|apply reconcile_empty].
  generalize (∅ : gmap string string).
  induction Hall as [|b bs Hb _ IH]; intros data; [done|].
  simpl. rewrite add_bullet_unkeyed by done. apply IH.
Qed.

Lemma parse_criteria_without_colon_witness :
  parse_criteria "Please refer to the glossary" = ∅.
Proof.
  apply parse_criteria_without_colon.
  vm_compute. intros H.
  repeat (apply elem_of_cons in H as [H|H]; [discriminate H|]).
  by apply elem_of_nil in H.
Defined.

(** ** Keys and values of the mapping *)

Lemma add_bullet_entry (data : gmap string string) (bullet : string) :
  add_bullet data bullet =
    match bullet_entry bullet with
    | Some (key, value) => <[key := value]> data
    | None => data
    end.
Proof.
  unfold add_bullet, bullet_entry.
  destruct (Py.contains ":" bullet); [|done].
  by destruct (Py.split1 ":" bullet) as [[??]|].
Qed.

Lemma bullet_entry_Some (bullet key value : string) :
  bullet_entry bullet = Some (key, value) →
  ∃ pre post, bullet = pre +:+ ":" +:+ post ∧ (":"%char ∉ Py.chars pre)
              ∧ key = canonical_key pre ∧ value = Py.strip post.
Proof.
  unfold bullet_entry.
  destruct (Py.contains ":" bullet) eqn:Hc; [|done].
  apply contains_char in Hc.
  destruct (first_occurrence _ _ Hc) as (pre & post & -> & Hpre).
  rewrite split1_first by done. intros [= <- <-]. by exists pre, post.
Qed.

Lemma lower_char_colon (c : ascii) :
  Py.lower_char c = ":"%char → c = ":"%char.
Proof. by destruct c as [[] [] [] [] [] [] [] []]. Qed.

Lemma chars_lower (s : string) :
  Py.chars (Py.lower s) = Py.lower_char <$> Py.chars s.
Proof. induction s as [|c s IH]; simpl; [done|]. by rewrite IH. Qed.

Lemma canonical_key_no_colon (pre : string) :
  ":"%char ∉ Py.chars pre → ":"%char ∉ Py.chars (canonical_key pre).
Proof.
  intros Hpre. unfold canonical_key. rewrite chars_replace, chars_lower.
  intros (c & Hc & (d & -> & Hd)%list_elem_of_fmap)%list_elem_of_fmap.
  apply Hpre, strip_chars.
  destruct (Ascii.eqb_spec (Py.lower_char d) " "); [done|].
  symmetry in Hc. apply lower_char_colon in Hc. by subst.
Qed.

Lemma bullet_entry_well_keyed (bullet key value : string) :
  bullet_entry bullet = Some (key, value) → well_keyed key value.
Proof.
  intros (pre & post & _ & Hpre & -> & ->)%bullet_entry_Some.
  destruct (strip_spec post) as (_ & _ & _ & _ & _ & ? & ?).
  split_and!; [apply canonical_key_no_space|by apply canonical_key_no_colon
              |apply canonical_key_lower|done..].
Qed.

Lemma raw_criteria_well_keyed (text key value : string) :
  raw_criteria text !! key = Some value → well_keyed key value.
Proof.
  unfold raw_criteria.
  assert (Hinv : ∀ bullets (data : gmap string string),
            (∀ k v, data !! k = Some v → well_keyed k v) →
            ∀ k v, foldl add_bullet data bullets !! k = Some v →
                   well_keyed k v).
  { induction bullets as [|b bs IH]; intros data Hdata; [done|].
    cbn [foldl]. apply IH. intros k v. rewrite add_bullet_entry.
    destruct (bullet_entry b) as [[k' v']|] eqn:Hb; [|apply Hdata].
    destruct (decide (k' = k)) as [->|Hne].
    - rewrite lookup_insert_eq. intros [= <-].
      by eapply bullet_entry_well_keyed.
    - rewrite lookup_insert_ne by done. apply Hdata. }
  apply Hinv. intros k v. by rewrite lookup_empty.
Qed.

Lemma canonical_names_well_formed :
  Forall (fun key => (" "%char ∉ Py.chars key) ∧ (":"%char ∉ Py.chars key)
                     ∧ Py.lower key = key) bad_columns.*2.
Proof.
  repeat constructor; try done.
  all: vm_compute; intros H.
  all: repeat (apply elem_of_cons in H as [H|H]; [discriminate H|]).
  all: by apply elem_of_nil in H.
Qed.

(** X4. Every entry of the mapping [parse_criteria] returns has a key in
    canonical form, without space, without colon and without capital, and a
    value with no white space at either end. *)
Theorem parse_criteria_well_keyed (text key value : string) :
  parse_criteria text !! key = Some value →
  (" "%char ∉ Py.chars key) ∧ (":"%char ∉ Py.chars key)
  ∧ Py.lower key = key
  ∧ no_space_first value ∧ no_space_last value.
Proof.
  unfold parse_criteria.
  rewrite reconcile_lookup by apply bad_columns_well_formed.
  case_bool_decide as Hbad; [done|].
  destruct (raw_criteria text !! key) as [v|] eqn:Hraw.
  - intros [= <-]. by apply raw_criteria_well_keyed in Hraw.
  - intros Hfa.
    assert (Hgood : key ∈ bad_columns.*2).
    { destruct (decide (key ∈ bad_columns.*2)) as [|Hn]; [done|].
      by rewrite first_alias_not_canonical in Hfa. }
    apply first_alias_Some in Hfa as (bad & _ & Hv).
    apply raw_criteria_well_keyed in Hv as (_ & _ & _ & ? & ?).
    pose proof canonical_names_well_formed as Hnames.
    rewrite Forall_forall in Hnames.
    destruct (Hnames _ Hgood) as (? & ? & ?). by split_and!.
Qed.

Lemma parse_criteria_well_keyed_witness :
  Py.lower "arm_position" = "arm_position".
Proof.
  refine (proj1 (proj2 (proj2 (parse_criteria_well_keyed
            ("- Hold: 5 seconds" +:+ String Py.LF "- Arm Position:  upper ")
            "arm_position" "upper" _)))).
  vm_refl.
Defined.

(** X5. When several bullets give the same key, the last one decides: if
    the bullets of a text are [before ++ b :: after], [b] carries the key
    and no bullet of [after] does, the raw mapping holds the value of [b]
    under the key, and so does the final mapping unless the key is an alias
    key. *)
Theorem last_bullet_decides (text : string) (before after : list string)
    (b key value : string) :
  bullets_of text = before ++ b :: after →
  bullet_entry b = Some (key, value) →
  Forall (fun b' => fst <$> bullet_entry b' ≠ Some key) after →
  raw_criteria text !! key = Some value
  ∧ (key ∉ bad_columns.*1 → parse_criteria text !! key = Some value).
Proof.
  intros Hb Hentry Hafter.
  assert (Hraw : raw_criteria text !! key = Some value).
  { unfold raw_criteria. rewrite Hb, foldl_app. cbn [foldl]. clear Hb.
    rewrite (add_bullet_entry _ b), Hentry.
    generalize (foldl add_bullet ∅ before). intros data.
    assert (Hkeep : ∀ d : gmap string string,
              d !! key = Some value →
              foldl add_bullet d after !! key = Some value).
    { induction Hafter as [|b' bs Hb' _ IH]; intros d Hd; [done|].
      cbn [foldl]. apply IH. rewrite add_bullet_entry.
      destruct (bullet_entry b') as [[k' v']|]; [|done].
      rewrite lookup_insert_ne; [done|]. intros ->. by apply Hb'. }
    apply Hkeep. by rewrite lookup_insert_eq. }
  split; [done|]. intros Hkey. unfold parse_criteria.
  rewrite reconcile_lookup by apply bad_columns_well_formed.
  by rewrite bool_decide_eq_false_2, Hraw by done.
Qed.

Lemma last_bullet_decides_witness :
  raw_criteria ("- Hold: 2 seconds" +:+ String Py.LF "- Hold: 5 seconds")
    !! "hold" = Some "5 seconds".
Proof.
  refine (proj1 (last_bullet_decides
            ("- Hold: 2 seconds" +:+ String Py.LF "- Hold: 5 seconds")
            ["Hold: 2 seconds"] [] "Hold: 5 seconds" "hold" "5 seconds"
            _ _ _)).
  - vm_compute. reflexivity.
  - vm_compute. reflexivity.
  - constructor.
Defined.

(** ** Reconciliation as an operation on mappings *)

Lemma reconcile_one_absent (data : gmap string string) (bad good : string) :
  data !! bad = None → reconcile_one data (bad, good) = data.
Proof. intros Hb. unfold reconcile_one. by rewrite Hb. Qed.

Lemma reconcile_no_alias (table : list (string * string))
    (data : gmap string string) :
  Forall (fun bad => data !! bad = None) table.*1 → reconcile table data = data.
Proof.
  unfold reconcile. induction table as [|[bad good] table IH]; [done|].
  rewrite fmap_cons. intros [Hb Hall]%Forall_cons. simpl in Hb.
  cbn [foldl]. rewrite reconcile_one_absent by done. by apply IH.
Qed.

Lemma reconcile_one_size (data : gmap string string) (entry : string * string) :
  (size (reconcile_one data entry) ≤ size data)%nat.
Proof.
  destruct entry as [bad good]. unfold reconcile_one, setdefault.
  destruct (data !! bad) as [v|] eqn:Hbad; [|done].
  destruct (data !! good) as [w|] eqn:Hgood.
  - rewrite map_size_delete, Hbad. simpl. lia.
  - assert (bad ≠ good) by (intros ->; congruence).
    rewrite map_size_delete, lookup_insert_ne, Hbad by done.
    rewrite map_size_insert_None by done. simpl. lia.
Qed.

Lemma reconcile_one_dom (data : gmap string string) (bad good key : string) :
  is_Some (reconcile_one data (bad, good) !! key) →
  is_Some (data !! key) ∨ key = good.
Proof.
  unfold reconcile_one, setdefault.
  destruct (data !! bad) as [v|] eqn:Hbad; [|by left].
  destruct (decide (key = bad)) as [->|Hkb];
    [rewrite lookup_delete_eq; by intros [??]|].
  rewrite lookup_delete_ne by done.
  destruct (data !! good) eqn:Hgood; [by left|].
  destruct (decide (key = good)) as [->|Hkg]; [by right|].
  rewrite lookup_insert_ne by done. by left.
Qed.

(** X6. Reconciliation leaves a mapping without alias keys as it is, for
    any alias table; in particular reconciling the result of
    [parse_criteria] once more changes nothing. *)
Theorem reconcile_idempotent (text : string) :
  (∀ table (data : gmap string string),
     Forall (fun bad => data !! bad = None) table.*1 →
     reconcile table data = data)
  ∧ reconcile bad_columns (parse_criteria text) = parse_criteria text.
Proof.
  split; [apply reconcile_no_alias|].
  apply reconcile_no_alias, Forall_forall. intros bad Hbad.
  unfold parse_criteria.
  rewrite reconcile_lookup by apply bad_columns_well_formed.
  by rewrite bool_decide_eq_true_2.
Qed.

(** X7. Reconciliation never adds an entry and never invents a key: the
    final mapping has at most as many entries as the raw one, and each of its
    keys is a key of the raw mapping or a canonical name of the table. *)
Theorem reconcile_shrinks (text : string) :
  (size (parse_criteria text) ≤ size (raw_criteria text))%nat
  ∧ ∀ key, is_Some (parse_criteria text !! key) →
           is_Some (raw_criteria text !! key) ∨ key ∈ bad_columns.*2.
Proof.
  unfold parse_criteria. generalize (raw_criteria text). intros data.
  assert (Hgen : ∀ table (d : gmap string string),
            (size (reconcile table d) ≤ size d)%nat
            ∧ ∀ key, is_Some (reconcile table d !! key) →
                     is_Some (d !! key) ∨ key ∈ table.*2).
  { unfold reconcile.
    induction table as [|[bad good] table IH]; intros d; [by split; [|left]|].
    cbn [foldl]. rewrite fmap_cons.
    destruct (IH (reconcile_one d (bad, good))) as [Hs Hd]. split.
    - pose proof (reconcile_one_size d (bad, good)). lia.
    - intros key Hkey. destruct (Hd key Hkey) as [H1|H2].
      + apply reconcile_one_dom in H1 as [?| ->]; [by left|].
        right. apply list_elem_of_here.
      + right. by apply list_elem_of_further. }
  apply Hgen.
Qed.

(** ** The frame of a page *)

Lemma page_frame_Ok_header (n : Z) (header : list (option string))
    (body : Table) (df : DataFrame) :
  page_frame n header body = Ok df → length header = 5%nat.
Proof.
  unfold page_frame.
  destruct (DataFrame_of body header) as [rows|]; [|done].
  cbn [mbind result_bind]. unfold set_columns.
  by destruct (Nat.eqb_spec (length COLUMNS) (length header)).
Qed.

(** X8. The column-by-column construction of a page's frame amounts to
    building one record per row: it succeeds exactly when the header has five
    cells and every data row has five cells with a string for its code and
    for its criteria, and the frame is then the list of the rows' records, in
    the order of the rows and as many as the rows. *)
Theorem page_frame_row_by_row (n : Z) (header : list (option string))
    (body : Table) (df : DataFrame) :
  (page_frame n header body = Ok df
   ↔ length header = 5%nat
     ∧ Forall2 (fun cells r => build n cells = Some r) body df)
  ∧ (page_frame n header body = Ok df → length df = length body).
Proof.
  split; [split|].
  - intros H. split; [by eapply page_frame_Ok_header|by eapply page_frame_Ok].
  - intros [Hh Hb]. by apply page_frame_complete.
  - intros H%page_frame_Ok. symmetry. by eapply Forall2_length.
Qed.

(** X9. A table whose header has not exactly five cells cannot be renamed
    to the five columns: the frame construction ends with [ValueError],
    whatever the data rows. *)
Theorem page_frame_bad_header (n : Z) (header : list (option string))
    (body : Table) :
  length header ≠ 5%nat → page_frame n header body = Raise ValueError.
Proof.
  intros Hh. unfold page_frame, DataFrame_of, set_columns.
  destruct body as [|r body].
  - cbn [mbind result_bind].
    by destruct (Nat.eqb_spec (length COLUMNS) (length header)).
  - destruct (Nat.eqb (width (r :: body)) (length header)); [|done].
    cbn [mbind result_bind].
    by destruct (Nat.eqb_spec (length COLUMNS) (length header)).
Qed.

Lemma page_frame_bad_header_witness :
  page_frame 26 [Some "code"; Some "name"] [[Some "F4"; Some "Ballerina"]]
  = Raise ValueError.
Proof.
  apply page_frame_bad_header. simpl. lia.
Defined.

Lemma mapM_bind_Raise {A B C} (f : A -> result B) (g : B -> result C)
    (K : list B -> result (list C)) (l : list A) (e : exception) :
  (∀ m, K m = Raise e → ∃ y, y ∈ m ∧ g y = Raise e) →
  mapM f l ≫= K = Raise e →
  ∃ x, x ∈ l ∧ f x ≫= g = Raise e.
Proof.
  intros HK. destruct (mapM f l) as [m|e'] eqn:Hm; cbn [mbind result_bind].
  - intros (y & Hy & Hg)%HK. apply mapM_Ok in Hm.
    apply list_elem_of_lookup in Hy as (i & Hi).
    destruct (Forall2_lookup_r _ _ _ _ _ Hm Hi) as (x & Hx & Hfx).
    exists x. split; [by eapply list_elem_of_lookup_2|].
    by rewrite Hfx.
  - intros [= ->]. apply mapM_Raise in Hm as (x & ? & Hx).
    exists x. split; [done|]. by rewrite Hx.
Qed.

Lemma page_frame_Raise (n : Z) (header : list (option string)) (body : Table)
    (e : exception) :
  length header = 5%nat →
  Forall (fun cells => length cells = 5%nat) body →
  page_frame n header body = Raise e →
  ∃ cells, cells ∈ body ∧ row_steps n cells = Raise e.
Proof.
  intros Hh Hall. unfold page_frame.
  rewrite DataFrame_of_complete by by rewrite Hh.
  unfold set_columns. rewrite Hh.
  change (Nat.eqb (length COLUMNS) 5) with true.
  cbn [mbind result_bind].
  unfold assign_apply, assign_scalar, drop_columns.
  rewrite mapM_fmap. intros H.
  set (A2 := fun r1 : Row =>
               assign_apply_row "image" "code" image_path
                 (set_cell "page_number" (VInt n) r1)).
  set (A3 := assign_apply_row "category" "code" apply_get_category).
  set (D := fun r3 : Row =>
              Ok (drop_row ["please_refer_to_the_glossary"; "element"] r3)).
  assert (H3 : ∀ l2 : list Row,
            mapM A3 l2
              ≫= (fun df1 => mret (map (drop_row
                     ["please_refer_to_the_glossary"; "element"]) df1))
            = Raise e →
            ∃ y, y ∈ l2 ∧ A3 y ≫= D = Raise e).
  { intros l2 H2. eapply (mapM_bind_Raise A3 D); [|exact H2].
    intros m. by cbv [mret result_ret]. }
  assert (H2 : ∀ l1 : list Row,
            mapM (assign_apply_row "image" "code" image_path)
                 (map (set_cell "page_number" (VInt n)) l1)
              ≫= (fun df0 => mapM A3 df0
                    ≫= (fun df1 => mret (map (drop_row
                          ["please_refer_to_the_glossary"; "element"]) df1)))
            = Raise e →
            ∃ y, y ∈ l1 ∧ A2 y ≫= (fun r2 => A3 r2 ≫= D) = Raise e).
  { intros l1. rewrite mapM_fmap. intros H1.
    eapply (mapM_bind_Raise A2 (fun r2 => A3 r2 ≫= D)); [|exact H1].
    exact H3. }
  eapply (mapM_bind_Raise _ (fun r1 => A2 r1 ≫= (fun r2 => A3 r2 ≫= D)));
    [|exact H].
  exact H2.
Qed.

Lemma row_steps_Raise (n : Z) (cells : list (option string)) (e : exception) :
  length cells = 5%nat → row_steps n cells = Raise e → e = AttributeError.
Proof.
  intros Hlen.
  destruct cells as [|c0 [|c1 [|c2 [|c3 [|c4 [|??]]]]]]; try done.
  unfold row_steps, assign_apply_row.
  destruct c0, c4; simpl; cbv [mbind result_bind mret result_ret];
    simpl; congruence.
Qed.

(** X10. In a table of five columns, a row whose code cell or criteria
    cell is empty ([None]) stops the frame construction with
    [AttributeError]: neither [parse_criteria] nor [get_category] accepts
    [None]. *)
Theorem page_frame_missing_cell (n : Z) (header : list (option string))
    (body : Table) :
  length header = 5%nat →
  Forall (fun cells => length cells = 5%nat) body →
  Exists (fun cells => cells !! 0%nat = Some None
                       ∨ cells !! 4%nat = Some None) body →
  page_frame n header body = Raise AttributeError.
Proof.
  intros Hh Hall Hex.
  destruct (page_frame n header body) as [df|e] eqn:Hpf.
  - exfalso. apply page_frame_Ok in Hpf.
    apply Exists_exists in Hex as (cells & Hin & Hnone).
    apply list_elem_of_lookup in Hin as (i & Hi).
    destruct (Forall2_lookup_l _ _ _ _ _ Hpf Hi) as (r & _ & Hr).
    unfold build in Hr.
    destruct cells as [|[?|] [|? [|? [|? [|[?|] [|??]]]]]]; try done;
      by destruct Hnone.
  - f_equal.
    destruct (page_frame_Raise _ _ _ _ Hh Hall Hpf) as (cells & Hin & Hc).
    rewrite Forall_forall in Hall.
    by eapply row_steps_Raise; [apply Hall|].
Qed.

Lemma page_frame_missing_cell_witness :
  page_frame 26 ballerina_header
    [ballerina_row; [Some "F5"; Some "Bridge"; None; Some "0.2"; None]]
  = Raise AttributeError.
Proof.
  apply page_frame_missing_cell.
  - reflexivity.
  - repeat constructor.
  - apply Exists_cons_tl, Exists_cons_hd. right. reflexivity.
Defined.

(** ** The exported catalogue *)

Lemma elem_of_concat {A} (x : A) (ls : list (list A)) :
  x ∈ concat ls → ∃ l, x ∈ l ∧ l ∈ ls.
Proof.
  induction ls as [|l ls IH]; simpl; [by intros ?%elem_of_nil|].
  intros [?|(l' & ? & ?)%IH]%elem_of_app.
  - exists l. split; [done|apply list_elem_of_here].
  - exists l'. split; [done|by apply list_elem_of_further].
Qed.

Lemma to_float_Ok (v w : value) :
  to_float v = Ok w → ∃ f, w = VFloat f.
Proof.
  unfold to_float. destruct v as [|s|z|f|d]; try (intros [= <-]; by eexists).
  destruct (PyFloat.float s); [intros [= <-]; by eexists|done].
Qed.

Lemma visited_bounds (pdf_pages : list Page) (n : Z) (page : Page) :
  (n, page) ∈ visited pdf_pages → 26 ≤ n ≤ 100.
Proof.
  intros Hin.
  destruct (visited_page_numbers pdf_pages) as (Hfst & Hlen & _).
  assert (Hn : n ∈ (visited pdf_pages).*1).
  { apply list_elem_of_fmap. by exists (n, page). }
  rewrite Hfst in Hn. apply elem_of_seqZ in Hn. lia.
Qed.

(** X11. Every record of an exported catalogue has the seven columns code,
    name, technicalValue, criteria, page_number, image and category, in this
    order and nothing else: the code is a string, the technical value a
    float, the page number an integer from 26 to 100, the image path
    "/images/<code>.jpg", the category the one of the code and the criteria
    the parsed mapping of a criteria cell. *)
Theorem exported_record_schema (pdf_pages : list Page) (l : list log_record)
    (cat : DataFrame) (r : Row) :
  run pdf_pages = (l, Exported cat) → r ∈ cat →
  r.*1 = EXPORTED_COLUMNS
  ∧ ∃ code name tv criteria n,
      r = [ ("code", VStr code);
            ("name", cell_value name);
            ("technicalValue", VFloat tv);
            ("criteria", VDict (parse_criteria criteria));
            ("page_number", VInt n);
            ("image", VStr ("/images/" +:+ code +:+ ".jpg"));
            ("category", VStr (get_category code)) ]
      ∧ 26 ≤ n ≤ 100.
Proof.
  intros (batches & -> & Hb)%run_Exported_records Hr.
  apply elem_of_concat in Hr as (batch & Hr & Hbatch).
  apply list_elem_of_lookup in Hbatch as (i & Hi).
  destruct (Forall2_lookup_r _ _ _ _ _ Hb Hi) as ([n page] & Hv & Hrec).
  simpl in Hrec. apply list_elem_of_lookup_2 in Hv.
  apply visited_bounds in Hv.
  unfold page_records in Hrec.
  destruct (page _ _) as [[|header body]|];
    try (injection Hrec as <-; by apply elem_of_nil in Hr).
  apply mapM_Some in Hrec.
  apply list_elem_of_lookup in Hr as (j & Hj).
  destruct (Forall2_lookup_r _ _ _ _ _ Hrec Hj) as (cells & _ & Hcells).
  apply ElementRecord_Some in Hcells
    as (code & name & element & tv & crit & f & _ & Hf & ->).
  apply to_float_Ok in Hf as (x & ->).
  split; [done|]. by exists code, name, x, crit, n.
Qed.

Lemma exported_record_schema_witness :
  ballerina_record.*1 = EXPORTED_COLUMNS.
Proof.
  refine (proj1 (exported_record_schema
            (replicate 25 no_table_page ++ [fun _ _ => Some ballerina_table])
            [INFO_parsing 26] [ballerina_record] ballerina_record _ _)).
  - vm_compute. reflexivity.
  - apply list_elem_of_here.
Defined.

Lemma length_concat_sum {A} (ls : list (list A)) :
  length (concat ls) = sum_list (length <$> ls).
Proof.
  induction ls as [|l ls IH]; [done|]. simpl. by rewrite length_app, IH.
Qed.

(** X12. An exported catalogue has exactly one record per data row: its
    length is the number of rows below the header, added up over the visited
    pages that gave a table. *)
Theorem exported_record_count (pdf_pages : list Page) (l : list log_record)
    (cat : DataFrame) :
  run pdf_pages = (l, Exported cat) →
  length cat = sum_list (table_rows <$> visited pdf_pages).
Proof.
  intros (batches & -> & Hb)%run_Exported_records.
  rewrite length_concat_sum. f_equal.
  induction Hb as [|[n page] batch pages batches Hrec _ IH]; [done|].
  rewrite !fmap_cons, IH. f_equal.
  unfold page_records, table_rows in *. simpl in *.
  destruct (page _ _) as [[|header body]|]; try by injection Hrec as <-.
  symmetry. by eapply length_mapM.
Qed.

Lemma exported_record_count_witness :
  length [ballerina_record]
  = sum_list (table_rows <$> visited (replicate 25 no_table_page
                ++ [(fun _ _ => Some ballerina_table) : Page])).
Proof.
  refine (exported_record_count
            (replicate 25 no_table_page ++ [fun _ _ => Some ballerina_table])
            [INFO_parsing 26] [ballerina_record] _).
  vm_compute. reflexivity.
Defined.

Lemma page_loop_frames (pages : list (Z * Page)) (dfs dfs' : list DataFrame)
    (l : list log_record) :
  page_loop dfs pages = (l, Ok dfs') →
  (dfs' ≠ [] → dfs ≠ [] ∨ Exists (fun entry : Z * Page =>
                 not_table (entry.2 (get_crop_boundaries entry.1)
                                    (get_vertical_lines entry.1)) = false)
                 pages)
  ∧ Forall (fun entry : Z * Page =>
              match entry.2 (get_crop_boundaries entry.1)
                            (get_vertical_lines entry.1) with
              | Some (header :: _) => length header = 5%nat
              | _ => True
              end) pages.
Proof.
  revert dfs l. induction pages as [|[n page] pages IH]; intros dfs l.
  - intros [= <- <-]. split; [by left|constructor].
  - rewrite page_loop_cons.
    destruct (page _ _) as [[|header body]|] eqn:Hpage.
    + destruct (page_loop dfs pages) as [l' r] eqn:Hloop.
      intros [= <- ->]. destruct (IH _ _ Hloop) as [Hne Hall]. split.
      * intros [?|?]%Hne; [by left|]. right. by apply Exists_cons_tl.
      * constructor; [|done]. simpl. by rewrite Hpage.
    + destruct (page_frame n header body) as [df|] eqn:Hdf; [|done].
      destruct (page_loop (dfs ++ [df]) pages) as [l' r] eqn:Hloop.
      intros [= <- ->]. destruct (IH _ _ Hloop) as [Hne Hall]. split.
      * intros _. right. apply Exists_cons_hd. simpl. by rewrite Hpage.
      * constructor; [|done]. simpl. rewrite Hpage.
        by eapply page_frame_Ok_header.
    + destruct (page_loop dfs pages) as [l' r] eqn:Hloop.
      intros [= <- ->]. destruct (IH _ _ Hloop) as [Hne Hall]. split.
      * intros [?|?]%Hne; [by left|]. right. by apply Exists_cons_tl.
      * constructor; [|done]. simpl. by rewrite Hpage.
Qed.

(** X13. The exporting runs are exactly those of documents whose visited
    pages can all be turned into records and of which one page at least
    gives a table; the catalogue is then the concatenation, page after page,
    of the records of the pages. *)
Theorem run_exports_iff (pdf_pages : list Page) (cat : DataFrame) :
  (∃ l, run pdf_pages = (l, Exported cat))
  ↔ ∃ records,
      cat = concat records
      ∧ Forall2 page_exports (visited pdf_pages) records
      ∧ Exists (fun entry : Z * Page =>
                  not_table (entry.2 (get_crop_boundaries entry.1)
                                     (get_vertical_lines entry.1)) = false)
          (visited pdf_pages).
Proof.
  split.
  - intros [l Hrun].
    pose proof Hrun as (batches & -> & Hb)%run_Exported_records.
    apply run_Exported in Hrun as (dfs & Hloop & Hconcat & _).
    apply page_loop_frames in Hloop as [Hne Hheaders].
    exists batches. split_and!; [done| |].
    + eapply Forall2_impl;
        [exact (Forall2_with_Forall_l _ _ _ _ Hheaders Hb)|].
      intros [n page] batch [Hh Hrec]. unfold page_exports, page_records in *.
      simpl in *. by destruct (page _ _) as [[|header body]|];
        [injection Hrec as <-| |injection Hrec as <-].
    + destruct Hne as [?|?]; [|done|done].
      intros ->. by unfold pd_concat in Hconcat.
  - intros (records & -> & Hall & Hex). by apply run_exports.
Qed.

Lemma page_log_cons (entry : Z * Page) (pages : list (Z * Page)) :
  (entry :: pages) ≫= page_log = page_log entry ++ (pages ≫= page_log).
Proof. done. Qed.

Lemma page_log_skipped (n : Z) (page : Page) :
  not_table (page (get_crop_boundaries n) (get_vertical_lines n)) = true →
  page_log (n, page) = [INFO_parsing n; WARNING_no_table n].
Proof. intros Hno. unfold page_log. cbn [fst snd]. by rewrite Hno. Qed.

Lemma page_log_table (n : Z) (page : Page) (header : list (option string))
    (body : Table) :
  page (get_crop_boundaries n) (get_vertical_lines n) = Some (header :: body) →
  page_log (n, page) = [INFO_parsing n].
Proof. intros Hp. unfold page_log. cbn [fst snd]. by rewrite Hp. Qed.

Lemma page_loop_all_skipped (dfs : list DataFrame) (pages : list (Z * Page)) :
  Forall (fun entry : Z * Page =>
            not_table (entry.2 (get_crop_boundaries entry.1)
                               (get_vertical_lines entry.1)) = true) pages →
  page_loop dfs pages = (pages ≫= page_log, Ok dfs).
Proof.
  induction 1 as [|[n page] pages Hno _ IH]; [done|].
  cbn [fst snd] in Hno.
  by rewrite page_loop_skip, IH, page_log_cons, page_log_skipped.
Qed.

(** X14. A run that finds no table at all exports nothing and ends with
    the [ValueError] of [pd.concat] on an empty list of frames, after a
    warning for every visited page; a document of fewer than 26 pages, which
    has no page to visit, ends so without any log line. *)
Theorem run_without_table_aborts (pdf_pages : list Page) :
  Forall (fun entry : Z * Page =>
            not_table (entry.2 (get_crop_boundaries entry.1)
                               (get_vertical_lines entry.1)) = true)
    (visited pdf_pages) →
  run pdf_pages = (visited pdf_pages ≫= page_log, Aborted ValueError)
  ∧ ((length pdf_pages ≤ 25)%nat → run pdf_pages = ([], Aborted ValueError)).
Proof.
  intros Hall. unfold run.
  rewrite page_loop_all_skipped by done. split; [done|].
  intros Hlen. rewrite visited_slice, drop_ge by done. done.
Qed.

Lemma run_without_table_aborts_witness :
  run (replicate 26 no_table_page)
  = ([INFO_parsing 26; WARNING_no_table 26], Aborted ValueError).
Proof.
  refine (proj1 (run_without_table_aborts (replicate 26 no_table_page) _)).
  repeat constructor.
Defined.

Lemma page_loop_log (pages : list (Z * Page)) (dfs dfs' : list DataFrame)
    (l : list log_record) :
  page_loop dfs pages = (l, Ok dfs') → l = pages ≫= page_log.
Proof.
  revert dfs l. induction pages as [|[n page] pages IH]; intros dfs l.
  - by intros [= <- _].
  - rewrite page_loop_cons, page_log_cons.
    destruct (page _ _) as [[|header body]|] eqn:Hpage.
    + rewrite page_log_skipped by by rewrite Hpage.
      destruct (page_loop dfs pages) as [l' r] eqn:Hloop.
      intros [= <- ->]. by rewrite (IH _ _ Hloop).
    + rewrite (page_log_table _ _ _ _ Hpage).
      destruct (page_frame n header body) as [df|]; [|done].
      destruct (page_loop (dfs ++ [df]) pages) as [l' r] eqn:Hloop.
      intros [= <- ->]. by rewrite (IH _ _ Hloop).
    + rewrite page_log_skipped by by rewrite Hpage.
      destruct (page_loop dfs pages) as [l' r] eqn:Hloop.
      intros [= <- ->]. by rewrite (IH _ _ Hloop).
Qed.

(** X15. The log of an exporting run is determined by the visited pages:
    one information line per page, in the order of the pages, followed by a
    warning exactly when the page gave no table. *)
Theorem exporting_run_log (pdf_pages : list Page) (l : list log_record)
    (cat : DataFrame) :
  run pdf_pages = (l, Exported cat) →
  l = visited pdf_pages ≫= page_log.
Proof.
  intros (dfs & Hloop & _)%run_Exported. by eapply page_loop_log.
Qed.

Lemma exporting_run_log_witness :
  [INFO_parsing 26; WARNING_no_table 26; INFO_parsing 27]
  = visited (replicate 25 no_table_page
             ++ [no_table_page; (fun _ _ => Some ballerina_table) : Page])
      ≫= page_log.
Proof.
  refine (exporting_run_log
            (replicate 25 no_table_page
             ++ [no_table_page; fun _ _ => Some ballerina_table])
            [INFO_parsing 26; WARNING_no_table 26; INFO_parsing 27]
            [<[4%nat := ("page_number", VInt 27)]> ballerina_record] _).
  vm_compute. reflexivity.
Defined.

(** X16. The loop stops at the first page whose frame cannot be built:
    when it ends with an exception, the exception is the one of a page's
    frame, the log ends with the information line of that page, and the
    pages after it are not looked at: replacing them changes nothing. *)
Theorem page_loop_fails_fast (dfs : list DataFrame) (pages : list (Z * Page))
    (l : list log_record) (e : exception) :
  page_loop dfs pages = (l, Raise e) →
  ∃ before n page header body after,
    pages = before ++ (n, page) :: after
    ∧ page (get_crop_boundaries n) (get_vertical_lines n)
      = Some (header :: body)
    ∧ page_frame n header body = Raise e
    ∧ l = (before ≫= page_log) ++ [INFO_parsing n]
    ∧ ∀ after', page_loop dfs (before ++ (n, page) :: after') = (l, Raise e).
Proof.
  revert dfs l. induction pages as [|[n page] pages IH]; intros dfs l; [done|].
  rewrite page_loop_cons.
  destruct (page _ _) as [[|header body]|] eqn:Hpage.
  - destruct (page_loop dfs pages) as [l' r] eqn:Hloop. intros [= <- ->].
    destruct (IH _ _ Hloop)
      as (before & m & p & h & b & after & -> & Hp & Hf & -> & Hrest).
    exists ((n, page) :: before), m, p, h, b, after.
    rewrite page_log_cons, page_log_skipped by by rewrite Hpage.
    split_and!; [done..|].
    intros after'.
    by rewrite <- app_comm_cons, page_loop_cons, Hpage, Hrest.
  - destruct (page_frame n header body) as [df|e'] eqn:Hdf.
    + destruct (page_loop (dfs ++ [df]) pages) as [l' r] eqn:Hloop.
      intros [= <- ->].
      destruct (IH _ _ Hloop)
        as (before & m & p & h & b & after & -> & Hp & Hf & -> & Hrest).
      exists ((n, page) :: before), m, p, h, b, after.
      rewrite page_log_cons, (page_log_table _ _ _ _ Hpage).
      split_and!; [done..|].
      intros after'.
      by rewrite <- app_comm_cons, page_loop_cons, Hpage, Hdf, Hrest.
    + intros [= <- <-]. exists [], n, page, header, body, pages.
      split_and!; [done..|].
      intros after'. simpl app. by rewrite page_loop_cons, Hpage, Hdf.
  - destruct (page_loop dfs pages) as [l' r] eqn:Hloop. intros [= <- ->].
    destruct (IH _ _ Hloop)
      as (before & m & p & h & b & after & -> & Hp & Hf & -> & Hrest).
    exists ((n, page) :: before), m, p, h, b, after.
    rewrite page_log_cons, page_log_skipped by by rewrite Hpage.
    split_and!; [done..|].
    intros after'.
    by rewrite <- app_comm_cons, page_loop_cons, Hpage, Hrest.
Qed.

Lemma page_loop_fails_fast_witness :
  ∃ before n page header body after,
    [(26, no_table_page);
     (27, (fun _ _ => Some [[Some "code"; Some "name"]]) : Page);
     (28, (fun _ _ => Some ballerina_table) : Page)]
    = before ++ (n, page) :: after
    ∧ page (get_crop_boundaries n) (get_vertical_lines n)
      = Some (header :: body)
    ∧ page_frame n header body = Raise ValueError
    ∧ [INFO_parsing 26; WARNING_no_table 26; INFO_parsing 27]
      = (before ≫= page_log) ++ [INFO_parsing n]
    ∧ ∀ after',
        page_loop [] (before ++ (n, page) :: after')
        = ([INFO_parsing 26; WARNING_no_table 26; INFO_parsing 27],
           Raise ValueError).
Proof.
  refine (page_loop_fails_fast []
            [(26, no_table_page);
             (27, fun _ _ => Some [[Some "code"; Some "name"]]);
             (28, fun _ _ => Some ballerina_table)]
            [INFO_parsing 26; WARNING_no_table 26; INFO_parsing 27]
            ValueError _).
  vm_compute. reflexivity.
Defined.

(** * Properties of [combine-images.py] *)

(** ** The file name patterns *)

Lemma span_app (p : ascii -> bool) (pre rest : string) :
  all_chars p pre → not_led_by p rest → span p (pre +:+ rest) = (pre, rest).
Proof.
  intros Hall Hled. induction pre as [|a pre IH].
  - rewrite append_nil. destruct rest as [|b r]; [done|].
    simpl in *. by rewrite Hled.
  - apply Forall_cons in Hall as [Ha Hall]. rewrite append_cons.
    cbn [span]. by rewrite Ha, (IH Hall).
Qed.

Lemma span_inv (p : ascii -> bool) (s pre rest : string) :
  span p s = (pre, rest) →
  s = pre +:+ rest ∧ all_chars p pre ∧ not_led_by p rest.
Proof.
  revert pre rest. induction s as [|c s IH]; intros pre rest; cbn [span].
  - intros [= <- <-]. split_and!; [done|constructor|done].
  - destruct (p c) eqn:Hc.
    + destruct (span p s) as [pre' rest'].
      destruct (IH _ _ eq_refl) as (-> & Hall & Hled).
      intros [= <- <-]. split_and!; [done| |done]. by constructor.
    + intros [= <- <-]. split_and!; [done|constructor|done].
Qed.

Lemma in_range_S (lo : nat) (hi : option nat) (n : nat) :
  hi ≠ Some O →
  in_range lo hi (S n) = in_range (Nat.pred lo) (Nat.pred <$> hi) n.
Proof.
  intros Hhi. unfold in_range. destruct lo as [|lo], hi as [[|h]|]; try done.
Qed.

Lemma greedy_span (p : ascii -> bool) (lo : nat) (hi : option nat)
    (s : string) (k : string -> option (list string)) :
  (∀ c s', p c = true → k (String c s') = None) →
  Combine.greedy p lo hi s k
  = let '(pre, rest) := span p s in
    if in_range lo hi (String.length pre) then k rest else None.
Proof.
  intros Hk. revert lo hi. induction s as [|c s IH]; intros lo hi.
  - cbn [Combine.greedy span String.length]. unfold in_range.
    by destruct lo, hi.
  - cbn [Combine.greedy span]. destruct (p c) eqn:Hc; cbn [andb].
    + destruct (decide (hi = Some O)) as [->|Hhi].
      * rewrite bool_decide_eq_true_2 by done. cbn [negb].
        destruct (span p s) as [pre rest]. cbn [String.length].
        unfold in_range. rewrite andb_false_r.
        destruct lo; [by apply Hk|done].
      * rewrite bool_decide_eq_false_2 by done. cbn [negb].
        rewrite IH. destruct (span p s) as [pre rest]. cbn [String.length].
        rewrite in_range_S by done.
        destruct (in_range _ _ _); [destruct (k rest); [done|]|];
          destruct lo; by rewrite ?Hk.
    + cbn [String.length]. unfold in_range. by destruct lo, hi.
Qed.

Lemma hits_letter (c : ascii) :
  Combine.hits true Combine.letter c = Combine.letter c.
Proof. each_char c; reflexivity. Qed.

Lemma hits_digit (c : ascii) :
  Combine.hits true Combine.digit c = Combine.digit c.
Proof. each_char c; reflexivity. Qed.

Lemma letter_not_digit (c : ascii) :
  Combine.letter c = true → Combine.digit c = false.
Proof. each_char c; done. Qed.

(** With [IGNORECASE], a literal of the patterns is met by the characters
    that [str.lower] takes to it. *)
Lemma hits_lit (x c : ascii) :
  x ∈ Py.chars "._jpegof" →
  Combine.hits true (Ascii.eqb x) c = Ascii.eqb (Py.lower_char c) x.
Proof.
  intros Hx. repeat (apply elem_of_cons in Hx as [->|Hx]);
    [each_char c; reflexivity..|by apply elem_of_nil in Hx].
Qed.

Lemma digit_not_lit (x c : ascii) :
  x ∈ Py.chars "._jpegof" →
  Combine.digit c = true → Ascii.eqb (Py.lower_char c) x = false.
Proof.
  intros Hx. repeat (apply elem_of_cons in Hx as [->|Hx]);
    [each_char c; done..|by apply elem_of_nil in Hx].
Qed.

Lemma span_ext (p q : ascii -> bool) (s : string) :
  (∀ c, p c = q c) → span p s = span q s.
Proof.
  intros Hpq. induction s as [|c s IH]; [done|].
  cbn [span]. by rewrite Hpq, IH.
Qed.

Lemma take_string_app (a b : string) :
  Combine.take_string (String.length (a +:+ b) - String.length b) (a +:+ b)
  = a.
Proof.
  rewrite length_app_string.
  replace (String.length a + String.length b - String.length b)%nat
    with (String.length a) by lia.
  induction a as [|c a IH]; [by destruct (_ +:+ _)|].
  rewrite append_cons. cbn [String.length Combine.take_string]. by rewrite IH.
Qed.

(** The group of the code, read without backtracking when what follows
    cannot start with a digit. *)
Lemma match_CODE (s : string) (groups : list string)
    (k : string -> list string -> option (list string)) :
  (∀ c s' g, Combine.digit c = true → k (String c s') g = None) →
  Combine.match_at true Combine.CODE s groups k
  = let '(letters, r1) := span Combine.letter s in
    let '(digits, r2) := span Combine.digit r1 in
    if in_range 1 (Some 2%nat) (String.length letters)
       && in_range 1 (Some 3%nat) (String.length digits)
    then k r2 (groups ++ [letters +:+ digits]) else None.
Proof.
  intros Hk. unfold Combine.CODE.
  cbn [Combine.match_at Combine.seq foldr].
  rewrite greedy_span.
  - rewrite (span_ext _ _ s hits_letter).
    destruct (span Combine.letter s) as [letters r1] eqn:H1.
    rewrite greedy_span.
    + rewrite (span_ext _ _ r1 hits_digit).
      destruct (span Combine.digit r1) as [digits r2] eqn:H2.
      apply span_inv in H1 as (-> & _ & _).
      apply span_inv in H2 as (-> & _ & _).
      rewrite <- append_assoc, take_string_app.
      by destruct (in_range 1 _ _), (in_range 1 _ _).
    + intros c s' Hc. rewrite hits_digit in Hc. by apply Hk.
  - intros c s' Hc. rewrite hits_letter in Hc.
    cbn [Combine.greedy]. rewrite hits_digit, (letter_not_digit c Hc). done.
Qed.

Lemma lower_is (x : ascii) (s t : string) :
  Py.lower s = String x t ↔
  ∃ c s', s = String c s' ∧ Py.lower_char c = x ∧ Py.lower s' = t.
Proof.
  split.
  - destruct s as [|c s']; [done|]. intros [= <- <-]. by exists c, s'.
  - by intros (c & s' & -> & <- & <-).
Qed.

Lemma lower_nil (s : string) : Py.lower s = "" ↔ s = "".
Proof. by destruct s. Qed.

Lemma match_JPEG (s : string) (groups groups' : list string) :
  Combine.match_at true (Combine.seq Combine.JPEG) s groups
    (fun _ g => Some g) = Some groups'
  ↔ groups' = groups ∧ is_jpeg_end s.
Proof.
  unfold Combine.JPEG, Combine.lit.
  cbn [Combine.match_at Combine.seq foldr].
  split.
  - destruct s as [|c1 s]; [done|].
    rewrite hits_lit by lit_char.
    destruct (Ascii.eqb_spec (Py.lower_char c1) "."%char) as [H1|]; [|done].
    destruct s as [|c2 s]; [done|].
    rewrite hits_lit by lit_char.
    destruct (Ascii.eqb_spec (Py.lower_char c2) "j"%char) as [H2|]; [|done].
    destruct s as [|c3 s]; [done|].
    rewrite hits_lit by lit_char.
    destruct (Ascii.eqb_spec (Py.lower_char c3) "p"%char) as [H3|]; [|done].
    rewrite greedy_span.
    2:{ intros c s' Hc. rewrite !hits_lit in * by lit_char.
        apply Ascii.eqb_eq in Hc. rewrite Hc. done. }
    destruct (span _ s) as [pre rest] eqn:Hspan.
    apply span_inv in Hspan as (-> & Hpre & _).
    destruct (in_range _ _ _) eqn:Hrange; [|done].
    destruct rest as [|c5 r]; [done|].
    rewrite hits_lit by lit_char.
    destruct (Ascii.eqb_spec (Py.lower_char c5) "g"%char) as [H5|]; [|done].
    destruct (orb _ _) eqn:Hend; [|done]. intros [= <-]. split; [done|].
    exists (String c1 (String c2 (String c3 (pre +:+ String c5 "")))), r.
    split_and!.
    + by rewrite !append_cons, append_assoc, append_cons, append_nil.
    + destruct pre as [|c4 [|? ?]]; [| |done].
      * rewrite append_nil. cbn [Py.lower]. rewrite H1, H2, H3, H5.
        set_solver.
      * apply Forall_cons in Hpre as [H4 _].
        rewrite hits_lit in H4 by lit_char.
        apply Ascii.eqb_eq in H4.
        rewrite append_cons, append_nil. cbn [Py.lower].
        rewrite H1, H2, H3, H4, H5. set_solver.
    + apply orb_true_iff in Hend as [->%String.eqb_eq| ->%String.eqb_eq];
        set_solver.
  - intros (-> & ext & nl & -> & Hext & Hnl).
    assert (String.eqb nl "" || String.eqb nl (String Py.LF "") = true)
      as Hend.
    { apply elem_of_cons in Hnl as [->|Hnl]; [done|].
      apply list_elem_of_singleton in Hnl as ->. done. }
    apply elem_of_cons in Hext as [Hext|Hext];
      [|apply list_elem_of_singleton in Hext].
    + apply lower_is in Hext as (c1 & ? & -> & H1 & Hext).
      apply lower_is in Hext as (c2 & ? & -> & H2 & Hext).
      apply lower_is in Hext as (c3 & ? & -> & H3 & Hext).
      apply lower_is in Hext as (c4 & ? & -> & H4 & ->%lower_nil).
      rewrite !append_cons, append_nil.
      rewrite !hits_lit by lit_char.
      rewrite H1, H2, H3. cbn [Ascii.eqb Bool.eqb andb].
      cbn [Combine.greedy]. rewrite !hits_lit by lit_char.
      rewrite H4. cbn. by rewrite Hend.
    + apply lower_is in Hext as (c1 & ? & -> & H1 & Hext).
      apply lower_is in Hext as (c2 & ? & -> & H2 & Hext).
      apply lower_is in Hext as (c3 & ? & -> & H3 & Hext).
      apply lower_is in Hext as (c4 & ? & -> & H4 & Hext).
      apply lower_is in Hext as (c5 & ? & -> & H5 & ->%lower_nil).
      rewrite !append_cons, append_nil.
      rewrite !hits_lit by lit_char.
      rewrite H1, H2, H3. cbn [Ascii.eqb Bool.eqb andb].
      cbn [Combine.greedy]. rewrite !hits_lit by lit_char.
      rewrite H4, H5. cbn. by rewrite Hend.
Qed.

Lemma in_range_spec (lo : nat) (hi : option nat) (n : nat) :
  in_range lo hi n = true
  ↔ (lo ≤ n)%nat ∧ match hi with Some h => (n ≤ h)%nat | None => True end.
Proof.
  unfold in_range. rewrite andb_true_iff, Nat.leb_le.
  destruct hi; [by rewrite Nat.leb_le|tauto].
Qed.

Lemma match_lit (x : ascii) (r : Combine.regex) (s : string)
    (groups : list string)
    (k : string -> list string -> option (list string)) :
  x ∈ Py.chars "._jpegof" →
  Combine.match_at true (Combine.Cat (Combine.lit x) r) s groups k
  = match s with
    | String c s' =>
        if Ascii.eqb (Py.lower_char c) x
        then Combine.match_at true r s' groups k else None
    | EmptyString => None
    end.
Proof.
  intros Hx. cbn [Combine.match_at Combine.lit].
  destruct s as [|c s']; [done|]. by rewrite hits_lit.
Qed.

Lemma match_lit_digit (x : ascii) (r : Combine.regex) (c : ascii)
    (s : string) (groups : list string)
    (k : string -> list string -> option (list string)) :
  x ∈ Py.chars "._jpegof" → Combine.digit c = true →
  Combine.match_at true (Combine.Cat (Combine.lit x) r) (String c s) groups k
  = None.
Proof. intros Hx Hc. by rewrite match_lit, digit_not_lit. Qed.

(** A group of digits, read without backtracking when what follows cannot
    start with a digit. *)
Lemma match_number (s : string) (groups : list string)
    (k : string -> list string -> option (list string)) :
  (∀ c s' g, Combine.digit c = true → k (String c s') g = None) →
  Combine.match_at true (Combine.Group (Combine.Rep Combine.digit 1 None))
    s groups k
  = let '(digits, rest) := span Combine.digit s in
    if in_range 1 None (String.length digits)
    then k rest (groups ++ [digits]) else None.
Proof.
  intros Hk. cbn [Combine.match_at]. rewrite greedy_span.
  - rewrite (span_ext _ _ s hits_digit).
    destruct (span Combine.digit s) as [digits rest] eqn:Hspan.
    apply span_inv in Hspan as (-> & _ & _). by rewrite take_string_app.
  - intros c s' Hc. rewrite hits_digit in Hc. by apply Hk.
Qed.

Lemma jpeg_end_not_digit (tail : string) :
  is_jpeg_end tail → not_led_by Combine.digit tail.
Proof.
  intros (ext & nl & -> & Hext & _).
  assert (∃ c ext', ext = String c ext' ∧ Py.lower_char c = "."%char)
    as (c & ext' & -> & Hc).
  { apply elem_of_cons in Hext as [Hext|Hext];
      [|apply list_elem_of_singleton in Hext];
      apply lower_is in Hext as (c & ext' & -> & Hc & _); eauto. }
  rewrite append_cons. cbn [not_led_by].
  destruct (Combine.digit c) eqn:Hd; [|done].
  apply (digit_not_lit "."%char) in Hd; [|lit_char].
  rewrite Hc in Hd. done.
Qed.

Lemma digit_not_letter (c : ascii) :
  Combine.digit c = true → Combine.letter c = false.
Proof. each_char c; done. Qed.

Lemma app_not_led_by (p q : ascii -> bool) (a b : string) :
  (∀ c, q c = true → p c = false) →
  all_chars q a → a ≠ "" → not_led_by p (a +:+ b).
Proof.
  intros Hpq Ha Hne. destruct a as [|c a]; [done|].
  apply Forall_cons in Ha as [Hc _]. rewrite append_cons. by apply Hpq.
Qed.

Lemma length_nonempty (s : string) : (1 ≤ String.length s)%nat ↔ s ≠ "".
Proof. destruct s; simpl; split; (done || lia). Qed.

Lemma span_code (base tail : string) :
  is_code base → not_led_by Combine.digit tail →
  ∃ letters digits,
    base = letters +:+ digits
    ∧ span Combine.letter (base +:+ tail) = (letters, digits +:+ tail)
    ∧ span Combine.digit (digits +:+ tail) = (digits, tail)
    ∧ in_range 1 (Some 2%nat) (String.length letters) = true
    ∧ in_range 1 (Some 3%nat) (String.length digits) = true.
Proof.
  intros (letters & digits & -> & Hl & Hln & Hd & Hdn) Htail.
  exists letters, digits. split_and!; [done| | | |].
  - rewrite append_assoc. apply span_app; [done|].
    apply (app_not_led_by _ Combine.digit); [apply digit_not_letter|done|].
    apply length_nonempty. lia.
  - by apply span_app.
  - by apply in_range_spec.
  - by apply in_range_spec.
Qed.

Lemma code_span (s letters r1 digits r2 : string) :
  span Combine.letter s = (letters, r1) →
  span Combine.digit r1 = (digits, r2) →
  in_range 1 (Some 2%nat) (String.length letters) = true →
  in_range 1 (Some 3%nat) (String.length digits) = true →
  s = (letters +:+ digits) +:+ r2 ∧ is_code (letters +:+ digits).
Proof.
  intros (-> & Hl & _)%span_inv (-> & Hd & _)%span_inv Hln%in_range_spec
    Hdn%in_range_spec.
  split; [by rewrite append_assoc|]. by exists letters, digits.
Qed.

Lemma NORMAL_PATTERN_sound (name : string) (groups : list string) :
  Combine.regex_match Combine.NORMAL_PATTERN name = Some groups →
  ∃ base tail,
    name = base +:+ tail ∧ groups = [base]
    ∧ is_code base ∧ is_jpeg_end tail.
Proof.
  unfold Combine.regex_match, Combine.NORMAL_PATTERN.
  cbn [Combine.pattern Combine.IGNORECASE].
  change (Combine.seq (Combine.CODE :: Combine.JPEG))
    with (Combine.Cat Combine.CODE (Combine.seq Combine.JPEG)).
  cbn [Combine.match_at]. rewrite match_CODE.
  2:{ intros c s' g Hc. unfold Combine.JPEG.
      cbn [Combine.seq foldr]. by apply match_lit_digit; [lit_char|]. }
  destruct (span Combine.letter name) as [letters r1] eqn:H1.
  destruct (span Combine.digit r1) as [digits r2] eqn:H2.
  destruct (in_range 1 (Some 2%nat) _) eqn:Hl; [|done].
  destruct (in_range 1 (Some 3%nat) _) eqn:Hd; [|done].
  cbn [andb]. intros [-> Htail]%match_JPEG.
  destruct (code_span _ _ _ _ _ H1 H2 Hl Hd) as [-> Hcode].
  by exists (letters +:+ digits), r2.
Qed.

Lemma NORMAL_PATTERN_complete (name : string) (groups : list string) :
  (∃ base tail,
    name = base +:+ tail ∧ groups = [base]
    ∧ is_code base ∧ is_jpeg_end tail) →
  Combine.regex_match Combine.NORMAL_PATTERN name = Some groups.
Proof.
  unfold Combine.regex_match, Combine.NORMAL_PATTERN.
  cbn [Combine.pattern Combine.IGNORECASE].
  change (Combine.seq (Combine.CODE :: Combine.JPEG))
    with (Combine.Cat Combine.CODE (Combine.seq Combine.JPEG)).
  cbn [Combine.match_at]. rewrite match_CODE.
  2:{ intros c s' g Hc. unfold Combine.JPEG.
      cbn [Combine.seq foldr]. by apply match_lit_digit; [lit_char|]. }
  intros (base & tail & -> & -> & Hcode & Htail).
  destruct (span_code base tail Hcode (jpeg_end_not_digit _ Htail))
    as (letters & digits & -> & -> & -> & -> & ->).
  cbn [andb]. by apply match_JPEG.
Qed.

(** X17. [NORMAL_PATTERN] matches exactly the names made of a code (one or
    two letters, then one to three digits), the extension [.jpg] or [.jpeg]
    in any mix of cases, and nothing more than one final line feed; its
    only group is the code, in the case it is written in. *)
Theorem NORMAL_PATTERN_matches (name : string) (groups : list string) :
  Combine.regex_match Combine.NORMAL_PATTERN name = Some groups
  ↔ ∃ base tail,
      name = base +:+ tail ∧ groups = [base]
      ∧ is_code base ∧ is_jpeg_end tail.
Proof.
  split; [apply NORMAL_PATTERN_sound|apply NORMAL_PATTERN_complete].
Qed.

Lemma match_Cat (i : bool) (r1 r2 : Combine.regex) (s : string)
    (groups : list string)
    (k : string -> list string -> option (list string)) :
  Combine.match_at i (Combine.Cat r1 r2) s groups k
  = Combine.match_at i r1 s groups
      (fun rest groups' => Combine.match_at i r2 rest groups' k).
Proof. done. Qed.

Lemma lit_not_digit (x c : ascii) :
  x ∈ Py.chars "._jpegof" → Py.lower_char c = x → Combine.digit c = false.
Proof.
  intros Hx Hc. destruct (Combine.digit c) eqn:Hd; [|done].
  apply (digit_not_lit x) in Hd; [|done]. rewrite Hc in Hd.
  by rewrite Ascii.eqb_refl in Hd.
Qed.

Lemma lower_char_underscore (c : ascii) :
  Py.lower_char c = "_"%char → c = "_"%char.
Proof. each_char c; done. Qed.

Lemma span_number (digits tail : string) :
  is_number digits → not_led_by Combine.digit tail →
  span Combine.digit (digits +:+ tail) = (digits, tail)
  ∧ in_range 1 None (String.length digits) = true.
Proof.
  intros [Hd Hne] Htail. split; [by apply span_app|].
  apply in_range_spec. split; [|done]. by apply length_nonempty.
Qed.

Lemma number_span (s digits rest : string) :
  span Combine.digit s = (digits, rest) →
  in_range 1 None (String.length digits) = true →
  s = digits +:+ rest ∧ is_number digits.
Proof.
  intros (-> & Hd & _)%span_inv [Hn _]%in_range_spec.
  split; [done|]. split; [done|]. by apply length_nonempty.
Qed.

Lemma SPLIT_PATTERN_sound (name : string) (groups : list string) :
  Combine.regex_match Combine.SPLIT_PATTERN name = Some groups →
  ∃ base idx sep total tail,
    name = base +:+ "_" +:+ idx +:+ sep +:+ total +:+ tail
    ∧ groups = [base; idx; total]
    ∧ is_code base ∧ is_number idx ∧ Py.lower sep = "_of_"
    ∧ is_number total ∧ is_jpeg_end tail.
Proof.
  unfold Combine.regex_match, Combine.SPLIT_PATTERN.
  cbn [Combine.pattern Combine.IGNORECASE].
  set (NUM := Combine.Group (Combine.Rep Combine.digit 1 None)).
  change (Combine.seq _)
    with (Combine.Cat Combine.CODE
            (Combine.Cat (Combine.lit "_")
               (Combine.Cat NUM
                  (Combine.Cat (Combine.lit "_")
                     (Combine.Cat (Combine.lit "o")
                        (Combine.Cat (Combine.lit "f")
                           (Combine.Cat (Combine.lit "_")
                              (Combine.Cat NUM
                                 (Combine.seq Combine.JPEG))))))))).
  rewrite match_Cat, match_CODE.
  2:{ intros c s' g Hc. by apply match_lit_digit; [lit_char|]. }
  assert (∀ c s' g,
            Combine.digit c = true →
            Combine.match_at true (Combine.seq Combine.JPEG) (String c s') g
              (fun _ g' => Some g') = None) as Hjpeg.
  { intros c s' g Hc. unfold Combine.JPEG. cbn [Combine.seq foldr].
    by apply match_lit_digit; [lit_char|]. }
  destruct (span Combine.letter name) as [letters r1] eqn:H1.
  destruct (span Combine.digit r1) as [digits r2] eqn:H2.
  destruct (in_range 1 (Some 2%nat) _) eqn:Hl; [|done].
  destruct (in_range 1 (Some 3%nat) _) eqn:Hd; [|done].
  cbn [andb app].
  destruct (code_span _ _ _ _ _ H1 H2 Hl Hd) as [-> Hcode].
  rewrite match_lit by lit_char. destruct r2 as [|c1 r2]; [done|].
  destruct (Ascii.eqb_spec (Py.lower_char c1) "_"%char)
    as [->%lower_char_underscore|]; [|done].
  rewrite match_Cat. unfold NUM at 1. rewrite match_number.
  2:{ intros c s' g Hc. by apply match_lit_digit; [lit_char|]. }
  destruct (span Combine.digit r2) as [idx r3] eqn:H3.
  destruct (in_range 1 None (String.length idx)) eqn:Hi; [|done].
  destruct (number_span _ _ _ H3 Hi) as [-> Hidx].
  rewrite match_lit by lit_char. destruct r3 as [|c2 r3]; [done|].
  destruct (Ascii.eqb_spec (Py.lower_char c2) "_"%char) as [E2|]; [|done].
  rewrite match_lit by lit_char. destruct r3 as [|c3 r3]; [done|].
  destruct (Ascii.eqb_spec (Py.lower_char c3) "o"%char) as [E3|]; [|done].
  rewrite match_lit by lit_char. destruct r3 as [|c4 r3]; [done|].
  destruct (Ascii.eqb_spec (Py.lower_char c4) "f"%char) as [E4|]; [|done].
  rewrite match_lit by lit_char. destruct r3 as [|c5 r3]; [done|].
  destruct (Ascii.eqb_spec (Py.lower_char c5) "_"%char) as [E5|]; [|done].
  rewrite match_Cat. unfold NUM. rewrite match_number by done.
  destruct (span Combine.digit r3) as [total r4] eqn:H4.
  destruct (in_range 1 None (String.length total)) eqn:Ht; [|done].
  destruct (number_span _ _ _ H4 Ht) as [-> Htotal].
  intros [-> Htail]%match_JPEG.
  exists (letters +:+ digits), idx,
    (String c2 (String c3 (String c4 (String c5 "")))), total, r4.
  split_and!; try done.
  cbn [Py.lower]. by rewrite E2, E3, E4, E5.
Qed.

Lemma SPLIT_PATTERN_complete (name : string) (groups : list string) :
  (∃ base idx sep total tail,
    name = base +:+ "_" +:+ idx +:+ sep +:+ total +:+ tail
    ∧ groups = [base; idx; total]
    ∧ is_code base ∧ is_number idx ∧ Py.lower sep = "_of_"
    ∧ is_number total ∧ is_jpeg_end tail) →
  Combine.regex_match Combine.SPLIT_PATTERN name = Some groups.
Proof.
  unfold Combine.regex_match, Combine.SPLIT_PATTERN.
  cbn [Combine.pattern Combine.IGNORECASE].
  set (NUM := Combine.Group (Combine.Rep Combine.digit 1 None)).
  change (Combine.seq _)
    with (Combine.Cat Combine.CODE
            (Combine.Cat (Combine.lit "_")
               (Combine.Cat NUM
                  (Combine.Cat (Combine.lit "_")
                     (Combine.Cat (Combine.lit "o")
                        (Combine.Cat (Combine.lit "f")
                           (Combine.Cat (Combine.lit "_")
                              (Combine.Cat NUM
                                 (Combine.seq Combine.JPEG))))))))).
  rewrite match_Cat, match_CODE.
  2:{ intros c s' g Hc. by apply match_lit_digit; [lit_char|]. }
  assert (∀ c s' g,
            Combine.digit c = true →
            Combine.match_at true (Combine.seq Combine.JPEG) (String c s') g
              (fun _ g' => Some g') = None) as Hjpeg.
  { intros c s' g Hc. unfold Combine.JPEG. cbn [Combine.seq foldr].
    by apply match_lit_digit; [lit_char|]. }
  intros (base & idx & sep & total & tail & -> & -> & Hcode & Hidx & Hsep
          & Htotal & Htail).
  apply lower_is in Hsep as (c2 & ? & -> & E2 & Hsep).
  apply lower_is in Hsep as (c3 & ? & -> & E3 & Hsep).
  apply lower_is in Hsep as (c4 & ? & -> & E4 & Hsep).
  apply lower_is in Hsep as (c5 & ? & -> & E5 & ->%lower_nil).
  rewrite !append_cons, !append_nil.
  destruct (span_code base (String "_" (idx +:+
              String c2 (String c3 (String c4 (String c5
                (total +:+ tail)))))) Hcode eq_refl)
    as (letters & digits & -> & -> & -> & -> & ->).
  cbn [andb app].
  rewrite match_lit by lit_char.
  change (Ascii.eqb (Py.lower_char "_") "_") with true. cbv iota.
  rewrite match_Cat. unfold NUM at 1. rewrite match_number.
  2:{ intros c s' g Hc. by apply match_lit_digit; [lit_char|]. }
  destruct (span_number idx
              (String c2 (String c3 (String c4 (String c5
                 (total +:+ tail))))) Hidx) as [-> ->].
  { by apply (lit_not_digit "_"%char); [lit_char|]. }
  rewrite match_lit, E2 by lit_char.
  change (Ascii.eqb "_" "_") with true. cbv iota.
  rewrite match_lit, E3 by lit_char.
  change (Ascii.eqb "o" "o") with true. cbv iota.
  rewrite match_lit, E4 by lit_char.
  change (Ascii.eqb "f" "f") with true. cbv iota.
  rewrite match_lit, E5 by lit_char.
  change (Ascii.eqb "_" "_") with true. cbv iota.
  rewrite match_Cat. unfold NUM. rewrite match_number by done.
  destruct (span_number total tail Htotal (jpeg_end_not_digit _ Htail))
    as [-> ->].
  by apply match_JPEG.
Qed.

(** X18. [SPLIT_PATTERN] matches exactly the names made of a code, an
    underscore, a number, the word [_of_] in any mix of cases, a number,
    the extension [.jpg] or [.jpeg] in any mix of cases, and nothing more
    than one final line feed; its groups are the code and the two numbers
    as they are written. *)
Theorem SPLIT_PATTERN_matches (name : string) (groups : list string) :
  Combine.regex_match Combine.SPLIT_PATTERN name = Some groups
  ↔ ∃ base idx sep total tail,
      name = base +:+ "_" +:+ idx +:+ sep +:+ total +:+ tail
      ∧ groups = [base; idx; total]
      ∧ is_code base ∧ is_number idx ∧ Py.lower sep = "_of_"
      ∧ is_number total ∧ is_jpeg_end tail.
Proof.
  split; [apply SPLIT_PATTERN_sound|apply SPLIT_PATTERN_complete].
Qed.

(** No name matches both patterns: after the code a split name goes on
    with an underscore and a whole name with a full stop. *)
Lemma patterns_disjoint (name : string) :
  Combine.regex_match Combine.SPLIT_PATTERN name = None
  ∨ Combine.regex_match Combine.NORMAL_PATTERN name = None.
Proof.
  unfold Combine.regex_match, Combine.SPLIT_PATTERN, Combine.NORMAL_PATTERN.
  cbn [Combine.pattern Combine.IGNORECASE].
  change (Combine.seq (Combine.CODE :: Combine.JPEG))
    with (Combine.Cat Combine.CODE
            (Combine.Cat (Combine.lit ".")
               (Combine.seq (tail Combine.JPEG)))).
  change (Combine.seq (_ ++ _))
    with (Combine.Cat Combine.CODE
            (Combine.Cat (Combine.lit "_")
               (Combine.seq
                  ([Combine.Group (Combine.Rep Combine.digit 1 None);
                    Combine.lit "_"; Combine.lit "o"; Combine.lit "f";
                    Combine.lit "_";
                    Combine.Group (Combine.Rep Combine.digit 1 None)]
                   ++ Combine.JPEG)))).
  rewrite !match_Cat, !match_CODE
    by (intros c s' g Hc; by apply match_lit_digit; [lit_char|]).
  destruct (span Combine.letter name) as [letters r1].
  destruct (span Combine.digit r1) as [digits r2].
  destruct (_ && _); [|by left].
  rewrite !match_lit by lit_char. destruct r2 as [|c r2]; [by left|].
  destruct (Ascii.eqb_spec (Py.lower_char c) "_"%char) as [->|]; [|by left].
  by right.
Qed.

(** ** The scan of the input directory *)

Lemma SPLIT_PATTERN_groups (file : string) (groups : list string) :
  Combine.regex_match Combine.SPLIT_PATTERN file = Some groups →
  ∃ base idx total, groups = [base; idx; total].
Proof.
  intros (base & idx & _ & total & _ & _ & -> & _)%SPLIT_PATTERN_sound.
  by exists base, idx, total.
Qed.

Lemma get_setdefault_append (base b : string) (part : Z * string)
    (grouped : list (string * list (Z * string))) :
  get base (Combine.setdefault_append b part grouped)
  = if String.eqb b base then get base grouped ++ [part]
    else get base grouped.
Proof.
  induction grouped as [|[b' parts] grouped IH].
  - cbn [Combine.setdefault_append get]. by destruct (String.eqb b base).
  - cbn [Combine.setdefault_append get].
    destruct (String.eqb_spec b' b) as [->|Hb'].
    + cbn [get]. by destruct (String.eqb b base).
    + cbn [get]. destruct (String.eqb_spec b' base) as [->|Hbase]; [|done].
      by destruct (String.eqb_spec b base) as [->|].
Qed.

Lemma keys_setdefault_append (b : string) (part : Z * string)
    (grouped : list (string * list (Z * string))) :
  (Combine.setdefault_append b part grouped).*1
  = if bool_decide (b ∈ grouped.*1) then grouped.*1 else grouped.*1 ++ [b].
Proof.
  induction grouped as [|[b' parts] grouped IH]; [done|].
  cbn [Combine.setdefault_append]. rewrite !fmap_cons. cbn [fst].
  destruct (String.eqb_spec b' b) as [->|Hb'].
  - rewrite bool_decide_eq_true_2 by apply list_elem_of_here. done.
  - rewrite fmap_cons, IH. cbn [fst].
    destruct (decide (b ∈ grouped.*1)).
    + rewrite !bool_decide_eq_true_2;
        [done|by apply list_elem_of_further|done].
    + rewrite !bool_decide_eq_false_2; [done| |done].
      intros [?|?]%elem_of_cons; congruence.
Qed.

Lemma scan_snoc (files : list string) (file : string) :
  Combine.scan (files ++ [file])
  = Combine.scan_file (Combine.scan files) file.
Proof. unfold Combine.scan. by rewrite foldl_app. Qed.

Lemma get_elem_of (base : string) (parts : list (Z * string))
    (grouped : list (string * list (Z * string))) :
  NoDup grouped.*1 →
  (base, parts) ∈ grouped ↔ base ∈ grouped.*1 ∧ get base grouped = parts.
Proof.
  induction grouped as [|[b ps] grouped IH]; intros Hnd.
  - split; [by intros ?%elem_of_nil|by intros [?%elem_of_nil _]].
  - rewrite fmap_cons in Hnd. cbn [fst] in Hnd.
    apply NoDup_cons in Hnd as [Hb Hnd]. specialize (IH Hnd).
    rewrite fmap_cons. cbn [fst get]. rewrite !elem_of_cons, IH.
    destruct (String.eqb_spec b base) as [->|Hne].
    + split.
      * intros [[= ->]|[? _]]; [|done]. by split; [left|].
      * intros [_ ->]. by left.
    + split.
      * intros [[= ? ?]|[? ?]]; [congruence|]. by split; [right|].
      * intros [[?|?] ?]; [congruence|]. by right.
Qed.

Lemma scan_invariant (files : list string) :
  (Combine.scan files).2 = filter (fun f => is_normal f = true) files
  ∧ NoDup (Combine.scan files).1.*1
  ∧ (∀ base, get base (Combine.scan files).1 = parts_of base files)
  ∧ (∀ base, base ∈ (Combine.scan files).1.*1
             ↔ parts_of base files ≠ []).
Proof.
  induction files as [|file files IH] using rev_ind.
  - split_and!; [done|constructor|done|].
    intros base. split; [by intros ?%elem_of_nil|done].
  - rewrite scan_snoc. destruct IH as (Hs & Hnd & Hget & Hkeys).
    destruct (Combine.scan files) as [grouped singles].
    cbn [fst snd] in *. unfold Combine.scan_file.
    assert (∀ base, parts_of base (files ++ [file])
                    = parts_of base files
                      ++ match part_of base file with
                         | Some p => [p] | None => []
                         end) as Hparts.
    { intros base. unfold parts_of. rewrite omap_app. cbn [omap list_omap].
      by destruct (part_of base file). }
    rewrite filter_app, filter_cons, filter_nil.
    destruct (Combine.regex_match Combine.SPLIT_PATTERN file)
      as [groups|] eqn:Hsplit.
    + destruct (SPLIT_PATTERN_groups _ _ Hsplit) as (b & idx & total & ->).
      assert (is_normal file = false) as Hn.
      { unfold is_normal.
        destruct (patterns_disjoint file) as [?| ->]; [congruence|done]. }
      assert (∀ base, part_of base file
                      = if String.eqb b base
                        then Some (Combine.int idx, file) else None) as Hpart.
      { intros base. unfold part_of. by rewrite Hsplit. }
      cbn [fst snd]. rewrite Hn, decide_False by done.
      split_and!.
      * by rewrite Hs, app_nil_r.
      * rewrite keys_setdefault_append. case_bool_decide; [done|].
        apply NoDup_app. split_and!; [done| |by apply NoDup_singleton].
        by intros x ? ->%list_elem_of_singleton.
      * intros base. rewrite get_setdefault_append, Hparts, Hpart, Hget.
        destruct (String.eqb b base); [done|by rewrite app_nil_r].
      * intros base. rewrite keys_setdefault_append, Hparts, Hpart.
        destruct (String.eqb_spec b base) as [->|Hne].
        -- split; [by destruct (parts_of base files)|intros _].
           case_bool_decide; [done|]. apply elem_of_app. right.
           by apply list_elem_of_singleton.
        -- rewrite app_nil_r, <- Hkeys. case_bool_decide; [done|].
           rewrite elem_of_app, list_elem_of_singleton.
           split; [intros [?|?]; [done|congruence]|by left].
    + assert (∀ base, parts_of base (files ++ [file]) = parts_of base files)
        as Hsame.
      { intros base. rewrite Hparts. unfold part_of.
        by rewrite Hsplit, app_nil_r. }
      destruct (Combine.regex_match Combine.NORMAL_PATTERN file) eqn:Hn;
        cbn [fst snd].
      * assert (is_normal file = true) as Hn'
          by (unfold is_normal; by rewrite Hn).
        rewrite decide_True by done. split_and!; [by rewrite Hs|done| |].
        -- intros base. by rewrite Hsame.
        -- intros base. by rewrite Hsame.
      * assert (is_normal file = false) as Hn'
          by (unfold is_normal; by rewrite Hn).
        rewrite Hn', decide_False by done. split_and!;
          [by rewrite Hs, app_nil_r|done| |].
        -- intros base. by rewrite Hsame.
        -- intros base. by rewrite Hsame.
Qed.

(** X19. What the scan collects.  [singles] holds the files that match
    [NORMAL_PATTERN], in the order of the directory listing.  [grouped] has
    every key once, and a key goes with the parts of all the files that
    match [SPLIT_PATTERN] with that very code, letter case included, in the
    order of the listing; no group is empty, and the total a name announces
    is not looked at. *)
Theorem scan_collects (files : list string) :
  (Combine.scan files).2 = filter (fun f => is_normal f = true) files
  ∧ NoDup (Combine.scan files).1.*1
  ∧ ∀ base parts,
      (base, parts) ∈ (Combine.scan files).1
      ↔ parts = parts_of base files ∧ parts ≠ [].
Proof.
  destruct (scan_invariant files) as (Hs & Hnd & Hget & Hkeys).
  split_and!; [done..|]. intros base parts.
  rewrite (get_elem_of _ _ _ Hnd), Hkeys, Hget.
  split; [by intros [? <-]|by intros [-> ?]].
Qed.

(** ** The order of the parts *)

Lemma insert_part_Permutation (part : Z * string)
    (sorted : list (Z * string)) :
  Combine.insert_part part sorted ≡ₚ part :: sorted.
Proof.
  induction sorted as [|q sorted IH]; [done|]. cbn [Combine.insert_part].
  destruct (part.1 <=? q.1); [done|]. rewrite IH. apply Permutation_swap.
Qed.

Lemma insert_part_sorted (part : Z * string) (sorted : list (Z * string)) :
  StronglySorted (fun p q => p.1 ≤ q.1) sorted →
  StronglySorted (fun p q => p.1 ≤ q.1) (Combine.insert_part part sorted).
Proof.
  induction 1 as [|q sorted Hsorted IH Hq]; cbn [Combine.insert_part].
  - by repeat constructor.
  - destruct (Z.leb_spec part.1 q.1) as [Hle|Hlt].
    + constructor; [by constructor|]. constructor; [done|].
      eapply Forall_impl; [exact Hq|]. intros r Hr. simpl in *. lia.
    + constructor; [done|]. rewrite insert_part_Permutation.
      constructor; [lia|done].
Qed.

Lemma insert_part_filter (i : Z) (part : Z * string)
    (sorted : list (Z * string)) :
  filter (fun p => p.1 = i) (Combine.insert_part part sorted)
  = filter (fun p => p.1 = i) (part :: sorted).
Proof.
  induction sorted as [|q sorted IH]; [done|]. cbn [Combine.insert_part].
  destruct (Z.leb_spec part.1 q.1) as [Hle|Hlt]; [done|].
  rewrite filter_cons, IH, !filter_cons.
  destruct (decide (q.1 = i)), (decide (part.1 = i)); try done. lia.
Qed.

(** X20. The parts of a group are put in ascending order of their index
    read as a number, so that part 10 comes after part 2; no part is lost or
    doubled, and parts of equal index keep the order of the directory
    listing. *)
Theorem sort_parts_stable (parts : list (Z * string)) :
  Combine.sort_parts parts ≡ₚ parts
  ∧ StronglySorted (fun p q => p.1 ≤ q.1) (Combine.sort_parts parts)
  ∧ ∀ i, filter (fun p => p.1 = i) (Combine.sort_parts parts)
         = filter (fun p => p.1 = i) parts.
Proof.
  unfold Combine.sort_parts. induction parts as [|part parts IH].
  - split_and!; [done|constructor|done].
  - destruct IH as (Hperm & Hsorted & Hstable). cbn [foldr]. split_and!.
    + by rewrite insert_part_Permutation, Hperm.
    + by apply insert_part_sorted.
    + intros i. by rewrite insert_part_filter, !filter_cons, Hstable.
Qed.

(** ** The layout of the merged images *)

Lemma raising_mapM_Returns {A B} (f : A -> Combine.raising B) (l : list A)
    (l' : list B) :
  Combine.mapM f l = Combine.Returns l'
  ↔ Forall2 (fun x y => f x = Combine.Returns y) l l'.
Proof.
  revert l'. induction l as [|x l IH]; intros l'; cbn [Combine.mapM].
  - split; [by intros [= <-]; constructor|by inversion 1].
  - destruct (f x) as [y|e] eqn:Hx; cbn [mbind Combine.raising_bind].
    + destruct (Combine.mapM f l) as [ys|e] eqn:Hl;
        cbn [mbind Combine.raising_bind].
      * split.
        -- intros [= <-]. constructor; [done|]. by apply IH.
        -- inversion 1 as [|???? Hy Hys]; subst. apply IH in Hys.
           congruence.
      * split; [done|]. inversion 1 as [|???? Hy Hys]; subst.
        apply IH in Hys. done.
    + split; [done|]. inversion 1; congruence.
Qed.

Lemma foldl_max (x : Z) (l : list Z) :
  foldl Z.max x l ∈ x :: l ∧ Forall (fun y => y ≤ foldl Z.max x l) (x :: l).
Proof.
  revert x. induction l as [|y l IH]; intros x; cbn [foldl].
  - split; [apply list_elem_of_here|]. by repeat constructor.
  - destruct (IH (Z.max x y)) as [Hin Hall].
    apply Forall_cons in Hall as [Hm Hall]. split.
    + apply elem_of_cons in Hin as [Hin|Hin].
      * rewrite Hin. destruct (Z.max_spec x y) as [[_ ->]|[_ ->]].
        -- apply list_elem_of_further, list_elem_of_here.
        -- apply list_elem_of_here.
      * by do 2 apply list_elem_of_further.
    + constructor; [lia|]. constructor; [lia|done].
Qed.

Lemma py_max_Returns (l : list Z) (m : Z) :
  Combine.py_max l = Combine.Returns m → m ∈ l ∧ Forall (fun y => y ≤ m) l.
Proof.
  destruct l as [|x l]; [done|]. intros [= <-]. apply foldl_max.
Qed.

Lemma sum_from (a : Z) (l : list Z) :
  foldl Z.add a l = a + Combine.sum l.
Proof.
  unfold Combine.sum. revert a. induction l as [|x l IH]; intros a.
  - simpl. lia.
  - cbn [foldl]. rewrite (IH (a + x)), (IH (0 + x)). lia.
Qed.

Lemma sum_cons (x : Z) (l : list Z) :
  Combine.sum (x :: l) = x + Combine.sum l.
Proof. unfold Combine.sum at 1. cbn [foldl]. by rewrite sum_from. Qed.

Lemma resize_Returns (img r : Combine.Image) (size : Z * Z) :
  Combine.resize img size = Combine.Returns r →
  r = Combine.Resized img size.1 size.2 ∧ 1 ≤ size.1 ∧ 1 ≤ size.2.
Proof.
  unfold Combine.resize.
  destruct (Z.ltb_spec size.1 1), (Z.ltb_spec size.2 1); try done.
  by intros [= <-].
Qed.

Lemma resize_to_width_Returns (img r : Combine.Image) (target_width : Z) :
  Combine.resize_to_width img target_width = Combine.Returns r →
  Combine.width r = target_width ∧ resized_from img r
  ∧ (Combine.width img = target_width → r = img).
Proof.
  unfold Combine.resize_to_width.
  destruct (Z.eqb_spec (Combine.width img) target_width) as [Hw|Hw].
  - intros [= <-]. split_and!; [done|by left|done].
  - destruct (Combine.truediv _ _) as [ratio|]; [|done].
    cbn [mbind Combine.raising_bind].
    destruct (Combine.scale _ _) as [new_height|]; [|done].
    cbn [mbind Combine.raising_bind].
    intros (-> & ? & ?)%resize_Returns. split_and!; [done| |done].
    right. by eexists _, _.
Qed.

Lemma resize_to_height_Returns (img r : Combine.Image) (target_height : Z) :
  Combine.resize_to_height img target_height = Combine.Returns r →
  Combine.height r = target_height ∧ resized_from img r
  ∧ (Combine.height img = target_height → r = img).
Proof.
  unfold Combine.resize_to_height.
  destruct (Z.eqb_spec (Combine.height img) target_height) as [Hw|Hw].
  - intros [= <-]. split_and!; [done|by left|done].
  - destruct (Combine.truediv _ _) as [ratio|]; [|done].
    cbn [mbind Combine.raising_bind].
    destruct (Combine.scale _ _) as [new_width|]; [|done].
    cbn [mbind Combine.raising_bind].
    intros (-> & ? & ?)%resize_Returns. split_and!; [done| |done].
    right. by eexists _, _.
Qed.

Lemma paste_down_Canvas (w h y : Z) (pasted : list Combine.Pasted)
    (resized : list Combine.Image) :
  ∃ pasted',
    Combine.paste_down (Combine.Canvas w h pasted) y resized
    = Combine.Canvas w h (pasted ++ pasted')
    ∧ image_of <$> pasted' = resized
    ∧ stacked_down y pasted' (y + Combine.sum (Combine.height <$> resized)).
Proof.
  revert y pasted. induction resized as [|img resized IH]; intros y pasted.
  - exists []. rewrite app_nil_r. split_and!; [done..|].
    cbn. unfold Combine.sum. simpl. lia.
  - cbn [Combine.paste_down Combine.paste].
    destruct (IH (y + Combine.height img) (pasted ++ [Combine.At img (0, y)]))
      as (pasted' & -> & <- & Hstacked).
    exists (Combine.At img (0, y) :: pasted').
    rewrite <- app_assoc. split_and!; [done..|].
    cbn [stacked_down]. split; [done|].
    rewrite fmap_cons, sum_cons. by rewrite Z.add_assoc.
Qed.

Lemma paste_right_Canvas (w h x : Z) (pasted : list Combine.Pasted)
    (resized : list Combine.Image) :
  ∃ pasted',
    Combine.paste_right (Combine.Canvas w h pasted) x resized
    = Combine.Canvas w h (pasted ++ pasted')
    ∧ image_of <$> pasted' = resized
    ∧ stacked_right x pasted' (x + Combine.sum (Combine.width <$> resized)).
Proof.
  revert x pasted. induction resized as [|img resized IH]; intros x pasted.
  - exists []. rewrite app_nil_r. split_and!; [done..|].
    cbn. unfold Combine.sum. simpl. lia.
  - cbn [Combine.paste_right Combine.paste].
    destruct (IH (x + Combine.width img) (pasted ++ [Combine.At img (x, 0)]))
      as (pasted' & -> & <- & Hstacked).
    exists (Combine.At img (x, 0) :: pasted').
    rewrite <- app_assoc. split_and!; [done..|].
    cbn [stacked_right]. split; [done|].
    rewrite fmap_cons, sum_cons. by rewrite Z.add_assoc.
Qed.

Lemma new_Returns (size : Z * Z) (canvas : Combine.Image) :
  Combine.new size = Combine.Returns canvas →
  canvas = Combine.Canvas size.1 size.2 [].
Proof.
  unfold Combine.new. destruct (_ || _); [done|]. by intros [= <-].
Qed.

(** X21. When [combine_vertical] returns, the result is a canvas as wide
    as the widest image, on which every image is pasted once, in the order
    given, as it is when it has that width and resized to that width
    otherwise.  The pastes are stacked from the top edge at the left edge
    without gap or overlap, and the last one ends at the bottom edge. *)
Theorem combine_vertical_layout (images : list Combine.Image)
    (result : Combine.Image) :
  Combine.combine_vertical images = Combine.Returns result →
  ∃ pasted,
    result = Combine.Canvas (Combine.width result) (Combine.height result)
               pasted
    ∧ Combine.width result ∈ Combine.width <$> images
    ∧ Forall (fun img => Combine.width img ≤ Combine.width result) images
    ∧ Forall2 (fun img p =>
                 resized_from img (image_of p)
                 ∧ Combine.width (image_of p) = Combine.width result
                 ∧ (Combine.width img = Combine.width result →
                    image_of p = img))
        images pasted
    ∧ stacked_down 0 pasted (Combine.height result).
Proof.
  unfold Combine.combine_vertical.
  destruct (Combine.py_max _) as [max_width|] eqn:Hmax; [|done].
  cbn [mbind Combine.raising_bind].
  destruct (Combine.mapM _ images) as [resized|] eqn:Hresized; [|done].
  cbn [mbind Combine.raising_bind].
  destruct (Combine.new _) as [canvas|] eqn:Hnew; [|done].
  cbn [mbind Combine.raising_bind]. intros [= <-].
  apply new_Returns in Hnew as ->. cbn [fst snd].
  apply py_max_Returns in Hmax as [Hin Hle].
  apply raising_mapM_Returns in Hresized.
  destruct (paste_down_Canvas max_width
              (Combine.sum (Combine.height <$> resized)) 0 [] resized)
    as (pasted & -> & <- & Hstacked).
  exists pasted. cbn [app Combine.width Combine.height].
  split_and!; [done|done|by rewrite Forall_fmap in Hle| |done].
  apply Forall2_fmap_r in Hresized.
  eapply Forall2_impl; [exact Hresized|]. intros img p.
  by intros (? & ? & ?)%resize_to_width_Returns.
Qed.

Lemma combine_vertical_layout_witness :
  ∃ pasted,
    Combine.Canvas 800 600
      [Combine.At (Combine.Resized (Combine.Opened "a" 600 300) 800 400)
         (0, 0);
       Combine.At (Combine.Opened "b" 800 200) (0, 400)]
    = Combine.Canvas 800 600 pasted
    ∧ 800 ∈ Combine.width
            <$> [Combine.Opened "a" 600 300; Combine.Opened "b" 800 200]
    ∧ Forall (fun img => Combine.width img ≤ 800)
        [Combine.Opened "a" 600 300; Combine.Opened "b" 800 200]
    ∧ Forall2 (fun img p =>
                 resized_from img (image_of p)
                 ∧ Combine.width (image_of p) = 800
                 ∧ (Combine.width img = 800 → image_of p = img))
        [Combine.Opened "a" 600 300; Combine.Opened "b" 800 200] pasted
    ∧ stacked_down 0 pasted 600.
Proof.
  refine (combine_vertical_layout
            [Combine.Opened "a" 600 300; Combine.Opened "b" 800 200]
            (Combine.Canvas 800 600
               [Combine.At
                  (Combine.Resized (Combine.Opened "a" 600 300) 800 400)
                  (0, 0);
                Combine.At (Combine.Opened "b" 800 200) (0, 400)]) _).
  vm_compute. reflexivity.
Defined.

(** X22. When [combine_horizontal] returns, the result is a canvas as high
    as the highest image, on which every image is pasted once, in the order
    given, as it is when it has that height and resized to that height
    otherwise.  The pastes are put side by side from the left edge at the
    top edge without gap or overlap, and the last one ends at the right
    edge. *)
Theorem combine_horizontal_layout (images : list Combine.Image)
    (result : Combine.Image) :
  Combine.combine_horizontal images = Combine.Returns result →
  ∃ pasted,
    result = Combine.Canvas (Combine.width result) (Combine.height result)
               pasted
    ∧ Combine.height result ∈ Combine.height <$> images
    ∧ Forall (fun img => Combine.height img ≤ Combine.height result) images
    ∧ Forall2 (fun img p =>
                 resized_from img (image_of p)
                 ∧ Combine.height (image_of p) = Combine.height result
                 ∧ (Combine.height img = Combine.height result →
                    image_of p = img))
        images pasted
    ∧ stacked_right 0 pasted (Combine.width result).
Proof.
  unfold Combine.combine_horizontal.
  destruct (Combine.py_max _) as [max_height|] eqn:Hmax; [|done].
  cbn [mbind Combine.raising_bind].
  destruct (Combine.mapM _ images) as [resized|] eqn:Hresized; [|done].
  cbn [mbind Combine.raising_bind].
  destruct (Combine.new _) as [canvas|] eqn:Hnew; [|done].
  cbn [mbind Combine.raising_bind]. intros [= <-].
  apply new_Returns in Hnew as ->. cbn [fst snd].
  apply py_max_Returns in Hmax as [Hin Hle].
  apply raising_mapM_Returns in Hresized.
  destruct (paste_right_Canvas
              (Combine.sum (Combine.width <$> resized)) max_height 0 []
              resized)
    as (pasted & -> & <- & Hstacked).
  exists pasted. cbn [app Combine.width Combine.height].
  split_and!; [done|done|by rewrite Forall_fmap in Hle| |done].
  apply Forall2_fmap_r in Hresized.
  eapply Forall2_impl; [exact Hresized|]. intros img p.
  by intros (? & ? & ?)%resize_to_height_Returns.
Qed.

Lemma combine_horizontal_layout_witness :
  ∃ pasted,
    Combine.Canvas 1800 300
      [Combine.At (Combine.Opened "a" 600 300) (0, 0);
       Combine.At (Combine.Resized (Combine.Opened "b" 800 200) 1200 300)
         (600, 0)]
    = Combine.Canvas 1800 300 pasted
    ∧ 300 ∈ Combine.height
            <$> [Combine.Opened "a" 600 300; Combine.Opened "b" 800 200]
    ∧ Forall (fun img => Combine.height img ≤ 300)
        [Combine.Opened "a" 600 300; Combine.Opened "b" 800 200]
    ∧ Forall2 (fun img p =>
                 resized_from img (image_of p)
                 ∧ Combine.height (image_of p) = 300
                 ∧ (Combine.height img = 300 → image_of p = img))
        [Combine.Opened "a" 600 300; Combine.Opened "b" 800 200] pasted
    ∧ stacked_right 0 pasted 1800.
Proof.
  refine (combine_horizontal_layout
            [Combine.Opened "a" 600 300; Combine.Opened "b" 800 200]
            (Combine.Canvas 1800 300
               [Combine.At (Combine.Opened "a" 600 300) (0, 0);
                Combine.At
                  (Combine.Resized (Combine.Opened "b" 800 200) 1200 300)
                  (600, 0)]) _).
  vm_compute. reflexivity.
Defined.

Lemma py_max_same (w : Z) (l : list Z) :
  l ≠ [] → Forall (fun x => x = w) l → Combine.py_max l = Combine.Returns w.
Proof.
  destruct l as [|x l]; [done|]. intros _ [-> Hall]%Forall_cons.
  cbn [Combine.py_max]. f_equal.
  induction Hall as [|y l -> _ IH]; [done|].
  cbn [foldl]. by rewrite Z.max_id.
Qed.

Lemma mapM_unchanged {A} (f : A -> Combine.raising A) (l : list A) :
  Forall (fun x => f x = Combine.Returns x) l →
  Combine.mapM f l = Combine.Returns l.
Proof.
  induction 1 as [|x l Hx _ IH]; [done|].
  cbn [Combine.mapM]. by rewrite Hx, IH.
Qed.

Lemma sum_nonneg (l : list Z) : Forall (fun x => 0 ≤ x) l → 0 ≤ Combine.sum l.
Proof.
  induction 1 as [|x l Hx _ IH]; [done|]. rewrite sum_cons. lia.
Qed.

(** X23. Images of one width need no resizing: [combine_vertical] returns
    without an exception, and the canvas has that width, the sum of the
    heights as its height, and the images themselves, untouched and in
    order, stacked over its whole height. *)
Theorem combine_vertical_same_width (images : list Combine.Image) (w : Z) :
  images ≠ [] → 0 ≤ w →
  Forall (fun img => Combine.width img = w ∧ 0 ≤ Combine.height img)
    images →
  ∃ pasted,
    Combine.combine_vertical images
    = Combine.Returns
        (Combine.Canvas w (Combine.sum (Combine.height <$> images)) pasted)
    ∧ image_of <$> pasted = images
    ∧ stacked_down 0 pasted (Combine.sum (Combine.height <$> images)).
Proof.
  intros Hne Hw Hall. unfold Combine.combine_vertical.
  rewrite (py_max_same w).
  2:{ by destruct images. }
  2:{ apply Forall_fmap. eapply Forall_impl; [exact Hall|]. by intros ? [? _]. }
  cbn [mbind Combine.raising_bind]. rewrite mapM_unchanged.
  2:{ eapply Forall_impl; [exact Hall|]. intros img [Himg _].
      unfold Combine.resize_to_width. by rewrite Himg, Z.eqb_refl. }
  cbn [mbind Combine.raising_bind]. unfold Combine.new. cbn [fst snd].
  assert (0 ≤ Combine.sum (Combine.height <$> images)) as Hsum.
  { apply sum_nonneg, Forall_fmap. eapply Forall_impl; [exact Hall|].
    by intros ? [_ ?]. }
  destruct (Z.ltb_spec w 0); [lia|].
  destruct (Z.ltb_spec (Combine.sum (Combine.height <$> images)) 0); [lia|].
  cbn [orb mbind Combine.raising_bind].
  destruct (paste_down_Canvas w
              (Combine.sum (Combine.height <$> images)) 0 [] images)
    as (pasted & -> & <- & Hstacked).
  by exists pasted.
Qed.

Lemma combine_vertical_same_width_witness :
  ∃ pasted,
    Combine.combine_vertical
      [Combine.Opened "a" 800 300; Combine.Opened "b" 800 200]
    = Combine.Returns (Combine.Canvas 800 500 pasted)
    ∧ image_of <$> pasted
      = [Combine.Opened "a" 800 300; Combine.Opened "b" 800 200]
    ∧ stacked_down 0 pasted 500.
Proof.
  refine (combine_vertical_same_width
            [Combine.Opened "a" 800 300; Combine.Opened "b" 800 200] 800
            _ _ _).
  - done.
  - lia.
  - repeat constructor; simpl; lia.
Defined.

(** X24. Images of one height need no resizing: [combine_horizontal]
    returns without an exception, and the canvas has that height, the sum
    of the widths as its width, and the images themselves, untouched and in
    order, side by side over its whole width. *)
Theorem combine_horizontal_same_height (images : list Combine.Image)
    (h : Z) :
  images ≠ [] → 0 ≤ h →
  Forall (fun img => Combine.height img = h ∧ 0 ≤ Combine.width img)
    images →
  ∃ pasted,
    Combine.combine_horizontal images
    = Combine.Returns
        (Combine.Canvas (Combine.sum (Combine.width <$> images)) h pasted)
    ∧ image_of <$> pasted = images
    ∧ stacked_right 0 pasted (Combine.sum (Combine.width <$> images)).
Proof.
  intros Hne Hh Hall. unfold Combine.combine_horizontal.
  rewrite (py_max_same h).
  2:{ by destruct images. }
  2:{ apply Forall_fmap. eapply Forall_impl; [exact Hall|]. by intros ? [? _]. }
  cbn [mbind Combine.raising_bind]. rewrite mapM_unchanged.
  2:{ eapply Forall_impl; [exact Hall|]. intros img [Himg _].
      unfold Combine.resize_to_height. by rewrite Himg, Z.eqb_refl. }
  cbn [mbind Combine.raising_bind]. unfold Combine.new. cbn [fst snd].
  assert (0 ≤ Combine.sum (Combine.width <$> images)) as Hsum.
  { apply sum_nonneg, Forall_fmap. eapply Forall_impl; [exact Hall|].
    by intros ? [_ ?]. }
  destruct (Z.ltb_spec (Combine.sum (Combine.width <$> images)) 0); [lia|].
  destruct (Z.ltb_spec h 0); [lia|].
  cbn [orb mbind Combine.raising_bind].
  destruct (paste_right_Canvas
              (Combine.sum (Combine.width <$> images)) h 0 [] images)
    as (pasted & -> & <- & Hstacked).
  by exists pasted.
Qed.

Lemma combine_horizontal_same_height_witness :
  ∃ pasted,
    Combine.combine_horizontal
      [Combine.Opened "a" 600 300; Combine.Opened "b" 800 300]
    = Combine.Returns (Combine.Canvas 1400 300 pasted)
    ∧ image_of <$> pasted
      = [Combine.Opened "a" 600 300; Combine.Opened "b" 800 300]
    ∧ stacked_right 0 pasted 1400.
Proof.
  refine (combine_horizontal_same_height
            [Combine.Opened "a" 600 300; Combine.Opened "b" 800 300] 300
            _ _ _).
  - done.
  - lia.
  - repeat constructor; simpl; lia.
Defined.

(** ** The output directory *)

Lemma process_Returns (open : string -> Combine.Image)
    (choose : Combine.Image -> Combine.Image -> option string)
    (grouped : list (string * list (Z * string)))
    (l : list Combine.event) :
  Combine.process open choose grouped = (l, Combine.Returns ()) →
  l = grouped ≫= group_events open choose
  ∧ Forall (fun entry => ∃ img,
              merge open choose entry.2 = Combine.Returns img) grouped.
Proof.
  revert l. induction grouped as [|[base parts] grouped IH]; intros l.
  - intros [= <-]. by split; [|constructor].
  - cbn [Combine.process]. unfold mbind at 1. cbn [list_bind].
    unfold group_events at 1, merge. cbn [fst snd].
    destruct (Combine.combine_vertical _) as [vertical|] eqn:Hv; [|done].
    destruct (Combine.combine_horizontal _) as [horizontal|] eqn:Hh;
      [|done].
    cbn [mbind Combine.raising_bind].
    destruct (Combine.process open choose grouped) as [l' r] eqn:Hrest.
    intros [= <- ->]. destruct (IH _ eq_refl) as [-> Hall].
    split; [done|]. constructor; [|done].
    unfold merge. cbn [snd]. rewrite Hv, Hh. eauto.
Qed.

Lemma write_copies (out : gmap string content) (names : list string)
    (name : string) :
  foldl write out (Combine.Copied <$> names) !! name
  = if bool_decide (name ∈ names) then Some (CopyOf name) else out !! name.
Proof.
  revert out. induction names as [|n names IH]; intros out.
  - by rewrite bool_decide_eq_false_2 by apply not_elem_of_nil.
  - rewrite fmap_cons. cbn [foldl write]. rewrite IH.
    destruct (decide (name ∈ names)) as [Hin|Hout].
    + rewrite !bool_decide_eq_true_2;
        [done|by apply list_elem_of_further|done].
    + rewrite (bool_decide_eq_false_2 _ Hout).
      destruct (decide (n = name)) as [->|Hne].
      * rewrite bool_decide_eq_true_2 by apply list_elem_of_here.
        by rewrite lookup_insert_eq.
      * rewrite bool_decide_eq_false_2.
        -- by rewrite lookup_insert_ne.
        -- intros [?|?]%elem_of_cons; congruence.
Qed.

Lemma append_inj_l (a b suffix : string) :
  a +:+ suffix = b +:+ suffix → a = b.
Proof.
  revert b. induction a as [|c a IH]; intros b H.
  - destruct b as [|d b]; [done|]. apply (f_equal String.length) in H.
    rewrite append_nil, length_app_string in H. simpl in H. lia.
  - destruct b as [|d b].
    + apply (f_equal String.length) in H.
      rewrite append_nil, length_app_string in H. simpl in H. lia.
    + rewrite !append_cons in H. injection H as -> H. by rewrite (IH b).
Qed.

Lemma group_events_Returns (open : string -> Combine.Image)
    (choose : Combine.Image -> Combine.Image -> option string)
    (base : string) (parts : list (Z * string)) (img : Combine.Image) :
  merge open choose parts = Combine.Returns img →
  group_events open choose (base, parts)
  = [Combine.Processing base; Combine.Saved (base +:+ ".jpg") img].
Proof. intros Himg. unfold group_events. cbn [fst snd]. by rewrite Himg. Qed.

Lemma write_groups (open : string -> Combine.Image)
    (choose : Combine.Image -> Combine.Image -> option string)
    (grouped : list (string * list (Z * string)))
    (out : gmap string content) :
  NoDup grouped.*1 →
  Forall (fun entry => ∃ img,
            merge open choose entry.2 = Combine.Returns img) grouped →
  (∀ base parts img,
     (base, parts) ∈ grouped →
     merge open choose parts = Combine.Returns img →
     foldl write out (grouped ≫= group_events open choose)
     !! (base +:+ ".jpg") = Some (Merged img))
  ∧ (∀ name,
       (∀ base, base ∈ grouped.*1 → name ≠ base +:+ ".jpg") →
       foldl write out (grouped ≫= group_events open choose) !! name
       = out !! name).
Proof.
  revert out. induction grouped as [|[b ps] grouped IH]; intros out Hnd Hall.
  - split; [by intros ??? ?%elem_of_nil|done].
  - rewrite fmap_cons in Hnd. cbn [fst] in Hnd.
    apply NoDup_cons in Hnd as [Hb Hnd].
    apply Forall_cons in Hall as [[img0 Himg0] Hall]. cbn [snd] in Himg0.
    change (((b, ps) :: grouped) ≫= group_events open choose)
      with (group_events open choose (b, ps)
            ++ (grouped ≫= group_events open choose)).
    rewrite foldl_app, (group_events_Returns _ _ _ _ _ Himg0).
    cbn [foldl write].
    destruct (IH (<[b +:+ ".jpg" := Merged img0]> out) Hnd Hall)
      as [IH1 IH2].
    split.
    + intros base parts img [[= -> ->]|Hin]%elem_of_cons Himg.
      * rewrite IH2.
        -- rewrite lookup_insert_eq. congruence.
        -- intros base Hbase Heq%append_inj_l. congruence.
      * by apply (IH1 base parts img).
    + intros name Hname. rewrite IH2.
      * rewrite lookup_insert_ne; [done|]. intros <-.
        by apply (Hname b); [apply list_elem_of_here|].
      * intros base Hbase. by apply Hname, list_elem_of_further.
Qed.

(** X25. The output directory after a run of [main] that ends without an
    exception.  For every code with split files, [<code>.jpg] holds the
    merged image of its parts, whether or not a whole image of that name
    was copied before: the copy is overwritten.  Every other name holds the
    copy of the whole image of that name when the listing has one, and
    nothing otherwise. *)
Theorem main_outputs (open : string -> Combine.Image)
    (choose : Combine.Image -> Combine.Image -> option string)
    (files : list string) (events : list Combine.event) :
  Combine.main open choose files = (events, Combine.Returns ()) →
  (∀ base,
     parts_of base files ≠ [] →
     ∃ img,
       merge open choose (parts_of base files) = Combine.Returns img
       ∧ outputs events !! (base +:+ ".jpg") = Some (Merged img))
  ∧ (∀ name,
       (∀ base, parts_of base files ≠ [] → name ≠ base +:+ ".jpg") →
       outputs events !! name
       = if bool_decide (name ∈ files ∧ is_normal name = true)
         then Some (CopyOf name) else None).
Proof.
  unfold Combine.main.
  destruct (scan_invariant files) as (Hs & Hnd & Hget & Hkeys).
  destruct (Combine.scan files) as [grouped singles]. cbn [fst snd] in *.
  destruct (Combine.process open choose grouped) as [l r] eqn:Hprocess.
  intros [= <- ->]. apply process_Returns in Hprocess as [-> Hall].
  unfold outputs. rewrite foldl_app.
  destruct (write_groups open choose grouped
              (foldl write ∅ (Combine.Copied <$> singles)) Hnd Hall)
    as [Hmerged Hother].
  split.
  - intros base Hbase. apply Hkeys in Hbase.
    assert ((base, parts_of base files) ∈ grouped) as Hin
      by (by apply get_elem_of).
    destruct (proj1 (Forall_forall _ _) Hall _ Hin) as [img Himg].
    exists img. split; [done|]. by apply (Hmerged _ _ _ Hin).
  - intros name Hname. rewrite Hother.
    + rewrite write_copies, lookup_empty, Hs.
      rewrite (bool_decide_ext _ (name ∈ files ∧ is_normal name = true));
        [done|].
      by rewrite list_elem_of_filter, (comm and).
    + intros base Hbase. by apply Hname, Hkeys.
Qed.

Lemma main_outputs_witness :
  (∀ base,
     parts_of base ["F4.jpg"; "F4_2_of_2.jpg"; "S1.jpeg"; "F4_1_of_2.jpg"]
     ≠ [] →
     ∃ img,
       merge (fun file => Combine.Opened file 800 300) (fun _ _ => None)
         (parts_of base
            ["F4.jpg"; "F4_2_of_2.jpg"; "S1.jpeg"; "F4_1_of_2.jpg"])
       = Combine.Returns img
       ∧ outputs
           (Combine.main (fun file => Combine.Opened file 800 300)
              (fun _ _ => None)
              ["F4.jpg"; "F4_2_of_2.jpg"; "S1.jpeg"; "F4_1_of_2.jpg"]).1
         !! (base +:+ ".jpg") = Some (Merged img))
  ∧ (∀ name,
       (∀ base,
          parts_of base
            ["F4.jpg"; "F4_2_of_2.jpg"; "S1.jpeg"; "F4_1_of_2.jpg"] ≠ [] →
          name ≠ base +:+ ".jpg") →
       outputs
         (Combine.main (fun file => Combine.Opened file 800 300)
            (fun _ _ => None)
            ["F4.jpg"; "F4_2_of_2.jpg"; "S1.jpeg"; "F4_1_of_2.jpg"]).1
       !! name
       = if bool_decide
              (name ∈ ["F4.jpg"; "F4_2_of_2.jpg"; "S1.jpeg"; "F4_1_of_2.jpg"]
               ∧ is_normal name = true)
         then Some (CopyOf name) else None).
Proof.
  refine (main_outputs (fun file => Combine.Opened file 800 300)
            (fun _ _ => None)
            ["F4.jpg"; "F4_2_of_2.jpg"; "S1.jpeg"; "F4_1_of_2.jpg"] _ _).
  vm_compute. reflexivity.
Defined.
